(** * Change-detection and resilient-execution engine: a shallow embedding

    The development follows three source files of the repository:
    - [src/lib/edgeCaseHandler.js]  (class [EdgeCaseHandler], the resilient executor),
    - [src/unnamed/part_003]        (class [UltimateRealtimeStreamPackage], the TTL cache),
    - [src/lib/heartbeatSystem.js]  (class [HeartbeatSystem], the poller and the
      listener registry).

    Part I holds the definitions, one module per class; Part II holds the
    lemmas and theorems. *)

From Stdlib Require Import ZArith QArith String Ascii List DecimalString Lia.
From stdpp Require Import gmap strings list.
Import ListNotations.

Open Scope Z_scope.

(* ===================================================================== *)
(** * Part I: definitions *)
(* ===================================================================== *)

(** ** JavaScript strings

    Only the operations that [classifyError] and the template literals of
    the error messages need. *)
Module JsString.

(** [String.prototype.includes]: [sub] occurs somewhere in [s]. *)
Fixpoint includes (s sub : string) : bool :=
  String.prefix sub s ||
  match s with
  | EmptyString => false
  | String _ rest => includes rest sub
  end.

(** One character of [String.prototype.toLowerCase]; letters outside
    ASCII are left as they are. *)
Definition lowerAscii (c : ascii) : ascii :=
  let n := nat_of_ascii c in
  if ((65 <=? n) && (n <=? 90))%nat then ascii_of_nat (n + 32) else c.

Fixpoint toLowerCase (s : string) : string :=
  match s with
  | EmptyString => EmptyString
  | String c rest => String (lowerAscii c) (toLowerCase rest)
  end.

(** What a template literal prints for an integer-valued number. *)
Definition ofZ (z : Z) : string := NilZero.string_of_int (Z.to_int z).
Definition ofNat (n : nat) : string := ofZ (Z.of_nat n).

End JsString.

(** ** Truthiness *)
Module JsTruthy.

(** [a || b] on numbers, for an [a] that may be missing: 0 and
    [undefined] give [b]. *)
Definition orElse (a : option Z) (b : Z) : Z :=
  match a with
  | Some x => if x =? 0 then b else x
  | None => b
  end.

(** [if (key)] on a string that may be missing: neither [null] or
    [undefined] nor the empty string. *)
Definition truthyKey (k : option string) : option string :=
  match k with
  | Some key => if String.eqb key "" then None else Some key
  | None => None
  end.

End JsTruthy.

(** ** The resilient executor ([src/lib/edgeCaseHandler.js])

    Times are integers, in milliseconds, and a timer fires when it is due.
    One call runs at a time. The bookkeeping of [operationsInProgress] and
    the resource monitor take no part in the retry logic and are left
    out. *)
Module EdgeCaseHandler.
Import JsString.

Inductive BreakerState := CLOSED | OPEN | HALF_OPEN.

Inductive ErrorType :=
| CONNECTION_ERROR | TIMEOUT_ERROR | RESOURCE_ERROR | VALIDATION_ERROR
| AUTHENTICATION_ERROR | RATE_LIMIT_ERROR | DATA_CORRUPTION_ERROR
| NETWORK_ERROR | UNKNOWN_ERROR.

(** A JavaScript [Error]: its message and, when the error carries
    [response.headers['retry-after']], what [parseInt] reads in it
    ([None] when the header is absent or is not a number). *)
Record JsError := mkError { message : string; retryAfterHeader : option Z }.

Definition newError (msg : string) : JsError := mkError msg None.

(** The fields of [this.config] that the executor reads. *)
Record Config := mkConfig {
  maxRetries : nat;
  retryDelay : Z;
  circuitBreakerThreshold : nat;
  circuitBreakerTimeout : Z;
  operationTimeout : Z
}.

(** The defaults of the constructor (lines 6-17). *)
Definition defaultConfig : Config :=
  {| maxRetries := 10; retryDelay := 1000; circuitBreakerThreshold := 5;
     circuitBreakerTimeout := 30000; operationTimeout := 10000 |}.

(** The [context] argument: [retryAttempt] ([context.retryAttempt || 0],
    so 0 also stands for a missing field) and the [timeout] field that
    [handleTimeoutError] adds. *)
Record Context := mkContext { retryAttempt : nat; timeout : option Q }.

Definition freshContext : Context := mkContext 0 None.

(** What is observable of a run: invocations of the wrapped operation
    (with the delay of the timer it races against), timers awaited by
    [sleep], and the events the handler emits. *)
Inductive Event :=
| EvInvoke (raceTimer : Z)
| EvSleep (ms : Z)
| EvHalfOpen
| EvOperationSuccess
| EvOperationFailed (errorType : ErrorType) (attempt : nat)
| EvCircuitBreakerOpened (failures : nat) (timestamp : Z)
| EvEmit (name : string).

(** The three breaker fields of the object ([circuitBreakerState],
    [failureCount], [lastFailureTime]) and the world around it: the
    value of [Date.now()], how many times the wrapped operation was
    called, how many jitter values were drawn, and the trace. *)
Record Machine := mkMachine {
  circuitBreakerState : BreakerState;
  failureCount : nat;
  lastFailureTime : Z;
  clock : Z;
  invocations : nat;
  draws : nat;
  events : list Event
}.

(** The constructor's state (lines 19-21) at time [t]. *)
Definition newHandler (t : Z) : Machine :=
  mkMachine CLOSED 0 0 t 0 0 [].

Section Executor.
(** The type of the values the wrapped operation resolves to. *)
Context {Value : Type}.

(** How one invocation of the wrapped operation settles: it resolves or
    rejects [after] milliseconds, or never settles. *)
Inductive Settlement :=
| Resolves (v : Value) (after : Z)
| Rejects (e : JsError) (after : Z)
| Pending.

(** The environment of a run: how the k-th invocation of the operation
    settles, and the k-th value of [Math.random() * 1000] in
    milliseconds. *)
Record Env := mkEnv {
  operation : nat -> Settlement;
  jitter : nat -> Z
}.

(** The result of an [async] call; [OutOfFuel] only marks a run cut
    short by the recursion bound of the model. *)
Inductive Completion :=
| Returned (v : Value)
| Thrown (e : JsError)
| OutOfFuel.

Definition log (e : Event) (m : Machine) : Machine :=
  mkMachine (circuitBreakerState m) (failureCount m) (lastFailureTime m)
            (clock m) (invocations m) (draws m) (events m ++ [e]).

Definition setBreaker (s : BreakerState) (m : Machine) : Machine :=
  mkMachine s (failureCount m) (lastFailureTime m)
            (clock m) (invocations m) (draws m) (events m).

Definition setFailureCount (n : nat) (m : Machine) : Machine :=
  mkMachine (circuitBreakerState m) n (lastFailureTime m)
            (clock m) (invocations m) (draws m) (events m).

Definition setLastFailureTime (t : Z) (m : Machine) : Machine :=
  mkMachine (circuitBreakerState m) (failureCount m) t
            (clock m) (invocations m) (draws m) (events m).

(** Time passes: a timer of [ms] milliseconds is awaited (a negative
    delay fires at once). *)
Definition advance (ms : Z) (m : Machine) : Machine :=
  mkMachine (circuitBreakerState m) (failureCount m) (lastFailureTime m)
            (clock m + Z.max 0 ms) (invocations m) (draws m) (events m).

(** [sleep(ms)] (lines 422-424). *)
Definition sleep (ms : Z) (m : Machine) : Machine :=
  advance ms (log (EvSleep ms) m).

(** [classifyError] (lines 180-209), on [error.message]. *)
Definition classifyError (msg : string) : ErrorType :=
  let message := toLowerCase msg in
  if includes message "connection" || includes message "connect" then CONNECTION_ERROR
  else if includes message "timeout" || includes message "timed out" then TIMEOUT_ERROR
  else if includes message "memory" || includes message "space" then RESOURCE_ERROR
  else if includes message "validation" || includes message "invalid" then VALIDATION_ERROR
  else if includes message "auth" || includes message "permission"
          || includes message "unauthorized" then AUTHENTICATION_ERROR
  else if includes message "rate limit" || includes message "too many" then RATE_LIMIT_ERROR
  else if includes message "corrupt" || includes message "checksum" then DATA_CORRUPTION_ERROR
  else if includes message "network" || includes message "host"
          || includes message "dns" then NETWORK_ERROR
  else UNKNOWN_ERROR.

(** [onOperationSuccess] (lines 371-385). *)
Definition onOperationSuccess (m : Machine) : Machine :=
  let m1 :=
    match circuitBreakerState m with
    | HALF_OPEN => setFailureCount 0 (setBreaker CLOSED m)
    | CLOSED =>
        if (0 <? failureCount m)%nat
        then setFailureCount (Nat.max 0 (failureCount m - 1)) m
        else m
    | OPEN => m
    end in
  log EvOperationSuccess m1.

(** [openCircuitBreaker] (lines 387-396). *)
Definition openCircuitBreaker (m : Machine) : Machine :=
  let m1 := setLastFailureTime (clock m) (setBreaker OPEN m) in
  log (EvCircuitBreakerOpened (failureCount m1) (lastFailureTime m1)) m1.

(** [calculateBackoffDelay] (lines 398-405); the jitter is the next
    value of the environment. *)
Definition calculateBackoffDelay (cfg : Config) (env : Env) (attempt : nat)
           (m : Machine) : Z * Machine :=
  let baseDelay := retryDelay cfg in
  let exponentialDelay := baseDelay * 2 ^ (Z.of_nat attempt - 1) in
  let j := jitter env (draws m) in
  (Z.min (exponentialDelay + j) 30000,
   mkMachine (circuitBreakerState m) (failureCount m) (lastFailureTime m)
             (clock m) (invocations m) (S (draws m)) (events m)).

(** [extractRetryAfter(error) || 5000] (lines 305, 407-416). *)
Definition retryAfterOrDefault (e : JsError) : Z :=
  match retryAfterHeader e with
  | Some seconds => if seconds * 1000 =? 0 then 5000 else seconds * 1000
  | None => 5000
  end.

(** The error of the circuit check (line 90). *)
Definition circuitOpenError : JsError :=
  newError "Circuit breaker is OPEN - operation rejected".

(** The error of the timer of the race (line 104). *)
Definition timeoutError (cfg : Config) : JsError :=
  newError ("Operation timeout after " +:+ ofZ (operationTimeout cfg) +:+ "ms").

(** The terminal error of [handleConnectionError] (line 217). *)
Definition maxRetriesError (cfg : Config) (error : JsError) : JsError :=
  newError ("Max retries (" +:+ ofNat (maxRetries cfg)
            +:+ ") exceeded for connection error: " +:+ message error).

(** The circuit check (lines 85-92): the machine goes on, possibly
    half-open, or the check throws. *)
Definition checkCircuitBreaker (cfg : Config) (m : Machine) : Machine + JsError :=
  match circuitBreakerState m with
  | OPEN =>
      if circuitBreakerTimeout cfg <? clock m - lastFailureTime m
      then inl (log EvHalfOpen (setBreaker HALF_OPEN m))
      else inr circuitOpenError
  | _ => inl m
  end.

(** [operation()] is called, racing a timer of [timer] milliseconds. *)
Definition noteInvocation (timer : Z) (m : Machine) : Machine :=
  log (EvInvoke timer)
      (mkMachine (circuitBreakerState m) (failureCount m) (lastFailureTime m)
                 (clock m) (S (invocations m)) (draws m) (events m)).

(** The race of the operation against the timer (lines 101-112). The
    timer is always [config.operationTimeout]: the function does not
    read [context.timeout]. *)
Definition raceOperation (cfg : Config) (env : Env) (m : Machine)
  : Machine * (Value + JsError) :=
  let k := invocations m in
  let m1 := noteInvocation (operationTimeout cfg) m in
  let timerWins := (advance (operationTimeout cfg) m1, inr (timeoutError cfg)) in
  match operation env k with
  | Resolves v after =>
      if after <? operationTimeout cfg then (advance after m1, inl v) else timerWins
  | Rejects e after =>
      if after <? operationTimeout cfg then (advance after m1, inr e) else timerWins
  | Pending => timerWins
  end.

(** The [try] block of [executeWithErrorHandling] (lines 83-117). *)
Definition tryOperation (cfg : Config) (env : Env) (m : Machine)
  : Machine * (Value + JsError) :=
  match checkCircuitBreaker cfg m with
  | inr e => (m, inr e)
  | inl m1 =>
      match raceOperation cfg env m1 with
      | (m2, inl v) => (onOperationSuccess m2, inl v)
      | (m2, inr e) => (m2, inr e)
      end
  end.

(** The bookkeeping at the head of [handleOperationFailure]
    (lines 126-146). *)
Definition recordFailure (cfg : Config) (error : JsError) (ctx : Context)
           (m : Machine) : Machine :=
  let m1 := setLastFailureTime (clock m) (setFailureCount (S (failureCount m)) m) in
  let m2 := log (EvOperationFailed (classifyError (message error)) (retryAttempt ctx)) m1 in
  if (circuitBreakerThreshold cfg <=? failureCount m2)%nat
  then openCircuitBreaker m2
  else m2.

Section Handlers.
(** The handlers call [this.executeWithErrorHandling] again; [retry]
    stands for that call. *)
Variable retry : Machine -> Context -> Machine * Completion.
Variable cfg : Config.
Variable env : Env.

(** [handleConnectionError] (lines 211-230). *)
Definition handleConnectionError (error : JsError) (ctx : Context) (m : Machine)
  : Machine * Completion :=
  let attempt := S (retryAttempt ctx) in
  if (maxRetries cfg <? attempt)%nat then
    (m, Thrown (maxRetriesError cfg error))
  else
    let '(delay, m1) := calculateBackoffDelay cfg env attempt m in
    retry (sleep delay m1) (mkContext attempt (timeout ctx)).

(** [handleTimeoutError] (lines 232-252). *)
Definition handleTimeoutError (error : JsError) (ctx : Context) (m : Machine)
  : Machine * Completion :=
  let attempt := S (retryAttempt ctx) in
  if (3 <? attempt)%nat then
    (m, Thrown (newError ("Timeout retries exceeded: " +:+ message error)))
  else
    let newTimeout :=
      (inject_Z (operationTimeout cfg) * Qpower (3 # 2) (Z.of_nat attempt))%Q in
    retry (sleep (1000 * Z.of_nat attempt) m)
          (mkContext attempt (Some newTimeout)).

(** [handleResourceError] (lines 254-278). *)
Definition handleResourceError (error : JsError) (ctx : Context) (m : Machine)
  : Machine * Completion :=
  let m1 := sleep 5000 (log (EvEmit "resourceCleanup") m) in
  let attempt := S (retryAttempt ctx) in
  if (2 <? attempt)%nat then
    (m1, Thrown (newError ("Resource error retries exceeded: " +:+ message error)))
  else retry m1 (mkContext attempt (timeout ctx)).

(** [handleAuthError] (lines 280-299). *)
Definition handleAuthError (error : JsError) (ctx : Context) (m : Machine)
  : Machine * Completion :=
  let m1 := sleep 2000 (log (EvEmit "authRefreshNeeded") m) in
  let attempt := S (retryAttempt ctx) in
  if (1 <? attempt)%nat then
    (m1, Thrown (newError ("Authentication error: " +:+ message error)))
  else retry m1 (mkContext attempt (timeout ctx)).

(** [handleRateLimitError] (lines 301-320). *)
Definition handleRateLimitError (error : JsError) (ctx : Context) (m : Machine)
  : Machine * Completion :=
  let m1 := sleep (retryAfterOrDefault error) m in
  let attempt := S (retryAttempt ctx) in
  if (3 <? attempt)%nat then
    (m1, Thrown (newError ("Rate limit retries exceeded: " +:+ message error)))
  else retry m1 (mkContext attempt (timeout ctx)).

(** [handleDataCorruptionError] (lines 322-330). *)
Definition handleDataCorruptionError (error : JsError) (ctx : Context) (m : Machine)
  : Machine * Completion :=
  (log (EvEmit "dataIntegrityIssue") m,
   Thrown (newError ("Data corruption detected: " +:+ message error))).

(** [handleNetworkError] (lines 332-351). *)
Definition handleNetworkError (error : JsError) (ctx : Context) (m : Machine)
  : Machine * Completion :=
  let attempt := S (retryAttempt ctx) in
  if (maxRetries cfg <? attempt)%nat then
    (m, Thrown (newError ("Network error retries exceeded: " +:+ message error)))
  else
    let delay := Z.min (retryDelay cfg * 2 ^ Z.of_nat attempt) 30000 in
    retry (sleep delay m) (mkContext attempt (timeout ctx)).

(** [handleGenericError] (lines 353-369); it rethrows the error it
    was given. *)
Definition handleGenericError (error : JsError) (ctx : Context) (m : Machine)
  : Machine * Completion :=
  let attempt := S (retryAttempt ctx) in
  if (maxRetries cfg / 2 <? attempt)%nat then (m, Thrown error)
  else
    let '(delay, m1) := calculateBackoffDelay cfg env attempt m in
    retry (sleep delay m1) (mkContext attempt (timeout ctx)).

(** The [switch] of [handleOperationFailure] (lines 149-177). *)
Definition dispatchFailure (error : JsError) (ctx : Context) (m : Machine)
  : Machine * Completion :=
  match classifyError (message error) with
  | CONNECTION_ERROR => handleConnectionError error ctx m
  | TIMEOUT_ERROR => handleTimeoutError error ctx m
  | RESOURCE_ERROR => handleResourceError error ctx m
  | VALIDATION_ERROR => (m, Thrown error)
  | AUTHENTICATION_ERROR => handleAuthError error ctx m
  | RATE_LIMIT_ERROR => handleRateLimitError error ctx m
  | DATA_CORRUPTION_ERROR => handleDataCorruptionError error ctx m
  | NETWORK_ERROR => handleNetworkError error ctx m
  | UNKNOWN_ERROR => handleGenericError error ctx m
  end.

(** [handleOperationFailure] (lines 125-178). *)
Definition handleOperationFailure (error : JsError) (ctx : Context) (m : Machine)
  : Machine * Completion :=
  dispatchFailure error ctx (recordFailure cfg error ctx m).

End Handlers.

(** [executeWithErrorHandling] (lines 79-123). The recursion through
    the handlers is bounded by [fuel]; [enoughFuel] below is a bound
    that always suffices. An error thrown by a handler leaves through
    the [catch] block and reaches the caller as it is. *)
Fixpoint executeWithErrorHandling (fuel : nat) (cfg : Config) (env : Env)
         (m : Machine) (ctx : Context) : Machine * Completion :=
  match fuel with
  | O => (m, OutOfFuel)
  | S fuel' =>
      match tryOperation cfg env m with
      | (m1, inl v) => (m1, Returned v)
      | (m1, inr e) =>
          handleOperationFailure (executeWithErrorHandling fuel' cfg env)
                                 cfg env e ctx m1
      end
  end.

(** Every handler stops retrying once [retryAttempt] has passed both
    [maxRetries] and 3, so this many nested calls are never exceeded. *)
Definition enoughFuel (cfg : Config) (ctx : Context) : nat :=
  S (Nat.max (maxRetries cfg) 3 - retryAttempt ctx).

(** The call as a caller makes it. *)
Definition execute (cfg : Config) (env : Env) (m : Machine) (ctx : Context)
  : Machine * Completion :=
  executeWithErrorHandling (enoughFuel cfg ctx) cfg env m ctx.

(** How many [EvInvoke] and [EvSleep] a trace holds. *)
Definition isInvoke (e : Event) : bool :=
  match e with EvInvoke _ => true | _ => false end.
Definition isSleep (e : Event) : bool :=
  match e with EvSleep _ => true | _ => false end.

End Executor.

Arguments Settlement : clear implicits.
Arguments Env : clear implicits.
Arguments Completion : clear implicits.

(** A caller issuing several calls one after the other: each call
    arrives [gap] milliseconds after the previous one has completed. *)
Fixpoint executeAll {Value : Type} (cfg : Config) (env : Env Value)
         (calls : list (Z * Context)) (m : Machine)
  : Machine * list (Completion Value) :=
  match calls with
  | [] => (m, [])
  | (gap, ctx) :: rest =>
      let '(m1, r) := execute cfg env (advance gap m) ctx in
      let '(m2, rs) := executeAll cfg env rest m1 in
      (m2, r :: rs)
  end.

(** The wrapped operation was called exactly [n] times during the call. *)
Definition attemptsExactly {Value : Type} (cfg : Config) (env : Env Value)
           (m : Machine) (n : nat) : Prop :=
  invocations (fst (execute cfg env m freshContext)) = (invocations m + n)%nat.

(** Every invocation of the operation rejects before the timer of the
    race, with a message that [classifyError] puts in category [ty]. *)
Definition alwaysFailsWith {Value : Type} (cfg : Config) (env : Env Value)
           (ty : ErrorType) : Prop :=
  forall k, exists e after,
    operation env k = Rejects e after /\
    after < operationTimeout cfg /\
    classifyError (message e) = ty.

(** The retries of the generic policy are [execute] calls too: each one
    arrives after the backoff of [calculateBackoffDelay]. This says that
    none of these backoffs is longer than the breaker timeout. *)
Definition retriesArriveWithinTimeout {Value : Type} (cfg : Config)
           (env : Env Value) : Prop :=
  0 <= circuitBreakerTimeout cfg /\
  forall attempt k,
    Z.min (retryDelay cfg * 2 ^ (Z.of_nat attempt - 1) + jitter env k) 30000
    <= circuitBreakerTimeout cfg.

(** ** Concrete configurations, operations and handlers *)

(** A handler whose breaker opened at time 0 after five failures, seen
    100 ms later. *)
Definition openedHandler : Machine := mkMachine OPEN 5 0 100 0 0 [].

(** An operation that would succeed after 5 ms; no jitter. *)
Definition healthyEnv : Env nat :=
  mkEnv (fun _ => Resolves 7%nat 5) (fun _ => 0).

(** The defaults with a breaker timeout of half a second. *)
Definition shortBreakerConfig : Config := mkConfig 10 1000 5 500 10000.

(** The defaults with [maxRetries] set to 2. *)
Definition twoRetriesConfig : Config := mkConfig 2 1000 5 30000 10000.

(** An operation refused after 5 ms on every invocation. *)
Definition refusedEnv : Env nat :=
  mkEnv (fun _ => Rejects (newError "connect ECONNREFUSED 127.0.0.1:27017") 5)
        (fun _ => 0).

(** An operation that never settles. *)
Definition hangingEnv : Env nat := mkEnv (fun _ => Pending) (fun _ => 0).

(** ** The retry policy, the breaker between calls, and the helpers
    around [executeWithErrorHandling] *)

(** How many retries the handler of a category allows (the tests
    [retryAttempt > ...] of lines 216, 237, 270, 291, 312, 337 and 358;
    lines 159-161 and 322-330 never retry). *)
Definition retryBudget (cfg : Config) (ty : ErrorType) : nat :=
  match ty with
  | CONNECTION_ERROR | NETWORK_ERROR => maxRetries cfg
  | TIMEOUT_ERROR | RATE_LIMIT_ERROR => 3
  | RESOURCE_ERROR => 2
  | AUTHENTICATION_ERROR => 1
  | UNKNOWN_ERROR => maxRetries cfg / 2
  | VALIDATION_ERROR | DATA_CORRUPTION_ERROR => 0
  end.

(** The breaker as a call leaves it: CLOSED, or OPEN with the failure
    count at or above the threshold. *)
Definition settled (cfg : Config) (m : Machine) : Prop :=
  circuitBreakerState m = CLOSED \/
  (circuitBreakerState m = OPEN /\
   (circuitBreakerThreshold cfg <= failureCount m)%nat).

(** Between [m] and [m'] only time has passed and events were logged:
    the breaker fields and the number of invocations are the same. *)
Definition waited (m m' : Machine) : Prop :=
  circuitBreakerState m' = circuitBreakerState m /\
  failureCount m' = failureCount m /\
  lastFailureTime m' = lastFailureTime m /\
  invocations m' = invocations m /\
  clock m <= clock m'.

(** Every invocation of the operation resolves before the timer. *)
Definition alwaysResolves {Value : Type} (cfg : Config) (env : Env Value) : Prop :=
  forall k, exists v after,
    operation env k = Resolves v after /\ after < operationTimeout cfg.

(** No invocation of the operation settles before the timer. *)
Definition neverInTime {Value : Type} (cfg : Config) (env : Env Value) : Prop :=
  forall k,
    match operation env k with
    | Resolves _ after | Rejects _ after => operationTimeout cfg <= after
    | Pending => True
    end.

(** [executeWithGracefulDegradation] (lines 427-440). The fallback is
    awaited without a timer: [None] is a call that never settles, and
    the boolean tells whether [fallbackOperation()] was called. *)
Definition executeWithGracefulDegradation {Value : Type} (cfg : Config)
           (env : Env Value) (fallback : Settlement Value)
           (m : Machine) (ctx : Context)
  : Machine * option (Completion Value) * bool :=
  match execute cfg env m ctx with
  | (m1, Thrown error) =>
      match fallback with
      | Resolves v after => (advance after m1, Some (Returned v), true)
      | Rejects fallbackError after => (advance after m1, Some (Thrown error), true)
      | Pending => (m1, None, true)
      end
  | (m1, completion) => (m1, Some completion, false)
  end.

(** The loop of [chunkArray] (lines 492-498) from position [i]: [rest] is
    [array.slice(i)], and [fuel] bounds the number of rounds. *)
Fixpoint chunksFrom {A : Type} (fuel : nat) (rest : list A) (chunkSize : nat)
  : list (list A) :=
  match fuel, rest with
  | O, _ => []
  | _, [] => []
  | S fuel', _ =>
      firstn chunkSize rest :: chunksFrom fuel' (skipn chunkSize rest) chunkSize
  end.

(** [chunkArray(array, chunkSize)] for a whole number [chunkSize]. With
    [chunkSize] 0 the index of the loop never moves: the call returns
    (an empty list) only for an empty array, and [None] stands for the
    loop that does not end. *)
Definition chunkArray {A : Type} (array : list A) (chunkSize : nat)
  : option (list (list A)) :=
  match chunkSize, array with
  | O, [] => Some []
  | O, _ => None
  | _, _ => Some (chunksFrom (length array) array chunkSize)
  end.

(** [globalIndex] of [executeBulkOperations] (line 476), for the chunk at
    position [chunkIndex] and the position [localIndex] in it. *)
Definition globalIndex (maxConcurrency chunkIndex localIndex : nat) : nat :=
  chunkIndex * maxConcurrency + localIndex.

(** The character [c] occurs in [s]. *)
Fixpoint mentions (c : ascii) (s : string) : bool :=
  match s with
  | EmptyString => false
  | String c' rest => Ascii.eqb c c' || mentions c rest
  end.

(** The error that [handleTimeoutError] throws once the retries are used
    up (line 238), for the error of the race timer. *)
Definition timeoutRetriesError (cfg : Config) : JsError :=
  newError ("Timeout retries exceeded: " +:+ message (timeoutError cfg)).

(** An operation rejected at once as invalid on every invocation. *)
Definition invalidEnv : Env nat :=
  mkEnv (fun _ => Rejects (newError "Invalid document: key is required") 1)
        (fun _ => 0).

(** An operation whose replies are reported as corrupt. *)
Definition corruptEnv : Env nat :=
  mkEnv (fun _ => Rejects (newError "checksum mismatch in page 7") 1)
        (fun _ => 0).

(** An operation that fails on a rate limit, with a retry-after of 2 s. *)
Definition throttledEnv : Env nat :=
  mkEnv (fun _ => Rejects (mkError "429 Too Many Requests" (Some 2)) 3)
        (fun _ => 0).

(** The defaults with a threshold that the retries of one call do not
    reach. *)
Definition patientConfig : Config := mkConfig 10 1000 50 30000 10000.

(** A closed handler that has seen two failures. *)
Definition bruisedHandler : Machine := mkMachine CLOSED 2 500 1000 0 0 [].

(** A handler whose breaker opened at time 0, seen 40 s later. *)
Definition cooledHandler : Machine := mkMachine OPEN 5 0 40000 0 0 [].

End EdgeCaseHandler.


(** ** JavaScript [Map] with string keys

    A [Map] iterates in insertion order, and [evictOldestCacheEntry] below
    depends on that order, so a map is the list of its entries, oldest
    insertion first, with at most one entry per key. *)
Module JsMap.
Section WithValues.
Context {V : Type}.

Definition t : Type := list (string * V).

Definition empty : t := [].

(** [map.get(key)]; [None] stands for [undefined]. *)
Fixpoint get (key : string) (m : t) : option V :=
  match m with
  | [] => None
  | (k, v) :: rest => if String.eqb key k then Some v else get key rest
  end.

(** [map.has(key)]. *)
Definition has (key : string) (m : t) : bool :=
  match get key m with Some _ => true | None => false end.

(** [map.set(key, value)]: an existing key keeps its place, a new key
    goes last. *)
Fixpoint set (key : string) (value : V) (m : t) : t :=
  match m with
  | [] => [(key, value)]
  | (k, v) :: rest =>
      if String.eqb key k then (key, value) :: rest
      else (k, v) :: set key value rest
  end.

(** [map.delete(key)]. *)
Fixpoint delete (key : string) (m : t) : t :=
  match m with
  | [] => []
  | (k, v) :: rest =>
      if String.eqb key k then delete key rest else (k, v) :: delete key rest
  end.

(** [map.size]. *)
Definition size (m : t) : nat := length m.

(** [Array.from(map.keys())]. *)
Definition keys (m : t) : list string := List.map fst m.

End WithValues.
Arguments t : clear implicits.
End JsMap.

(** ** The cache of [UltimateRealtimeStreamPackage] ([src/unnamed/part_003])

    The readings of [Date.now()] are arguments of the functions. *)
Module StreamCache.
Import JsTruthy.

(** The entries of [this.cacheMetadata] (lines 698-703); times are in
    milliseconds. *)
Record Metadata := mkMetadata {
  timestamp : Z;
  ttl : Z;
  accessCount : Z;
  lastAccess : Z
}.

(** The fields of [this.config] that the cache reads (lines 75, 79, 80);
    [cacheTTL] is in seconds. *)
Record Config := mkConfig {
  enableCache : bool;
  cacheSize : nat;
  cacheTTL : Z
}.

Definition defaultConfig : Config := mkConfig true (Z.to_nat 10000) 300.

Section WithValues.
Context {Value : Type}.

(** [this.cache] and [this.cacheMetadata] (lines 187-188). *)
Record Cache := mkCache {
  cache : JsMap.t Value;
  cacheMetadata : JsMap.t Metadata
}.

Definition emptyCache : Cache := mkCache JsMap.empty JsMap.empty.

(** The loop of [evictOldestCacheEntry] (lines 740-748): the pair
    ([oldestKey], [oldestTime]) after the entries of [meta], starting
    from ([null], [Date.now()]). *)
Definition scanOldest (now : Z) (meta : JsMap.t Metadata) : option string * Z :=
  fold_left
    (fun (acc : option string * Z) (entry : string * Metadata) =>
       if lastAccess (snd entry) <? snd acc
       then (Some (fst entry), lastAccess (snd entry))
       else acc)
    meta (None, now).

(** [evictOldestCacheEntry] (lines 739-754), with [now] what
    [Date.now()] returns at line 741; [if (oldestKey)] is [truthyKey]. *)
Definition evictOldestCacheEntry (now : Z) (c : Cache) : Cache :=
  match truthyKey (fst (scanOldest now (cacheMetadata c))) with
  | Some oldestKey =>
      mkCache (JsMap.delete oldestKey (cache c))
              (JsMap.delete oldestKey (cacheMetadata c))
  | None => c
  end.

(** [updateCache] (lines 686-704). [now] is the reading of [Date.now()]
    at line 689 and [evictNow] the reading inside
    [evictOldestCacheEntry]; [ttlOption] is [options.cacheTTL]. *)
Definition updateCache (cfg : Config) (key : string) (data : Value)
           (ttlOption : option Z) (now evictNow : Z) (c : Cache) : Cache :=
  if negb (enableCache cfg) then c
  else
    let ttl := orElse ttlOption (cacheTTL cfg) in
    let c1 := if (cacheSize cfg <=? JsMap.size (cache c))%nat
              then evictOldestCacheEntry evictNow c else c in
    mkCache (JsMap.set key data (cache c1))
            (JsMap.set key (mkMetadata now (ttl * 1000) 1 now) (cacheMetadata c1)).

(** [getFromCache] (lines 706-726); [None] stands for [null]. *)
Definition getFromCache (key : string) (now : Z) (c : Cache)
  : Cache * option Value :=
  if negb (JsMap.has key (cache c)) then (c, None)
  else
    match JsMap.get key (cacheMetadata c) with
    | Some metadata =>
        if timestamp metadata + ttl metadata <? now then
          (mkCache (JsMap.delete key (cache c))
                   (JsMap.delete key (cacheMetadata c)), None)
        else
          let touched := mkMetadata (timestamp metadata) (ttl metadata)
                                    (accessCount metadata + 1) now in
          (mkCache (cache c) (JsMap.set key touched (cacheMetadata c)),
           JsMap.get key (cache c))
    | None => (c, JsMap.get key (cache c))
    end.

(** [cleanupExpiredCache] (lines 728-737). *)
Definition cleanupExpiredCache (now : Z) (c : Cache) : Cache :=
  fold_left
    (fun (acc : Cache) (entry : string * Metadata) =>
       if timestamp (snd entry) + ttl (snd entry) <? now
       then mkCache (JsMap.delete (fst entry) (cache acc))
                    (JsMap.delete (fst entry) (cacheMetadata acc))
       else acc)
    (cacheMetadata c) c.

(** A series of [updateCache] calls, each with its key, its value and
    the two readings of the clock. *)
Definition updateAll (cfg : Config) (writes : list (string * Value * Z * Z))
           (c : Cache) : Cache :=
  fold_left
    (fun (acc : Cache) (w : string * Value * Z * Z) =>
       let '(key, data, now, evictNow) := w in
       updateCache cfg key data None now evictNow acc)
    writes c.

(** The two maps hold the same keys in the same order, each key once,
    and no key is the empty string. *)
Definition wellFormed (c : Cache) : Prop :=
  JsMap.keys (cache c) = JsMap.keys (cacheMetadata c) /\
  List.NoDup (JsMap.keys (cache c)) /\
  Forall (fun key => key <> EmptyString) (JsMap.keys (cache c)).

(** No entry was accessed after time [t]. *)
Definition accessedBy (t : Z) (c : Cache) : Prop :=
  Forall (fun entry : string * Metadata => lastAccess (snd entry) <= t)
         (cacheMetadata c).

(** The clock moves on between the writes: every write reads a time after
    [t] and after the previous write, and the reading inside
    [evictOldestCacheEntry] is not before the reading of the write. *)
Fixpoint clockAdvances (t : Z) (writes : list (string * Value * Z * Z)) : Prop :=
  match writes with
  | [] => True
  | (key, _, now, evictNow) :: rest =>
      key <> EmptyString /\ t < now /\ now <= evictNow /\ clockAdvances now rest
  end.

(** What [handleKeyChange] (lines 633-643) does to the cache for a change
    of [key]: [watched] tells whether [this.watchers] holds the key,
    [data] is the new document ([None] stands for [null]) and [deleted]
    tells whether [meta.changeType] is 'deleted'. The callbacks
    (lines 645-651) do not touch the cache. *)
Definition handleKeyChange (cfg : Config) (watched : bool) (key : string)
           (data : option Value) (deleted : bool) (now evictNow : Z) (c : Cache)
  : Cache :=
  if negb watched then c
  else
    match enableCache cfg, data with
    | true, Some document => updateCache cfg key document None now evictNow c
    | _, _ =>
        if deleted then mkCache (JsMap.delete key (cache c)) (cacheMetadata c)
        else c
    end.

(** What [delete] (lines 874-892) does to the cache once [deleteData]
    has resolved (lines 881-884). *)
Definition deleteCached (cfg : Config) (key : string) (c : Cache) : Cache :=
  if enableCache cfg
  then mkCache (JsMap.delete key (cache c)) (JsMap.delete key (cacheMetadata c))
  else c.

End WithValues.
Arguments Cache : clear implicits.

(** ** Concrete caches *)

(** The smallest [cacheSize] that [validateConfig] accepts (line 143). *)
Definition smallConfig : Config := mkConfig true 100 300.

(** The key of the i-th write of a batch. *)
Definition batchKey (i : nat) : string := "item-" +:+ JsString.ofNat i.

(** [n] writes to distinct keys, all within the millisecond [now]. *)
Definition burst (n : nat) (now : Z) : list (string * nat * Z * Z) :=
  List.map (fun i => (batchKey i, i, now, now)) (seq 0 n).

(** The scenario of the specification: capacity 2, writes to "a" and
    "b", a read of "a", a write to "c", at times 10, 20, 30 and 40. *)
Definition tinyConfig : Config := mkConfig true 2 300.

Definition scenarioCache : Cache nat :=
  let c1 := updateCache tinyConfig "a" 1%nat None 10 10 emptyCache in
  let c2 := updateCache tinyConfig "b" 2%nat None 20 20 c1 in
  let c3 := fst (getFromCache "a" 30 c2) in
  updateCache tinyConfig "c" 3%nat None 40 40 c3.

(** A cache of capacity 2 that is full: "a" written at time 10 and "b"
    at time 20. *)
Definition fullCache : Cache nat :=
  updateCache tinyConfig "b" 2%nat None 20 20
              (updateCache tinyConfig "a" 1%nat None 10 10 emptyCache).

(** Writes to "x", "y" and "z" one second apart, starting at time 1000. *)
Definition spacedWrites : list (string * nat * Z * Z) :=
  [("x", 1%nat, 1000, 1000); ("y", 2%nat, 2000, 2000); ("z", 3%nat, 3000, 3001)].

End StreamCache.

(** ** The configuration of [UltimateRealtimeStreamPackage]
    ([src/unnamed/part_003])

    The object passed to [init], with the fields that [validateConfig]
    and the cache read. A missing field is [None]; the numbers are whole
    numbers. *)
Module StreamInit.
Import JsString JsTruthy.

Record RawConfig := mkRawConfig {
  dbType : option string;
  host : option string;
  user : option string;
  password : option string;
  database : option string;
  maxConnections : option Z;
  cacheSize : option Z;
  cacheTTL : option Z;
  enableCache : option bool
}.

(** The errors that [validateConfig] throws, in the order of its checks
    (lines 131, 135, 140 and 144). *)
Inductive ConfigError :=
| InvalidDbType
| MissingRequiredFields
| MaxConnectionsOutOfRange
| CacheSizeOutOfRange.

(** A string field is truthy: present and not empty. *)
Definition truthyString (s : option string) : bool :=
  match truthyKey s with Some _ => true | None => false end.

(** [dbType && ['mongodb', 'mysql'].includes(dbType.toLowerCase())]. *)
Definition knownDbType (s : option string) : bool :=
  match truthyKey s with
  | Some name =>
      String.eqb (toLowerCase name) "mongodb" || String.eqb (toLowerCase name) "mysql"
  | None => false
  end.

(** [n && (n < lo || n > hi)]. *)
Definition outside (lo hi : Z) (n : option Z) : bool :=
  match n with
  | Some x => negb (x =? 0) && ((x <? lo) || (hi <? x))
  | None => false
  end.

(** [validateConfig] (lines 127-146); [None] when nothing is thrown. *)
Definition validateConfig (config : RawConfig) : option ConfigError :=
  if negb (knownDbType (dbType config)) then Some InvalidDbType
  else if negb (truthyString (host config)) || negb (truthyString (user config))
          || negb (truthyString (password config))
          || negb (truthyString (database config))
  then Some MissingRequiredFields
  else if outside 1 1000 (maxConnections config) then Some MaxConnectionsOutOfRange
  else if outside 100 100000 (cacheSize config) then Some CacheSizeOutOfRange
  else None.

(** The cache settings that [init] stores in [this.config]
    (lines 75, 79 and 80). *)
Definition cacheConfig (config : RawConfig) : StreamCache.Config :=
  StreamCache.mkConfig
    (match enableCache config with Some false => false | _ => true end)
    (Z.to_nat (orElse (cacheSize config) 10000))
    (orElse (cacheTTL config) 300).

(** [this.config.maxConnections] (line 78). *)
Definition poolSize (config : RawConfig) : Z := orElse (maxConnections config) 50.

(** The configuration steps of [init] (lines 67-83): validation, then
    the defaults. *)
Definition initConfig (config : RawConfig) : ConfigError + StreamCache.Config :=
  match validateConfig config with
  | Some error => inl error
  | None => inr (cacheConfig config)
  end.

(** A configuration that names the required fields only. *)
Definition minimalConfig : RawConfig :=
  mkRawConfig (Some "MongoDB") (Some "localhost") (Some "app") (Some "secret")
              (Some "streams") None None None None.

End StreamInit.

(** ** The poller and the listener registry ([src/lib/heartbeatSystem.js])

    The two maps are finite maps and the callbacks of a key a finite set.
    Callbacks only observe.

    The reads of a poll are asynchronous: [checkKeyForChanges] awaits
    [readData] (line 158) and [startPolling] does not await [poll]
    (line 102), so a call returns while its reads are in flight. The
    functions named after the methods take a call together with the
    settling of the reads it starts, each read settling as soon as it
    is issued and before the next call is made. The last part of the
    module takes the two apart: there calls and the settling of reads
    are separate events that come in any order. *)
Module HeartbeatSystem.
Import JsTruthy.

Inductive ChangeType := created | updated | deleted.

Section WithValues.
(** The stored payloads, and what [JSON.stringify] prints for them. *)
Context {Value : Type} (stringify : Value -> string).

(** What [readData] resolves to for a stored key, and what
    [this.cache] keeps of it (lines 175-178): the payload and
    [lastModified] as [new Date(...).getTime()] reads it ([None] when
    the field is missing or is not a date). *)
Record Snapshot := mkSnapshot {
  data : Value;
  lastModified : option Z
}.

(** One call of [dbConnector.readData(key)]: it throws, or resolves to
    the stored document, or to [null]. *)
Inductive ReadOutcome :=
| ReadFails (msg : string)
| ReadOk (doc : option Snapshot).

(** The storage collaborator and the clock, as one call sees them. *)
Record Db := mkDb {
  isConnected : bool;
  readData : string -> ReadOutcome;
  dateNow : Z
}.

(** The fields of the object (lines 6-15). Callbacks are known by a
    number; [intervalId] is the period of the armed interval timer. *)
Record State := mkState {
  pollingInterval : Z;
  isPolling : bool;
  intervalId : option Z;
  cache : gmap string Snapshot;
  listeners : gmap string (gset nat);
  lastPollTime : option Z
}.

(** What a call does to the outside. *)
Inductive Effect :=
| ReadData (key : string)
| Notify (key : string) (payload : option Value) (changeType : ChangeType)
         (callbacks : gset nat)
| SetInterval (ms : Z)
| ClearInterval.

(** The state after a call, what it did, and the error it threw. *)
Definition Outcome : Type := State * list Effect * option string.

(** The constructor (lines 4-18); [config.pollingInterval || 2000]. *)
Definition newSystem (configured : option Z) : State :=
  mkState (orElse configured 2000) false None ∅ ∅ None.

Definition setCache (c : gmap string Snapshot) (s : State) : State :=
  mkState (pollingInterval s) (isPolling s) (intervalId s) c
          (listeners s) (lastPollTime s).

Definition setListeners (l : gmap string (gset nat)) (s : State) : State :=
  mkState (pollingInterval s) (isPolling s) (intervalId s) (cache s)
          l (lastPollTime s).

(** [stopPolling] (lines 106-119). *)
Definition stopPolling (s : State) : State * list Effect :=
  if negb (isPolling s) then (s, [])
  else
    match intervalId s with
    | Some _ =>
        (mkState (pollingInterval s) false None (cache s) (listeners s)
                 (lastPollTime s), [ClearInterval])
    | None =>
        (mkState (pollingInterval s) false None (cache s) (listeners s)
                 (lastPollTime s), [])
    end.

(** [hasDataChanged] (lines 198-215), both arguments being objects. *)
Definition hasDataChanged (cachedData currentData : Snapshot) : bool :=
  match lastModified cachedData, lastModified currentData with
  | Some cachedTime, Some currentTime =>
      if cachedTime <? currentTime then true
      else negb (String.eqb (stringify (data cachedData))
                            (stringify (data currentData)))
  | _, _ =>
      negb (String.eqb (stringify (data cachedData))
                       (stringify (data currentData)))
  end.

(** [notifyListeners] (lines 218-237): every callback of the key is
    called once. *)
Definition notifyListeners (key : string) (payload : option Value)
           (changeType : ChangeType) (s : State) : list Effect :=
  match listeners s !! key with
  | Some callbacks =>
      if bool_decide (size callbacks = 0%nat) then []
      else [Notify key payload changeType callbacks]
  | None => []
  end.

(** [checkKeyForChanges] (lines 156-195) with a read that settles at
    once with [readData db key]; an error of [readData] is caught and
    logged. The part after the [await] alone is [onReadSettled]. *)
Definition checkKeyForChanges (db : Db) (key : string) (s : State)
  : State * list Effect :=
  match readData db key with
  | ReadFails _ => (s, [ReadData key])
  | ReadOk currentData =>
      match currentData, cache s !! key with
      | None, None => (s, [ReadData key])
      | None, Some _ =>
          (setCache (delete key (cache s)) s,
           ReadData key :: notifyListeners key None deleted s)
      | Some current, None =>
          (setCache (<[key := mkSnapshot (data current) (lastModified current)]>
                       (cache s)) s,
           ReadData key :: notifyListeners key (Some (data current)) created s)
      | Some current, Some cachedData =>
          if hasDataChanged cachedData current then
            (setCache (<[key := mkSnapshot (data current) (lastModified current)]>
                         (cache s)) s,
             ReadData key :: notifyListeners key (Some (data current)) updated s)
          else (s, [ReadData key])
      end
  end.

(** The keys of line 143, checked one after the other, each read
    settling at once. *)
Fixpoint checkKeys (db : Db) (keysToCheck : list string) (s : State)
  : State * list Effect :=
  match keysToCheck with
  | [] => (s, [])
  | key :: rest =>
      let '(s1, effects1) := checkKeyForChanges db key s in
      let '(s2, effects2) := checkKeys db rest s1 in
      (s2, effects1 ++ effects2)
  end.

(** [Array.from(this.listeners.keys())]. *)
Definition watchedKeys (s : State) : list string :=
  elements (dom (listeners s)).

(** [poll] (lines 122-153), with reads that settle at once; [pollWith]
    below leaves open how the checks proceed. *)
Definition poll (db : Db) (s : State) : State * list Effect :=
  if negb (isConnected db) then stopPolling s
  else
    let s1 := mkState (pollingInterval s) (isPolling s) (intervalId s)
                      (cache s) (listeners s) (Some (dateNow db)) in
    let keysToCheck := watchedKeys s1 in
    match keysToCheck with
    | [] => stopPolling s1
    | _ => checkKeys db keysToCheck s1
    end.

(** [startPolling] (lines 85-103). *)
Definition startPolling (db : Db) (s : State) : Outcome :=
  if isPolling s then (s, [], None)
  else if negb (isConnected db) then (s, [], Some "Database not connected")
  else
    let s1 := mkState (pollingInterval s) true (Some (pollingInterval s))
                      (cache s) (listeners s) (lastPollTime s) in
    let '(s2, effects) := poll db s1 in
    (s2, SetInterval (pollingInterval s) :: effects, None).

(** The interval timer fires (lines 97-99); a cleared timer does not. *)
Definition timerFires (db : Db) (s : State) : State * list Effect :=
  match intervalId s with
  | Some _ => poll db s
  | None => (s, [])
  end.

(** [addListener] (lines 27-46), for a [callback] that is a function. *)
Definition addListener (db : Db) (key : string) (callback : nat) (s : State)
  : Outcome :=
  let existing := default ∅ (listeners s !! key) in
  let s1 := setListeners (<[key := existing ∪ {[callback]}]> (listeners s)) s in
  if negb (isPolling s1) then startPolling db s1 else (s1, [], None).

(** [removeListener] (lines 49-65). *)
Definition removeListener (key : string) (callback : nat) (s : State)
  : State * list Effect :=
  let s1 :=
    match listeners s !! key with
    | Some callbacks =>
        let remaining := callbacks ∖ {[callback]} in
        if bool_decide (size remaining = 0%nat)
        then setCache (delete key (cache s))
                      (setListeners (delete key (listeners s)) s)
        else setListeners (<[key := remaining]> (listeners s)) s
    | None => s
    end in
  if bool_decide (size (listeners s1) = 0%nat) then stopPolling s1 else (s1, []).

(** The function that [addListener] returns (line 45). *)
Definition unsubscribe (key : string) (callback : nat) (s : State)
  : State * list Effect :=
  removeListener key callback s.

(** [removeAllListeners] (lines 68-82); [if (key)] fails for a missing
    key and for the empty string. *)
Definition removeAllListeners (key : option string) (s : State)
  : State * list Effect :=
  let s1 :=
    match truthyKey key with
    | Some k => setCache (delete k (cache s))
                         (setListeners (delete k (listeners s)) s)
    | None => setCache ∅ (setListeners ∅ s)
    end in
  if bool_decide (size (listeners s1) = 0%nat) then stopPolling s1 else (s1, []).

(** [setPollingInterval] (lines 240-253), for a numeric argument. *)
Definition setPollingInterval (db : Db) (interval : Z) (s : State) : Outcome :=
  if interval <? 100 then
    (s, [], Some "Polling interval must be a number >= 100ms")
  else
    let s1 := mkState interval (isPolling s) (intervalId s) (cache s)
                      (listeners s) (lastPollTime s) in
    if isPolling s1 then
      let '(s2, effects) := stopPolling s1 in
      let '(s3, effects', thrown) := startPolling db s2 in
      (s3, effects ++ effects', thrown)
    else (s1, [], None).

(** [getStatus] (lines 256-265). *)
Record Status := mkStatus {
  statusIsPolling : bool;
  statusPollingInterval : Z;
  listenerCount : nat;
  statusCacheSize : nat;
  statusLastPollTime : option Z;
  statusWatchedKeys : list string
}.

Definition getStatus (s : State) : Status :=
  mkStatus (isPolling s) (pollingInterval s) (size (listeners s))
           (size (cache s)) (lastPollTime s) (watchedKeys s).

(** [destroy] (lines 268-273). *)
Definition destroy (s : State) : State * list Effect :=
  let '(s1, e1) := stopPolling s in
  let '(s2, e2) := removeAllListeners None s1 in
  let '(s3, e3) := removeAllListeners None s2 in
  (s3, e1 ++ e2 ++ e3).

(** The calls a client makes, and the timer. *)
Inductive Call :=
| CallAddListener (key : string) (callback : nat)
| CallRemoveListener (key : string) (callback : nat)
| CallRemoveAllListeners (key : option string)
| CallSetPollingInterval (interval : Z)
| CallStartPolling
| CallStopPolling
| CallDestroy
| TimerFires.

Definition step (db : Db) (call : Call) (s : State) : State * list Effect :=
  match call with
  | CallAddListener key callback => fst (addListener db key callback s)
  | CallRemoveListener key callback => removeListener key callback s
  | CallRemoveAllListeners key => removeAllListeners key s
  | CallSetPollingInterval interval => fst (setPollingInterval db interval s)
  | CallStartPolling => fst (startPolling db s)
  | CallStopPolling => stopPolling s
  | CallDestroy => destroy s
  | TimerFires => timerFires db s
  end.

(** A history: each call with the storage and the clock it meets. *)
Fixpoint run (history : list (Db * Call)) (s : State) : State * list Effect :=
  match history with
  | [] => (s, [])
  | (db, call) :: rest =>
      let '(s1, effects1) := step db call s in
      let '(s2, effects2) := run rest s1 in
      (s2, effects1 ++ effects2)
  end.

(** [callback] is registered for [key]. *)
Definition registered (s : State) (key : string) (callback : nat) : Prop :=
  exists callbacks, listeners s !! key = Some callbacks /\ callback ∈ callbacks.

(** The keys that a list of effects reads, in order. *)
Fixpoint readKeys (effects : list Effect) : list string :=
  match effects with
  | [] => []
  | ReadData key :: rest => key :: readKeys rest
  | _ :: rest => readKeys rest
  end.

Definition isNotify (e : Effect) : bool :=
  match e with Notify _ _ _ _ => true | _ => false end.

Definition notifiesAs (changeType : ChangeType) (e : Effect) : bool :=
  match e with
  | Notify _ _ ct _ =>
      match ct, changeType with
      | created, created | updated, updated | deleted, deleted => true
      | _, _ => false
      end
  | _ => false
  end.

(** The call is a subscription to [key]. *)
Definition subscribesTo (key : string) (call : Call) : Prop :=
  match call with CallAddListener k _ => k = key | _ => False end.

(** How a call changes [this.listeners], whatever the polling does. *)
Definition listenersAfter (call : Call) (l : gmap string (gset nat))
  : gmap string (gset nat) :=
  match call with
  | CallAddListener key callback =>
      <[key := default ∅ (l !! key) ∪ {[callback]}]> l
  | CallRemoveListener key callback =>
      match l !! key with
      | Some callbacks =>
          if bool_decide (size (callbacks ∖ {[callback]}) = 0%nat)
          then delete key l
          else <[key := callbacks ∖ {[callback]}]> l
      | None => l
      end
  | CallRemoveAllListeners key =>
      match truthyKey key with
      | Some k => delete k l
      | None => ∅
      end
  | CallDestroy => ∅
  | _ => l
  end.

(** Every key of [this.listeners] has at least one callback. *)
Definition watchersHaveCallbacks (l : gmap string (gset nat)) : Prop :=
  forall key callbacks, l !! key = Some callbacks -> callbacks <> ∅.

(** [n] firings of the timer, each meeting the storage [db]. *)
Definition ticks (db : Db) (n : nat) : list (Db * Call) :=
  List.repeat (db, TimerFires) n.

(** Some firing of the timer reads a key again while the storage is
    [db]. *)
Definition resumesWhenReconnected (db : Db) (s : State) : Prop :=
  exists n, readKeys (snd (run (ticks db n) s)) <> [].

(** The timer is armed exactly while the system polls, and with the
    current period; a polling system has a listener; the cache holds
    watched keys only. *)
Definition coherent (s : State) : Prop :=
  intervalId s = (if isPolling s then Some (pollingInterval s) else None) /\
  (isPolling s = true -> listeners s <> ∅) /\
  (forall key, is_Some (cache s !! key) -> is_Some (listeners s !! key)).

(** The effect is a read or a notification of [key]. *)
Definition concerns (key : string) (e : Effect) : bool :=
  match e with
  | ReadData k | Notify k _ _ _ => String.eqb k key
  | _ => false
  end.

(** *** Reads in flight

    A call returns as soon as the reads of its poll are issued; each of
    them settles later, at any time, with whatever the storage answers
    then, and other calls can be made in between. *)

(** What [checkKeyForChanges] does once its read has settled
    (lines 159-194), in the state of that moment: [this.cache] is read
    after the [await], and the listeners are not looked at before the
    cache is written. *)
Definition onReadSettled (outcome : ReadOutcome) (key : string) (s : State)
  : State * list Effect :=
  match outcome with
  | ReadFails _ => (s, [])
  | ReadOk currentData =>
      match currentData, cache s !! key with
      | None, None => (s, [])
      | None, Some _ =>
          (setCache (delete key (cache s)) s, notifyListeners key None deleted s)
      | Some current, None =>
          (setCache (<[key := mkSnapshot (data current) (lastModified current)]>
                       (cache s)) s,
           notifyListeners key (Some (data current)) created s)
      | Some current, Some cachedData =>
          if hasDataChanged cachedData current then
            (setCache (<[key := mkSnapshot (data current) (lastModified current)]>
                         (cache s)) s,
             notifyListeners key (Some (data current)) updated s)
          else (s, [])
      end
  end.

Section Checks.
(** How the checks that a poll starts (line 143) proceed. *)
Variable checks : Db -> list string -> State -> State * list Effect.

(** [poll] (lines 122-153). *)
Definition pollWith (db : Db) (s : State) : State * list Effect :=
  if negb (isConnected db) then stopPolling s
  else
    let s1 := mkState (pollingInterval s) (isPolling s) (intervalId s)
                      (cache s) (listeners s) (Some (dateNow db)) in
    let keysToCheck := watchedKeys s1 in
    match keysToCheck with
    | [] => stopPolling s1
    | _ => checks db keysToCheck s1
    end.

(** [startPolling] (lines 85-103). *)
Definition startPollingWith (db : Db) (s : State) : Outcome :=
  if isPolling s then (s, [], None)
  else if negb (isConnected db) then (s, [], Some "Database not connected")
  else
    let s1 := mkState (pollingInterval s) true (Some (pollingInterval s))
                      (cache s) (listeners s) (lastPollTime s) in
    let '(s2, effects) := pollWith db s1 in
    (s2, SetInterval (pollingInterval s) :: effects, None).

(** The interval timer fires (lines 97-99). *)
Definition timerFiresWith (db : Db) (s : State) : State * list Effect :=
  match intervalId s with
  | Some _ => pollWith db s
  | None => (s, [])
  end.

(** [addListener] (lines 27-46). *)
Definition addListenerWith (db : Db) (key : string) (callback : nat) (s : State)
  : Outcome :=
  let existing := default ∅ (listeners s !! key) in
  let s1 := setListeners (<[key := existing ∪ {[callback]}]> (listeners s)) s in
  if negb (isPolling s1) then startPollingWith db s1 else (s1, [], None).

(** [setPollingInterval] (lines 240-253). *)
Definition setPollingIntervalWith (db : Db) (interval : Z) (s : State) : Outcome :=
  if interval <? 100 then
    (s, [], Some "Polling interval must be a number >= 100ms")
  else
    let s1 := mkState interval (isPolling s) (intervalId s) (cache s)
                      (listeners s) (lastPollTime s) in
    if isPolling s1 then
      let '(s2, effects) := stopPolling s1 in
      let '(s3, effects', thrown) := startPollingWith db s2 in
      (s3, effects ++ effects', thrown)
    else (s1, [], None).

Definition stepWith (db : Db) (call : Call) (s : State) : State * list Effect :=
  match call with
  | CallAddListener key callback => fst (addListenerWith db key callback s)
  | CallRemoveListener key callback => removeListener key callback s
  | CallRemoveAllListeners key => removeAllListeners key s
  | CallSetPollingInterval interval => fst (setPollingIntervalWith db interval s)
  | CallStartPolling => fst (startPollingWith db s)
  | CallStopPolling => stopPolling s
  | CallDestroy => destroy s
  | TimerFires => timerFiresWith db s
  end.

End Checks.

(** The checks of a poll up to their [await] (lines 143 and 158): the
    reads are issued, in the order of the keys. *)
Definition issueReads (db : Db) (keysToCheck : list string) (s : State)
  : State * list Effect :=
  (s, List.map ReadData keysToCheck).

(** The poller and the keys of the reads that are in flight. *)
Record World := mkWorld {
  system : State;
  inFlight : list string
}.

(** A call is made (the storage is [db] while it runs), or a read that
    is in flight settles. *)
Inductive Happening :=
| Called (db : Db) (call : Call)
| Settled (key : string) (outcome : ReadOutcome).

Fixpoint removeOne (key : string) (keysInFlight : list string) : list string :=
  match keysInFlight with
  | [] => []
  | k :: rest => if String.eqb k key then rest else k :: removeOne key rest
  end.

(** One happening. A call runs up to the point where its reads are
    issued; a read settles only if it is in flight. *)
Definition happens (h : Happening) (w : World) : World * list Effect :=
  match h with
  | Called db call =>
      let '(s', effects) := stepWith issueReads db call (system w) in
      (mkWorld s' (inFlight w ++ readKeys effects), effects)
  | Settled key outcome =>
      if bool_decide (key ∈ inFlight w) then
        let '(s', effects) := onReadSettled outcome key (system w) in
        (mkWorld s' (removeOne key (inFlight w)), effects)
      else (w, [])
  end.

Fixpoint asyncRun (history : list Happening) (w : World) : World * list Effect :=
  match history with
  | [] => (w, [])
  | h :: rest =>
      let '(w1, effects1) := happens h w in
      let '(w2, effects2) := asyncRun rest w1 in
      (w2, effects1 ++ effects2)
  end.

(** The reads of a call settle at once, in the order in which they were
    issued, each with what [db] answers. *)
Definition settlingAtOnce (db : Db) (call : Call) (s : State) : list Happening :=
  Called db call
  :: List.map (fun key => Settled key (readData db key))
              (readKeys (snd (stepWith issueReads db call s))).

(** The timer is armed exactly while the system polls, and with the
    current period; a polling system has a listener. *)
Definition timerCoherent (s : State) : Prop :=
  intervalId s = (if isPolling s then Some (pollingInterval s) else None) /\
  (isPolling s = true -> listeners s <> ∅).

End WithValues.

Arguments Snapshot : clear implicits.
Arguments ReadOutcome : clear implicits.
Arguments Db : clear implicits.
Arguments State : clear implicits.
Arguments Effect : clear implicits.
Arguments Outcome : clear implicits.
Arguments Call : clear implicits.
Arguments World : clear implicits.
Arguments Happening : clear implicits.

(** ** A concrete system

    Payloads are strings that [JSON.stringify] prints as they are. One
    listener, 1, watches "orders". *)

Definition ordersUp : Db string :=
  mkDb true (fun _ => ReadOk (Some (mkSnapshot "new" (Some 1000)))) 5.

Definition ordersDown : Db string :=
  mkDb false (fun _ => ReadFails "MongoDB not connected") 2005.

(** After [addListener('orders', 1)] on a connected storage. *)
Definition watching : State string :=
  fst (fst (addListener id ordersUp "orders" 1 (newSystem None))).

(** After [addListener('orders', 1)] on a disconnected storage: the
    call throws, the listener is registered, nothing was polled. *)
Definition pending : State string :=
  fst (fst (addListener id ordersDown "orders" 1 (newSystem None))).

(** After the timer has fired once while the storage was disconnected. *)
Definition afterOutage : State string :=
  fst (timerFires id ordersDown watching).

(** A second key, "invoices", watched by listeners 2 and 3 beside
    "orders". *)
Definition watchingTwo : State string :=
  fst (fst (addListener id ordersUp "invoices" 3
              (fst (fst (addListener id ordersUp "invoices" 2 watching))))).

End HeartbeatSystem.

(** ** The package ([src/unnamed/part_001])

    [RealtimeStreamPackage] guards a [HeartbeatSystem]. An instance is
    either not initialised ([None]: [initialized] is false and
    [heartbeatSystem] is [null]) or initialised, with its poller. One
    call of the package runs at a time; the reads of the poller may be
    in flight meanwhile. *)
Module RealtimeStreamPackage.
Import JsTruthy.

(** The errors that the methods throw: 'Package already initialized.
    Call destroy() first to reinitialize.' (line 28), 'Configuration
    object is required' (line 32), 'Required fields: dbType, host, user,
    password, database' (line 39), the message about [dbType] (line 43),
    'Package not initialized. Call init() first.' (line 276), 'Key must
    be a non-empty string' (lines 87, 172), 'Callback must be a
    function' (line 91), and the errors of the connector and of the
    poller, which are passed on. *)
Inductive PackageError :=
| AlreadyInitialized
| ConfigurationRequired
| MissingRequiredFields
| InvalidDbType
| NotInitialized
| InvalidKey
| InvalidCallback
| PassedOn (msg : string).

(** The fields of the object passed to [init] that the method reads; a
    missing field is [None]. *)
Record InitConfig := mkInitConfig {
  dbType : option string;
  host : option string;
  user : option string;
  password : option string;
  database : option string;
  pollingInterval : option Z
}.

Section WithValues.
Context {Value : Type} (stringify : Value -> string).

Definition Package : Type := option (HeartbeatSystem.State Value).

Definition Result : Type :=
  Package * list (HeartbeatSystem.Effect Value) * option PackageError.

(** [init] (lines 26-75). [config] is [None] for an argument that is
    not an object, and [connectError] is the error that
    [dbConnector.connect] rejects with, if any. *)
Definition init (config : option InitConfig) (connectError : option string)
           (pkg : Package) : Package * option PackageError :=
  match pkg with
  | Some _ => (pkg, Some AlreadyInitialized)
  | None =>
      match config with
      | None => (None, Some ConfigurationRequired)
      | Some config =>
          if negb (StreamInit.truthyString (dbType config))
             || negb (StreamInit.truthyString (host config))
             || negb (StreamInit.truthyString (user config))
             || negb (StreamInit.truthyString (password config))
             || negb (StreamInit.truthyString (database config))
          then (None, Some MissingRequiredFields)
          else if negb (StreamInit.knownDbType (dbType config))
          then (None, Some InvalidDbType)
          else
            match connectError with
            | Some msg => (None, Some (PassedOn msg))
            | None =>
                (Some (HeartbeatSystem.newSystem
                         (Some (orElse (pollingInterval config) 2000))), None)
            end
      end
  end.

(** [on] (lines 83-95). [key] is [None] for an argument that is not a
    string, [callback] is [None] for one that is not a function. *)
Definition on (db : HeartbeatSystem.Db Value) (key : option string)
           (callback : option nat) (pkg : Package) : Result :=
  match pkg with
  | None => (pkg, [], Some NotInitialized)
  | Some s =>
      match truthyKey key with
      | None => (pkg, [], Some InvalidKey)
      | Some k =>
          match callback with
          | None => (pkg, [], Some InvalidCallback)
          | Some f =>
              let '(s', effects, thrown) :=
                HeartbeatSystem.addListener stringify db k f s in
              (Some s', effects, option_map PassedOn thrown)
          end
      end
  end.

(** [off] (lines 168-176). *)
Definition off (key : option string) (callback : nat) (pkg : Package) : Result :=
  match pkg with
  | None => (pkg, [], Some NotInitialized)
  | Some s =>
      match truthyKey key with
      | None => (pkg, [], Some InvalidKey)
      | Some k =>
          let '(s', effects) := HeartbeatSystem.removeListener k callback s in
          (Some s', effects, None)
      end
  end.

(** [removeAllListeners] (lines 182-185). *)
Definition removeAllListeners (key : option string) (pkg : Package) : Result :=
  match pkg with
  | None => (pkg, [], Some NotInitialized)
  | Some s =>
      let '(s', effects) := HeartbeatSystem.removeAllListeners key s in
      (Some s', effects, None)
  end.

(** [setPollingInterval] (lines 191-194), for a numeric argument. *)
Definition setPollingInterval (db : HeartbeatSystem.Db Value) (interval : Z)
           (pkg : Package) : Result :=
  match pkg with
  | None => (pkg, [], Some NotInitialized)
  | Some s =>
      let '(s', effects, thrown) :=
        HeartbeatSystem.setPollingInterval stringify db interval s in
      (Some s', effects, option_map PassedOn thrown)
  end.

(** [getStatus] (lines 200-211): the [heartbeat] field of the status,
    or [None] for [{ initialized: false }]. *)
Definition getStatus (pkg : Package) : option HeartbeatSystem.Status :=
  option_map HeartbeatSystem.getStatus pkg.

(** [destroy] (lines 231-257); an error of [disconnect] is caught. *)
Definition destroy (pkg : Package) : Result :=
  match pkg with
  | None => (None, [], None)
  | Some s =>
      let '(_, effects) := HeartbeatSystem.destroy s in
      (None, effects, None)
  end.

(** The calls of a client, and the timer of the poller. *)
Inductive Call :=
| CallInit (config : option InitConfig) (connectError : option string)
| CallOn (key : option string) (callback : option nat)
| CallOff (key : option string) (callback : nat)
| CallRemoveAllListeners (key : option string)
| CallSetPollingInterval (interval : Z)
| CallDestroy
| TimerFires.

Definition step (db : HeartbeatSystem.Db Value) (call : Call) (pkg : Package)
  : Result :=
  match call with
  | CallInit config connectError =>
      let '(pkg', thrown) := init config connectError pkg in (pkg', [], thrown)
  | CallOn key callback => on db key callback pkg
  | CallOff key callback => off key callback pkg
  | CallRemoveAllListeners key => removeAllListeners key pkg
  | CallSetPollingInterval interval => setPollingInterval db interval pkg
  | CallDestroy => destroy pkg
  | TimerFires =>
      match pkg with
      | Some s =>
          let '(s', effects) := HeartbeatSystem.timerFires stringify db s in
          (Some s', effects, None)
      | None => (None, [], None)
      end
  end.

(** The call of the poller that a call of the package comes down to
    once it has passed the checks of the package; [None] for [init],
    for [destroy], and for a call that throws before it reaches the
    poller. *)
Definition pollerCall (call : Call) : option HeartbeatSystem.Call :=
  match call with
  | CallOn key callback =>
      match truthyKey key, callback with
      | Some k, Some f => Some (HeartbeatSystem.CallAddListener k f)
      | _, _ => None
      end
  | CallOff key callback =>
      match truthyKey key with
      | Some k => Some (HeartbeatSystem.CallRemoveListener k callback)
      | None => None
      end
  | CallRemoveAllListeners key => Some (HeartbeatSystem.CallRemoveAllListeners key)
  | CallSetPollingInterval interval =>
      Some (HeartbeatSystem.CallSetPollingInterval interval)
  | TimerFires => Some HeartbeatSystem.TimerFires
  | CallInit _ _ | CallDestroy => None
  end.

(** A call of the package is made, or a read of its poller settles. *)
Inductive Event :=
| Calls (db : HeartbeatSystem.Db Value) (call : Call)
| Settles (key : string) (outcome : HeartbeatSystem.ReadOutcome Value).

(** The package with the reads of its poller that are in flight, after
    one event. A call returns when the reads of its poll are issued.
    [destroy] drops the poller: the reads that it has in flight settle
    in an object that the package no longer holds. *)
Definition occurs (event : Event) (pkg : option (HeartbeatSystem.World Value))
  : option (HeartbeatSystem.World Value) :=
  match event with
  | Calls db call =>
      match call, pkg with
      | CallInit config connectError, None =>
          option_map (fun s => HeartbeatSystem.mkWorld s [])
                     (fst (init config connectError None))
      | CallInit _ _, Some _ => pkg
      | CallDestroy, _ => None
      | _, None => None
      | _, Some w =>
          match pollerCall call with
          | Some c =>
              Some (fst (HeartbeatSystem.happens stringify
                           (HeartbeatSystem.Called db c) w))
          | None => pkg
          end
      end
  | Settles key outcome =>
      option_map
        (fun w => fst (HeartbeatSystem.happens stringify
                         (HeartbeatSystem.Settled key outcome) w))
        pkg
  end.

(** A history of events on a package; the package after it. *)
Fixpoint packageRun (history : list Event)
         (pkg : option (HeartbeatSystem.World Value))
  : option (HeartbeatSystem.World Value) :=
  match history with
  | [] => pkg
  | event :: rest => packageRun rest (occurs event pkg)
  end.

(** The timer of the poller of an initialised package is armed exactly
    while it polls, and the poller watches no empty key. *)
Definition wellKept (pkg : option (HeartbeatSystem.World Value)) : Prop :=
  match pkg with
  | Some w =>
      HeartbeatSystem.timerCoherent (HeartbeatSystem.system w) /\
      forall key,
        is_Some (HeartbeatSystem.listeners (HeartbeatSystem.system w) !! key) ->
        key <> EmptyString
  | None => True
  end.

End WithValues.

(** A configuration with a polling interval of 50 ms. *)
Definition hastyConfig : InitConfig :=
  mkInitConfig (Some "mysql") (Some "localhost") (Some "app") (Some "secret")
               (Some "streams") (Some 50).

(** [init(hastyConfig)], [on('orders', 1)] and [on('invoices', 2)] on a
    connected storage: the read of "orders" is in flight, and
    "invoices" is first read when the timer fires. *)
Definition hastyHistory : list (Event (Value := string)) :=
  [Calls HeartbeatSystem.ordersUp (CallInit (Some hastyConfig) None);
   Calls HeartbeatSystem.ordersUp (CallOn (Some "orders") (Some 1%nat));
   Calls HeartbeatSystem.ordersUp (CallOn (Some "invoices") (Some 2%nat))].

End RealtimeStreamPackage.
(* ===================================================================== *)
(** * Part II: lemmas and theorems *)
(* ===================================================================== *)

(** ** The resilient executor *)
Module EdgeCaseHandlerProofs.
Import JsString EdgeCaseHandler.

Example classify_circuit_rejection :
  classifyError (message circuitOpenError) = UNKNOWN_ERROR.
Proof. vm_compute. reflexivity. Qed.

Example classify_race_timer :
  classifyError (message (timeoutError defaultConfig)) = TIMEOUT_ERROR.
Proof. vm_compute. reflexivity. Qed.

Example classify_refused :
  classifyError "connect ECONNREFUSED 127.0.0.1:27017" = CONNECTION_ERROR.
Proof. vm_compute. reflexivity. Qed.

Example backoff_third_attempt :
  fst (calculateBackoffDelay defaultConfig healthyEnv 3 (newHandler 0)) = 4000.
Proof. reflexivity. Qed.

Section Generic.
Context {Value : Type}.
Implicit Types (cfg : Config) (env : Env Value) (m : Machine) (ctx : Context).

(** *** Unfolding equations *)

Lemma execute_unfold fuel cfg env m ctx :
  executeWithErrorHandling (S fuel) cfg env m ctx =
  match tryOperation cfg env m with
  | (m1, inl v) => (m1, Returned v)
  | (m1, inr e) =>
      handleOperationFailure (executeWithErrorHandling fuel cfg env) cfg env e ctx m1
  end.
Proof. reflexivity. Qed.

(** *** The circuit check *)

Lemma check_open_rejects cfg m :
  circuitBreakerState m = OPEN ->
  clock m - lastFailureTime m <= circuitBreakerTimeout cfg ->
  checkCircuitBreaker cfg m = inr circuitOpenError.
Proof.
  intros Hopen Hwithin. unfold checkCircuitBreaker. rewrite Hopen.
  destruct (Z.ltb_spec (circuitBreakerTimeout cfg) (clock m - lastFailureTime m));
    [lia | reflexivity].
Qed.

Lemma check_not_open cfg m :
  circuitBreakerState m <> OPEN -> checkCircuitBreaker cfg m = inl m.
Proof.
  intros Hne. unfold checkCircuitBreaker.
  destruct (circuitBreakerState m); congruence.
Qed.

Lemma try_open_rejects cfg env m :
  circuitBreakerState m = OPEN ->
  clock m - lastFailureTime m <= circuitBreakerTimeout cfg ->
  tryOperation cfg env m = (m, inr circuitOpenError).
Proof.
  intros Hopen Hwithin. unfold tryOperation.
  now rewrite check_open_rejects.
Qed.

(** *** The failure bookkeeping *)

Lemma recordFailure_failureCount cfg e ctx m :
  failureCount (recordFailure cfg e ctx m) = S (failureCount m).
Proof. unfold recordFailure. cbn. destruct (_ <=? _)%nat; reflexivity. Qed.

Lemma recordFailure_lastFailureTime cfg e ctx m :
  lastFailureTime (recordFailure cfg e ctx m) = clock m.
Proof. unfold recordFailure. cbn. destruct (_ <=? _)%nat; reflexivity. Qed.

Lemma recordFailure_clock cfg e ctx m :
  clock (recordFailure cfg e ctx m) = clock m.
Proof. unfold recordFailure. cbn. destruct (_ <=? _)%nat; reflexivity. Qed.

Lemma recordFailure_invocations cfg e ctx m :
  invocations (recordFailure cfg e ctx m) = invocations m.
Proof. unfold recordFailure. cbn. destruct (_ <=? _)%nat; reflexivity. Qed.

Lemma recordFailure_breaker cfg e ctx m :
  circuitBreakerState (recordFailure cfg e ctx m) =
  if (circuitBreakerThreshold cfg <=? S (failureCount m))%nat
  then OPEN else circuitBreakerState m.
Proof. unfold recordFailure. cbn. destruct (_ <=? _)%nat; reflexivity. Qed.

Lemma recordFailure_stays_open cfg e ctx m :
  circuitBreakerState m = OPEN ->
  circuitBreakerState (recordFailure cfg e ctx m) = OPEN.
Proof.
  intros Hopen. rewrite recordFailure_breaker, Hopen.
  now destruct (_ <=? _)%nat.
Qed.

(** *** The model always produces a completion *)

Lemma half_le_max_3 n : (n / 2 <= Nat.max n 3)%nat.
Proof.
  pose proof (Nat.Div0.div_le_upper_bound n 2 n). lia.
Qed.

Lemma dispatch_completes retry cfg env e ctx m :
  ((S (retryAttempt ctx) <= Nat.max (maxRetries cfg) 3)%nat ->
   forall m' t, snd (retry m' (mkContext (S (retryAttempt ctx)) t)) <> OutOfFuel) ->
  snd (dispatchFailure retry cfg env e ctx m) <> OutOfFuel.
Proof.
  intros Hretry. pose proof (half_le_max_3 (maxRetries cfg)) as Hhalf.
  unfold dispatchFailure.
  destruct (classifyError (message e)); cbn [snd];
    unfold handleConnectionError, handleTimeoutError, handleResourceError,
      handleAuthError, handleRateLimitError, handleDataCorruptionError,
      handleNetworkError, handleGenericError, calculateBackoffDelay;
    try discriminate;
    match goal with
    | |- context [(?a <? ?b)%nat] =>
        destruct (Nat.ltb_spec a b); cbn [snd]; [discriminate | apply Hretry; lia]
    end.
Qed.

Lemma execute_completes_with fuel cfg env :
  forall m ctx,
    (0 < fuel)%nat ->
    (Nat.max (maxRetries cfg) 3 < fuel + retryAttempt ctx)%nat ->
    snd (executeWithErrorHandling fuel cfg env m ctx) <> OutOfFuel.
Proof.
  induction fuel as [|fuel IH]; intros m ctx Hpos Hfuel; [lia |].
  rewrite execute_unfold.
  destruct (tryOperation cfg env m) as [m1 [v | e]]; [discriminate |].
  unfold handleOperationFailure. apply dispatch_completes.
  intros Hle m' t. apply IH; cbn [retryAttempt]; lia.
Qed.

Lemma execute_completes cfg env m ctx :
  snd (execute cfg env m ctx) <> OutOfFuel.
Proof.
  unfold execute, enoughFuel. apply execute_completes_with; lia.
Qed.

(** *** [context.timeout] is never read *)

Lemma dispatch_ignores_timeout retry1 retry2 cfg env e ctx t m :
  (forall m' a t1 t2, retry1 m' (mkContext a t1) = retry2 m' (mkContext a t2)) ->
  dispatchFailure retry1 cfg env e (mkContext (retryAttempt ctx) t) m =
  dispatchFailure retry2 cfg env e ctx m.
Proof.
  intros Hretry. unfold dispatchFailure.
  destruct (classifyError (message e)); try reflexivity;
    unfold handleConnectionError, handleTimeoutError, handleResourceError,
      handleAuthError, handleRateLimitError, handleNetworkError,
      handleGenericError, calculateBackoffDelay; cbn [retryAttempt timeout];
    match goal with
    | |- context [(?a <? ?b)%nat] => destruct (a <? b)%nat
    end; try reflexivity; apply Hretry.
Qed.

Lemma execute_ignores_timeout fuel cfg env :
  forall m a t1 t2,
    executeWithErrorHandling fuel cfg env m (mkContext a t1) =
    executeWithErrorHandling fuel cfg env m (mkContext a t2).
Proof.
  induction fuel as [|fuel IH]; intros m a t1 t2; [reflexivity |].
  rewrite !execute_unfold.
  destruct (tryOperation cfg env m) as [m1 [v | e]]; [reflexivity |].
  unfold handleOperationFailure.
  replace (recordFailure cfg e (mkContext a t1) m1)
    with (recordFailure cfg e (mkContext a t2) m1) by reflexivity.
  apply (dispatch_ignores_timeout _ _ cfg env e (mkContext a t2) t1).
  exact IH.
Qed.

(** *** A call that finds the breaker open *)

Lemma backoff_within cfg env attempt m :
  retriesArriveWithinTimeout cfg env ->
  Z.max 0 (fst (calculateBackoffDelay cfg env attempt m))
  <= circuitBreakerTimeout cfg.
Proof.
  intros [Hpos Hall]. unfold calculateBackoffDelay. cbn [fst].
  specialize (Hall attempt (draws m)). lia.
Qed.

Lemma cap_within cfg env :
  30000 <= circuitBreakerTimeout cfg -> retriesArriveWithinTimeout cfg env.
Proof. intros Hcap. split; [lia |]. intros attempt k. lia. Qed.


Lemma rejected_call fuel cfg env :
  retriesArriveWithinTimeout cfg env ->
  forall m ctx,
    circuitBreakerState m = OPEN ->
    clock m - lastFailureTime m <= circuitBreakerTimeout cfg ->
    let r := executeWithErrorHandling fuel cfg env m ctx in
    circuitBreakerState (fst r) = OPEN /\
    invocations (fst r) = invocations m /\
    clock (fst r) - lastFailureTime (fst r) <= circuitBreakerTimeout cfg /\
    ((snd r = Thrown circuitOpenError /\
      (failureCount m < failureCount (fst r))%nat /\
      lastFailureTime (fst r) = clock (fst r))
     \/ snd r = OutOfFuel).
Proof.
  intros Hwithin.
  induction fuel as [|fuel IH]; intros m ctx Hopen Hrecent r; subst r.
  { cbn. repeat split; try assumption. now right. }
  rewrite execute_unfold, (try_open_rejects cfg env m Hopen Hrecent).
  unfold handleOperationFailure, dispatchFailure.
  rewrite classify_circuit_rejection. unfold handleGenericError.
  set (m1 := recordFailure cfg circuitOpenError ctx m).
  assert (Hopen1 : circuitBreakerState m1 = OPEN)
    by now apply recordFailure_stays_open.
  assert (Hlast1 : lastFailureTime m1 = clock m)
    by apply recordFailure_lastFailureTime.
  assert (Hclock1 : clock m1 = clock m) by apply recordFailure_clock.
  assert (Hinv1 : invocations m1 = invocations m)
    by apply recordFailure_invocations.
  assert (Hfc1 : failureCount m1 = S (failureCount m))
    by apply recordFailure_failureCount.
  pose proof (backoff_within cfg env (S (retryAttempt ctx)) m1 Hwithin) as Hdelay.
  destruct Hwithin as [Hpos Hall].
  destruct (_ <? _)%nat.
  - cbn [fst snd]. repeat split; try assumption; try lia.
    left. repeat split; lia.
  - destruct (calculateBackoffDelay cfg env (S (retryAttempt ctx)) m1)
      as [delay m2] eqn:Hbackoff.
    assert (Hm2 : circuitBreakerState m2 = circuitBreakerState m1 /\
                  failureCount m2 = failureCount m1 /\
                  lastFailureTime m2 = lastFailureTime m1 /\
                  clock m2 = clock m1 /\ invocations m2 = invocations m1).
    { unfold calculateBackoffDelay in Hbackoff.
      injection Hbackoff as _ <-. cbn. repeat split. }
    destruct Hm2 as (Hs2 & Hf2 & Hl2 & Hc2 & Hi2).
    cbn [fst] in Hdelay.
    specialize (IH (sleep delay m2) (mkContext (S (retryAttempt ctx)) (timeout ctx))).
    cbn zeta in IH.
    destruct IH as (Ha & Hb & Hc & Hd).
    { cbn. congruence. }
    { cbn. rewrite Hc2, Hl2, Hclock1, Hlast1. lia. }
    cbn [sleep advance log invocations failureCount] in Hb, Hd.
    repeat split; try assumption; try lia.
    destruct Hd as [(Hthrown & Hfc & Hlast) | Hfuel]; [left | now right].
    repeat split; try assumption. lia.
Qed.

Lemma rejected_execute cfg env m ctx :
  retriesArriveWithinTimeout cfg env ->
  circuitBreakerState m = OPEN ->
  clock m - lastFailureTime m <= circuitBreakerTimeout cfg ->
  let r := execute cfg env m ctx in
  circuitBreakerState (fst r) = OPEN /\
  invocations (fst r) = invocations m /\
  (failureCount m < failureCount (fst r))%nat /\
  lastFailureTime (fst r) = clock (fst r) /\
  snd r = Thrown circuitOpenError.
Proof.
  intros Hwithin Hopen Hrecent r. subst r.
  pose proof (execute_completes cfg env m ctx) as Htotal.
  destruct (rejected_call (enoughFuel cfg ctx) cfg env Hwithin m ctx Hopen Hrecent)
    as (Ha & Hb & Hc & Hd).
  fold (execute cfg env m ctx) in Ha, Hb, Hc, Hd.
  destruct Hd as [(Hthrown & Hfc & Hlast) | Hfuel]; [| contradiction].
  repeat split; assumption.
Qed.



(** *** An operation that is refused every time *)

Lemma try_rejects cfg env m e after :
  circuitBreakerState m <> OPEN ->
  operation env (invocations m) = Rejects e after ->
  after < operationTimeout cfg ->
  tryOperation cfg env m =
  (advance after (noteInvocation (operationTimeout cfg) m), inr e).
Proof.
  intros Hne Hop Hfast. unfold tryOperation.
  rewrite (check_not_open cfg m Hne). unfold raceOperation. rewrite Hop.
  destruct (Z.ltb_spec after (operationTimeout cfg)); [reflexivity | lia].
Qed.

Lemma connection_retries_from cfg env :
  alwaysFailsWith cfg env CONNECTION_ERROR ->
  forall n fuel m ctx,
    (retryAttempt ctx + n = maxRetries cfg)%nat ->
    (n < fuel)%nat ->
    circuitBreakerState m <> OPEN ->
    (failureCount m + n < circuitBreakerThreshold cfg)%nat ->
    exists m' e after,
      executeWithErrorHandling fuel cfg env m ctx
        = (m', Thrown (maxRetriesError cfg e)) /\
      invocations m' = (invocations m + S n)%nat /\
      operation env (invocations m + n) = Rejects e after.
Proof.
  intros Hfails.
  induction n as [|n IH]; intros fuel m ctx Hattempt Hfuel Hne Hbelow;
    (destruct fuel as [|fuel]; [lia |]);
    destruct (Hfails (invocations m)) as (e & after & Hop & Hfast & Hclass);
    rewrite execute_unfold, (try_rejects cfg env m e after Hne Hop Hfast);
    unfold handleOperationFailure, dispatchFailure; rewrite Hclass;
    unfold handleConnectionError;
    set (m1 := recordFailure cfg e ctx _).
  - destruct (Nat.ltb_spec (maxRetries cfg) (S (retryAttempt ctx))); [| lia].
    exists m1, e, after. split; [reflexivity |]. split.
    + subst m1. rewrite recordFailure_invocations. cbn. lia.
    + now rewrite Nat.add_0_r.
  - destruct (Nat.ltb_spec (maxRetries cfg) (S (retryAttempt ctx))); [lia |].
    unfold calculateBackoffDelay.
    match goal with
    | |- context [executeWithErrorHandling fuel cfg env ?m2 ?ctx2] =>
        destruct (IH fuel m2 ctx2) as (m' & e' & after' & Hrun & Hinv & Hlast)
    end.
    + cbn. lia.
    + lia.
    + cbn. subst m1. rewrite recordFailure_breaker. cbn.
      destruct (Nat.leb_spec (circuitBreakerThreshold cfg) (S (failureCount m)));
        [lia | exact Hne].
    + cbn. subst m1. rewrite recordFailure_failureCount. cbn. lia.
    + exists m', e', after'. split; [exact Hrun |].
      cbn in Hinv, Hlast. subst m1.
      rewrite recordFailure_invocations in Hinv, Hlast. cbn in Hinv, Hlast.
      split; [lia |].
      now replace (invocations m + S n)%nat with (S (invocations m + n)) by lia.
Qed.

(** C2 (as amended). An operation that is refused on every invocation,
    with errors of the Connection category, is invoked once and then
    retried [maxRetries] times, [maxRetries + 1] invocations in all,
    as long as the breaker stays closed during the run ([failureCount
    + maxRetries] below the threshold). The caller then receives the
    error "Max retries (maxRetries) exceeded for connection error: ..."
    built on the error of the last invocation, which names the
    category and the retry budget. *)
Theorem connection_retries_exhausted cfg env m :
  alwaysFailsWith cfg env CONNECTION_ERROR ->
  circuitBreakerState m <> OPEN ->
  (failureCount m + maxRetries cfg < circuitBreakerThreshold cfg)%nat ->
  exists m' e after,
    execute cfg env m freshContext = (m', Thrown (maxRetriesError cfg e)) /\
    attemptsExactly cfg env m (S (maxRetries cfg)) /\
    operation env (invocations m + maxRetries cfg) = Rejects e after /\
    classifyError (message e) = CONNECTION_ERROR /\
    message (maxRetriesError cfg e) =
      "Max retries (" +:+ ofNat (maxRetries cfg)
      +:+ ") exceeded for connection error: " +:+ message e.
Proof.
  intros Hfails Hne Hbelow.
  destruct (connection_retries_from cfg env Hfails (maxRetries cfg)
              (enoughFuel cfg freshContext) m freshContext)
    as (m' & e & after & Hrun & Hinv & Hlast);
    try assumption; try reflexivity.
  { unfold enoughFuel. cbn. lia. }
  exists m', e, after. fold (execute cfg env m freshContext) in Hrun.
  split; [exact Hrun |]. split.
  { unfold attemptsExactly. now rewrite Hrun. }
  split; [exact Hlast |]. split; [| reflexivity].
  destruct (Hfails (invocations m + maxRetries cfg)%nat)
    as (e2 & after2 & Hop2 & _ & Hclass2).
  congruence.
Qed.


End Generic.

(** *** Runs of the concrete handlers *)

Lemma connection_retries_exhausted_witness :
  exists m' e after,
    execute twoRetriesConfig refusedEnv (newHandler 0) freshContext
      = (m', Thrown (maxRetriesError twoRetriesConfig e)) /\
    attemptsExactly twoRetriesConfig refusedEnv (newHandler 0) 3 /\
    operation refusedEnv 2 = Rejects e after /\
    classifyError (message e) = CONNECTION_ERROR /\
    message (maxRetriesError twoRetriesConfig e) =
      "Max retries (2) exceeded for connection error: " +:+ message e.
Proof.
  apply (connection_retries_exhausted twoRetriesConfig refusedEnv (newHandler 0)).
  - intros k. exists (newError "connect ECONNREFUSED 127.0.0.1:27017"), 5.
    split; [reflexivity |]. split; [reflexivity |]. vm_compute. reflexivity.
  - discriminate.
  - cbn. lia.
Defined.

(** C2 (as stated), refuted. With [maxRetries] = 2 an operation that is
    always refused is invoked three times, not two; with the defaults
    ([maxRetries] = 10, threshold 5) it is invoked five times, the breaker
    opens, and the caller receives the circuit-open error. *)
Lemma connection_attempts_differ_from_maxRetries :
  alwaysFailsWith twoRetriesConfig refusedEnv CONNECTION_ERROR /\
  ~ attemptsExactly twoRetriesConfig refusedEnv (newHandler 0)
      (maxRetries twoRetriesConfig) /\
  attemptsExactly twoRetriesConfig refusedEnv (newHandler 0) 3 /\
  ~ attemptsExactly defaultConfig refusedEnv (newHandler 0)
      (maxRetries defaultConfig) /\
  attemptsExactly defaultConfig refusedEnv (newHandler 0) 5 /\
  snd (execute defaultConfig refusedEnv (newHandler 0) freshContext)
    = Thrown circuitOpenError.
Proof.
  split.
  { intros k. exists (newError "connect ECONNREFUSED 127.0.0.1:27017"), 5.
    split; [reflexivity |]. split; [reflexivity |]. vm_compute. reflexivity. }
  unfold attemptsExactly.
  repeat split; try (vm_compute; reflexivity); vm_compute; discriminate.
Qed.



(** C1, evaluated. The breaker of [openedHandler] opened 100 ms before
    the call, less than either breaker timeout below. With the defaults
    the call does not fail at once: the rejection is classified
    UNKNOWN_ERROR and retried five times behind backoffs of 1, 2, 4, 8
    and 16 seconds, so the circuit-open error reaches the caller 31
    seconds later. With a breaker timeout of half a second the first
    retry finds the timeout elapsed, the operation is invoked, and the
    call returns its value. *)
Theorem open_circuit_call_is_retried :
  let slow := execute defaultConfig healthyEnv openedHandler freshContext in
  let probe := execute shortBreakerConfig healthyEnv openedHandler freshContext in
  circuitBreakerState openedHandler = OPEN /\
  clock openedHandler - lastFailureTime openedHandler = 100 /\
  100 < circuitBreakerTimeout shortBreakerConfig /\
  circuitBreakerTimeout shortBreakerConfig < circuitBreakerTimeout defaultConfig /\
  snd slow = Thrown circuitOpenError /\
  List.filter isSleep (events (fst slow))
    = [EvSleep 1000; EvSleep 2000; EvSleep 4000; EvSleep 8000; EvSleep 16000] /\
  clock (fst slow) - clock openedHandler = 31000 /\
  failureCount (fst slow) = 11%nat /\
  invocations (fst slow) = 0%nat /\
  events (fst probe) =
    [EvOperationFailed UNKNOWN_ERROR 0; EvCircuitBreakerOpened 6 100;
     EvSleep 1000; EvHalfOpen; EvInvoke 10000; EvOperationSuccess] /\
  invocations (fst probe) = 1%nat /\
  snd probe = Returned 7%nat.
Proof. vm_compute. repeat split; reflexivity. Qed.

(** C7, evaluated. An operation that never settles is raced four times
    (one call and three retries behind waits of 1, 2 and 3 seconds), and
    every race uses the timer of [operationTimeout], 10000 ms: the
    timeouts 15000, 22500 and 33750 that [handleTimeoutError] puts in the
    context are not applied. Whatever [timeout] the context holds, the
    run is the same. *)
Theorem timeout_retries_keep_the_same_timer :
  let r := execute defaultConfig hangingEnv (newHandler 0) freshContext in
  List.filter isInvoke (events (fst r))
    = [EvInvoke 10000; EvInvoke 10000; EvInvoke 10000; EvInvoke 10000] /\
  List.filter isSleep (events (fst r))
    = [EvSleep 1000; EvSleep 2000; EvSleep 3000] /\
  clock (fst r) = 46000 /\
  snd r = Thrown (newError
            "Timeout retries exceeded: Operation timeout after 10000ms") /\
  (forall (retry : Machine -> Context -> Machine * Completion nat) m t,
      handleTimeoutError retry defaultConfig (timeoutError defaultConfig)
                         (mkContext 0 t) m
      = retry (sleep 1000 m) (mkContext 1 (Some (inject_Z 10000 * (3 # 2) ^ 1)%Q)) /\
      handleTimeoutError retry defaultConfig (timeoutError defaultConfig)
                         (mkContext 1 t) m
      = retry (sleep 2000 m) (mkContext 2 (Some (inject_Z 10000 * (3 # 2) ^ 2)%Q)) /\
      handleTimeoutError retry defaultConfig (timeoutError defaultConfig)
                         (mkContext 2 t) m
      = retry (sleep 3000 m) (mkContext 3 (Some (inject_Z 10000 * (3 # 2) ^ 3)%Q))) /\
  (inject_Z 10000 * (3 # 2) ^ 1 == 15000)%Q /\
  (inject_Z 10000 * (3 # 2) ^ 2 == 22500)%Q /\
  (inject_Z 10000 * (3 # 2) ^ 3 == 33750)%Q /\
  (forall fuel (env : Env nat) m attempt t1 t2,
      executeWithErrorHandling fuel defaultConfig env m (mkContext attempt t1) =
      executeWithErrorHandling fuel defaultConfig env m (mkContext attempt t2)).
Proof.
  cbn zeta.
  split; [vm_compute; reflexivity |].
  split; [vm_compute; reflexivity |].
  split; [vm_compute; reflexivity |].
  split; [vm_compute; reflexivity |].
  split; [intros retry m t; repeat split |].
  split; [reflexivity |]. split; [reflexivity |]. split; [reflexivity |].
  intros fuel env m attempt t1 t2. apply execute_ignores_timeout.
Qed.

End EdgeCaseHandlerProofs.

(** ** The resilient executor: retry policy, breaker and helpers *)
Module EdgeCaseHandlerExtras.
Import JsString EdgeCaseHandler EdgeCaseHandlerProofs.

Section Generic.
Context {Value : Type}.
Implicit Types (cfg : Config) (env : Env Value) (m : Machine) (ctx : Context).

(** *** The shape of a failure handling *)

Lemma waited_refl m : waited m m.
Proof. unfold waited. repeat split; lia. Qed.

Lemma waited_trans m1 m2 m3 : waited m1 m2 -> waited m2 m3 -> waited m1 m3.
Proof. unfold waited. intros (A1 & A2 & A3 & A4 & A5) (B1 & B2 & B3 & B4 & B5).
  repeat split; try congruence. lia. Qed.

Lemma waited_log e m : waited m (log e m).
Proof. unfold waited. cbn. repeat split; lia. Qed.

Lemma waited_sleep ms m : waited m (sleep ms m).
Proof. unfold waited. cbn. repeat split; lia. Qed.

Lemma waited_backoff cfg env attempt m :
  waited m (snd (calculateBackoffDelay cfg env attempt m)).
Proof. unfold waited. cbn. repeat split; lia. Qed.

(** A handler either throws or calls [executeWithErrorHandling] again
    with the next [retryAttempt]; until then only time passes. *)
Lemma dispatch_shape retry cfg env e ctx m :
  (exists m' e', dispatchFailure retry cfg env e ctx m = (m', Thrown e') /\
                 waited m m') \/
  (exists m' t,
      dispatchFailure retry cfg env e ctx m
      = retry m' (mkContext (S (retryAttempt ctx)) t) /\
      waited m m' /\
      (S (retryAttempt ctx) <= retryBudget cfg (classifyError (message e)))%nat).
Proof.
  unfold dispatchFailure.
  destruct (classifyError (message e)); cbn [retryBudget];
    unfold handleConnectionError, handleTimeoutError, handleResourceError,
      handleAuthError, handleRateLimitError, handleDataCorruptionError,
      handleNetworkError, handleGenericError;
    try (left; eexists; eexists; split; [reflexivity |];
         first [apply waited_refl | apply waited_log]);
    match goal with
    | |- context [(?a <? ?b)%nat] => destruct (Nat.ltb_spec a b)
    end;
    try (left; eexists; eexists; split; [reflexivity |];
         first [apply waited_refl
               | eapply waited_trans; [apply waited_log | apply waited_sleep]
               | apply waited_sleep]);
    right.
  - destruct (calculateBackoffDelay cfg env (S (retryAttempt ctx)) m)
      as [delay m1] eqn:Hbackoff.
    exists (sleep delay m1), (timeout ctx). split; [reflexivity |]. split; [| lia].
    eapply waited_trans; [| apply waited_sleep].
    replace m1 with (snd (calculateBackoffDelay cfg env (S (retryAttempt ctx)) m))
      by now rewrite Hbackoff.
    apply waited_backoff.
  - eexists; eexists. split; [reflexivity |]. split; [apply waited_sleep | lia].
  - eexists; eexists. split; [reflexivity |]. split; [| lia].
    eapply waited_trans; [apply waited_log | apply waited_sleep].
  - eexists; eexists. split; [reflexivity |]. split; [| lia].
    eapply waited_trans; [apply waited_log | apply waited_sleep].
  - eexists; eexists. split; [reflexivity |]. split; [apply waited_sleep | lia].
  - eexists; eexists. split; [reflexivity |]. split; [apply waited_sleep | lia].
  - destruct (calculateBackoffDelay cfg env (S (retryAttempt ctx)) m)
      as [delay m1] eqn:Hbackoff.
    exists (sleep delay m1), (timeout ctx). split; [reflexivity |]. split; [| lia].
    eapply waited_trans; [| apply waited_sleep].
    replace m1 with (snd (calculateBackoffDelay cfg env (S (retryAttempt ctx)) m))
      by now rewrite Hbackoff.
    apply waited_backoff.
Qed.

(** *** One pass through the [try] block *)

Lemma success_spec m :
  let m' := onOperationSuccess m in
  invocations m' = invocations m /\ clock m' = clock m /\
  lastFailureTime m' = lastFailureTime m /\
  (circuitBreakerState m <> OPEN -> circuitBreakerState m' = CLOSED) /\
  failureCount m'
  = match circuitBreakerState m with
    | CLOSED => (failureCount m - 1)%nat
    | HALF_OPEN => 0%nat
    | OPEN => failureCount m
    end.
Proof.
  cbn zeta. unfold onOperationSuccess.
  destruct (circuitBreakerState m) eqn:Hstate.
  - destruct (failureCount m) as [|n] eqn:Hcount; cbn; rewrite ?Hstate, ?Hcount;
      repeat split; lia.
  - cbn. repeat split. congruence.
  - cbn. repeat split.
Qed.

Lemma race_spec cfg env m :
  let r := raceOperation cfg env m in
  circuitBreakerState (fst r) = circuitBreakerState m /\
  failureCount (fst r) = failureCount m /\
  lastFailureTime (fst r) = lastFailureTime m /\
  invocations (fst r) = S (invocations m) /\
  clock m <= clock (fst r).
Proof.
  cbn zeta. unfold raceOperation.
  destruct (operation env (invocations m)) as [v after | e after |];
    try destruct (after <? operationTimeout cfg);
    cbn; repeat split; lia.
Qed.

Lemma try_spec cfg env m :
  let r := tryOperation cfg env m in
  (invocations m <= invocations (fst r) <= S (invocations m))%nat /\
  clock m <= clock (fst r) /\
  lastFailureTime (fst r) = lastFailureTime m /\
  match snd r with
  | inl _ =>
      circuitBreakerState (fst r) = CLOSED /\
      invocations (fst r) = S (invocations m) /\
      failureCount (fst r)
      = match circuitBreakerState m with
        | CLOSED => (failureCount m - 1)%nat
        | _ => 0%nat
        end
  | inr _ =>
      failureCount (fst r) = failureCount m /\
      (circuitBreakerState (fst r) = circuitBreakerState m \/
       (circuitBreakerState m = OPEN /\ circuitBreakerState (fst r) = HALF_OPEN))
  end.
Proof.
  cbn zeta. unfold tryOperation.
  assert (Hcheck :
            (checkCircuitBreaker cfg m = inr circuitOpenError /\
             circuitBreakerState m = OPEN) \/
            (exists m0, checkCircuitBreaker cfg m = inl m0 /\
                        (failureCount m0 = failureCount m /\
                         lastFailureTime m0 = lastFailureTime m /\
                         invocations m0 = invocations m) /\
                        clock m0 = clock m /\
                        circuitBreakerState m0 <> OPEN /\
                        (circuitBreakerState m0 = circuitBreakerState m \/
                         (circuitBreakerState m = OPEN /\
                          circuitBreakerState m0 = HALF_OPEN)))).
  { unfold checkCircuitBreaker.
    destruct (circuitBreakerState m) eqn:Hstate.
    - right. exists m. split; [reflexivity |]. split; [repeat split |].
      split; [reflexivity |]. split; [congruence | now left].
    - destruct (_ <? _); [right | now left].
      eexists. split; [reflexivity |]. cbn.
      repeat split; try discriminate. right. now split.
    - right. exists m. split; [reflexivity |]. split; [repeat split |].
      split; [reflexivity |]. split; [congruence | now left]. }
  destruct Hcheck as [[-> Hopen] | (m0 & -> & Hw & Hclock0 & Hne & Hstate0)].
  { cbn. repeat split; try lia. now left. }
  destruct Hw as (Hfc0 & Hlast0 & Hinv0).
  destruct (race_spec cfg env m0) as (R1 & R2 & R3 & R4 & R5).
  destruct (raceOperation cfg env m0) as [m2 [v | e]]; cbn [fst snd] in *.
  - destruct (success_spec m2) as (S1 & S2 & S3 & S4 & S5).
    cbn zeta in *. rewrite S1, S2, S3, S5, R1, R3, R4.
    split; [lia |]. split; [lia |]. split; [congruence |].
    split; [apply S4; congruence |]. split; [lia |].
    destruct Hstate0 as [Heq | [Hopen Hhalf]].
    + rewrite Heq in *. destruct (circuitBreakerState m); congruence.
    + rewrite Hhalf, Hopen. reflexivity.
  - split; [lia |]. split; [lia |]. split; [congruence |].
    split; [congruence |]. rewrite R1. exact Hstate0.
Qed.

(** *** Bounds on a call *)

Lemma execute_bounds fuel cfg env :
  forall m ctx,
    let r := executeWithErrorHandling fuel cfg env m ctx in
    (invocations m <= invocations (fst r) <= invocations m + fuel)%nat /\
    clock m <= clock (fst r).
Proof.
  induction fuel as [|fuel IH]; intros m ctx r; subst r; [cbn; lia |].
  rewrite execute_unfold.
  destruct (try_spec cfg env m) as (Hinv & Hclock & _ & _).
  destruct (tryOperation cfg env m) as [m1 [v | e]]; cbn [fst snd] in *; [lia |].
  unfold handleOperationFailure.
  pose proof (recordFailure_invocations cfg e ctx m1) as Hinv1.
  pose proof (recordFailure_clock cfg e ctx m1) as Hclock1.
  destruct (dispatch_shape (executeWithErrorHandling fuel cfg env) cfg env e ctx
                           (recordFailure cfg e ctx m1))
    as [(m' & e' & -> & Hw) | (m' & t & -> & Hw & _)];
    destruct Hw as (_ & _ & _ & Hi & Hc).
  - cbn [fst]. lia.
  - specialize (IH m' (mkContext (S (retryAttempt ctx)) t)). cbn zeta in IH. lia.
Qed.

(** X1. Every call completes, by a return or a throw, after at most
    [max(maxRetries, 3) + 1 - retryAttempt] invocations of the operation,
    whatever the operation does and whatever state the breaker is in;
    the number of invocations and the clock never go back. *)
Theorem call_completes_within_budget cfg env m ctx :
  let r := execute cfg env m ctx in
  snd r <> OutOfFuel /\
  (invocations m <= invocations (fst r)
   <= invocations m + S (Nat.max (maxRetries cfg) 3 - retryAttempt ctx))%nat /\
  clock m <= clock (fst r).
Proof.
  cbn zeta. split; [apply execute_completes |].
  apply (execute_bounds (enoughFuel cfg ctx) cfg env m ctx).
Qed.

(** *** The breaker between calls *)

Lemma waited_settled cfg m m' : waited m m' -> settled cfg m -> settled cfg m'.
Proof.
  unfold waited, settled. intros (-> & -> & _) H. exact H.
Qed.

Lemma recordFailure_settles cfg e ctx m :
  circuitBreakerState m = CLOSED \/
  (circuitBreakerThreshold cfg <= failureCount m)%nat ->
  settled cfg (recordFailure cfg e ctx m).
Proof.
  intros Hbefore. unfold settled.
  rewrite recordFailure_breaker, recordFailure_failureCount.
  destruct (Nat.leb_spec (circuitBreakerThreshold cfg) (S (failureCount m))).
  - right. split; [reflexivity | assumption].
  - left. destruct Hbefore as [Hclosed | Hhigh]; [exact Hclosed | lia].
Qed.

Lemma execute_settles fuel cfg env :
  forall m ctx,
    circuitBreakerState m = CLOSED \/
    (circuitBreakerThreshold cfg <= failureCount m)%nat ->
    let r := executeWithErrorHandling fuel cfg env m ctx in
    snd r = OutOfFuel \/
    (settled cfg (fst r) /\
     forall v, snd r = Returned v -> circuitBreakerState (fst r) = CLOSED).
Proof.
  induction fuel as [|fuel IH]; intros m ctx Hbefore r; subst r; [now left |].
  rewrite execute_unfold.
  destruct (try_spec cfg env m) as (_ & _ & _ & Hresult).
  destruct (tryOperation cfg env m) as [m1 [v | e]]; cbn [fst snd] in *.
  - right. destruct Hresult as (Hclosed & _). split; [now left | now intros].
  - destruct Hresult as (Hcount & Hstate).
    assert (Hbefore1 : circuitBreakerState m1 = CLOSED \/
                       (circuitBreakerThreshold cfg <= failureCount m1)%nat).
    { rewrite Hcount. destruct Hbefore as [Hclosed | Hhigh]; [| now right].
      destruct Hstate as [Hsame | [Hopen _]]; [left; congruence | congruence]. }
    pose proof (recordFailure_settles cfg e ctx m1 Hbefore1) as Hsettled.
    unfold handleOperationFailure.
    destruct (dispatch_shape (executeWithErrorHandling fuel cfg env) cfg env e ctx
                             (recordFailure cfg e ctx m1))
      as [(m' & e' & -> & Hw) | (m' & t & -> & Hw & _)].
    + right. cbn [fst snd]. split; [exact (waited_settled cfg _ m' Hw Hsettled) |].
      intros v [=].
    + apply IH. destruct (waited_settled cfg _ m' Hw Hsettled) as [Hc | [_ Hh]];
        [now left | now right].
Qed.

(** X2. A call that starts with the breaker CLOSED, or OPEN with the
    failure count at or above the threshold, ends with the breaker in one
    of these two conditions again: HALF_OPEN is only seen during a call.
    After a call that returns the breaker is CLOSED. The same holds after
    any series of calls. *)
Theorem breaker_settles_between_calls cfg env m :
  settled cfg m ->
  (forall ctx,
      settled cfg (fst (execute cfg env m ctx)) /\
      circuitBreakerState (fst (execute cfg env m ctx)) <> HALF_OPEN /\
      forall v, snd (execute cfg env m ctx) = Returned v ->
                circuitBreakerState (fst (execute cfg env m ctx)) = CLOSED) /\
  (forall calls, settled cfg (fst (executeAll cfg env calls m))).
Proof.
  assert (Hone : forall m0 ctx, settled cfg m0 ->
                   settled cfg (fst (execute cfg env m0 ctx)) /\
                   forall v, snd (execute cfg env m0 ctx) = Returned v ->
                     circuitBreakerState (fst (execute cfg env m0 ctx)) = CLOSED).
  { intros m0 ctx Hsettled.
    destruct (execute_settles (enoughFuel cfg ctx) cfg env m0 ctx) as [Hfuel | H].
    - destruct Hsettled as [Hc | [_ Hh]]; [now left | now right].
    - now apply execute_completes in Hfuel.
    - exact H. }
  intros Hsettled. split.
  - intros ctx. destruct (Hone m ctx Hsettled) as [Hs Hr].
    split; [exact Hs |]. split; [| exact Hr].
    destruct Hs as [-> | [-> _]]; discriminate.
  - intros calls. revert m Hsettled.
    induction calls as [|[gap ctx] rest IH]; intros m Hsettled; [exact Hsettled |].
    cbn [executeAll].
    destruct (Hone (advance gap m) ctx) as [Hs _]; [exact Hsettled |].
    destruct (execute cfg env (advance gap m) ctx) as [m1 c1].
    specialize (IH m1 Hs).
    destruct (executeAll cfg env rest m1) as [m2 cs]. exact IH.
Qed.

Lemma admitted_call_succeeds cfg env m ctx v after :
  operation env (invocations m) = Resolves v after ->
  after < operationTimeout cfg ->
  circuitBreakerState m <> OPEN \/
  circuitBreakerTimeout cfg < clock m - lastFailureTime m ->
  let r := execute cfg env m ctx in
  snd r = Returned v /\
  circuitBreakerState (fst r) = CLOSED /\
  failureCount (fst r)
  = match circuitBreakerState m with
    | CLOSED => (failureCount m - 1)%nat
    | _ => 0%nat
    end /\
  invocations (fst r) = S (invocations m) /\
  clock (fst r) = clock m + Z.max 0 after /\
  List.filter isSleep (events (fst r)) = List.filter isSleep (events m).
Proof.
  intros Hop Hfast Hadmitted. cbn zeta. unfold execute, enoughFuel.
  rewrite execute_unfold.
  assert (Hcheck : exists m0, checkCircuitBreaker cfg m = inl m0 /\
                     invocations m0 = invocations m /\ clock m0 = clock m /\
                     circuitBreakerState m0 <> OPEN /\
                     failureCount m0 = failureCount m /\
                     List.filter isSleep (events m0) = List.filter isSleep (events m) /\
                     (circuitBreakerState m0 = circuitBreakerState m \/
                      (circuitBreakerState m = OPEN /\
                       circuitBreakerState m0 = HALF_OPEN))).
  { unfold checkCircuitBreaker.
    destruct (circuitBreakerState m) eqn:Hstate.
    - exists m. repeat split; try congruence. now left.
    - destruct Hadmitted as [Hne | Helapsed]; [congruence |].
      destruct (Z.ltb_spec (circuitBreakerTimeout cfg) (clock m - lastFailureTime m));
        [| lia].
      eexists. split; [reflexivity |]. cbn. rewrite List.filter_app. cbn.
      rewrite app_nil_r. repeat split; try discriminate. right. now split.
    - exists m. repeat split; try congruence. now left. }
  destruct Hcheck as (m0 & Hm0 & Hinv0 & Hclock0 & Hne0 & Hfc0 & Hsleep0 & Hstate0).
  unfold tryOperation. rewrite Hm0. unfold raceOperation. rewrite Hinv0, Hop.
  destruct (Z.ltb_spec after (operationTimeout cfg)); [| lia].
  set (m2 := advance after (noteInvocation (operationTimeout cfg) m0)).
  destruct (success_spec m2) as (S1 & S2 & S3 & S4 & S5).
  cbn zeta in *. cbn [fst snd].
  split; [reflexivity |]. split; [apply S4; exact Hne0 |]. split.
  { rewrite S5. subst m2. cbn [circuitBreakerState advance noteInvocation log
                                 failureCount].
    destruct Hstate0 as [Heq | [Hopen Hhalf]].
    - rewrite Heq, Hfc0. destruct (circuitBreakerState m); congruence.
    - rewrite Hhalf, Hopen. reflexivity. }
  split; [rewrite S1; subst m2; cbn; lia |].
  split; [rewrite S2; subst m2; cbn; lia |].
  unfold onOperationSuccess.
  assert (Hevents : forall mA mB : Machine,
             events mA = events mB ->
             List.filter isSleep (events (log EvOperationSuccess mA))
             = List.filter isSleep (events mB)).
  { intros mA mB Heq. cbn. rewrite List.filter_app, Heq. cbn. apply app_nil_r. }
  assert (Hm2 : List.filter isSleep (events m2) = List.filter isSleep (events m)).
  { subst m2. cbn. rewrite List.filter_app. cbn. now rewrite app_nil_r. }
  rewrite <- Hm2.
  destruct (circuitBreakerState m2); [destruct (0 <? failureCount m2)%nat | |];
    apply Hevents; reflexivity.
Qed.

(** X3. A call that is admitted (the breaker is not OPEN, or it is OPEN
    and more than [circuitBreakerTimeout] has passed since the last
    failure) and whose operation resolves before the timer returns the
    value after one invocation, without any wait, and leaves the breaker
    CLOSED: the failure count is lowered by one (not below zero) when the
    breaker was CLOSED, and reset to zero after a half-open probe. *)
Theorem successful_call_closes_breaker cfg env m ctx v after :
  operation env (invocations m) = Resolves v after ->
  after < operationTimeout cfg ->
  circuitBreakerState m <> OPEN \/
  circuitBreakerTimeout cfg < clock m - lastFailureTime m ->
  let r := execute cfg env m ctx in
  snd r = Returned v /\
  circuitBreakerState (fst r) = CLOSED /\
  failureCount (fst r)
  = match circuitBreakerState m with
    | CLOSED => (failureCount m - 1)%nat
    | _ => 0%nat
    end /\
  invocations (fst r) = S (invocations m) /\
  clock (fst r) = clock m + Z.max 0 after /\
  List.filter isSleep (events (fst r)) = List.filter isSleep (events m).
Proof. apply admitted_call_succeeds. Qed.

(** *** The retry budget of a category *)

Lemma half_le n : (n / 2 <= n)%nat.
Proof. pose proof (Nat.Div0.div_le_upper_bound n 2 n). lia. Qed.

Lemma budget_le_fuel cfg ty : (retryBudget cfg ty <= Nat.max (maxRetries cfg) 3)%nat.
Proof.
  pose proof (half_le (maxRetries cfg)). destruct ty; cbn [retryBudget]; lia.
Qed.

(** Once the budget is used up the handler throws; before that it calls
    [executeWithErrorHandling] again. *)
Lemma dispatch_policy retry cfg env e ctx m :
  ((retryBudget cfg (classifyError (message e)) < S (retryAttempt ctx))%nat ->
   exists m' e', dispatchFailure retry cfg env e ctx m = (m', Thrown e') /\
                 waited m m') /\
  ((S (retryAttempt ctx) <= retryBudget cfg (classifyError (message e)))%nat ->
   exists m' t,
     dispatchFailure retry cfg env e ctx m
     = retry m' (mkContext (S (retryAttempt ctx)) t) /\ waited m m').
Proof.
  unfold dispatchFailure.
  destruct (classifyError (message e)); cbn [retryBudget];
    unfold handleConnectionError, handleTimeoutError, handleResourceError,
      handleAuthError, handleRateLimitError, handleDataCorruptionError,
      handleNetworkError, handleGenericError;
    try (split; [intros _ | intros Hle; lia];
         eexists; eexists; split; [reflexivity |];
         first [apply waited_refl | apply waited_log]);
    match goal with
    | |- context [(?a <? ?b)%nat] => destruct (Nat.ltb_spec a b)
    end;
    (split; [intros Hlt | intros Hle]); try lia;
    try (eexists; eexists; split; [reflexivity |];
         first [apply waited_refl
               | apply waited_sleep
               | eapply waited_trans; [apply waited_log | apply waited_sleep]]).
  - destruct (calculateBackoffDelay cfg env (S (retryAttempt ctx)) m)
      as [delay m1] eqn:Hbackoff.
    exists (sleep delay m1), (timeout ctx). split; [reflexivity |].
    eapply waited_trans; [| apply waited_sleep].
    replace m1 with (snd (calculateBackoffDelay cfg env (S (retryAttempt ctx)) m))
      by now rewrite Hbackoff.
    apply waited_backoff.
  - destruct (calculateBackoffDelay cfg env (S (retryAttempt ctx)) m)
      as [delay m1] eqn:Hbackoff.
    exists (sleep delay m1), (timeout ctx). split; [reflexivity |].
    eapply waited_trans; [| apply waited_sleep].
    replace m1 with (snd (calculateBackoffDelay cfg env (S (retryAttempt ctx)) m))
      by now rewrite Hbackoff.
    apply waited_backoff.
Qed.

Lemma retries_from cfg env ty :
  alwaysFailsWith cfg env ty ->
  forall n fuel m ctx,
    (retryAttempt ctx + n = retryBudget cfg ty)%nat ->
    (n < fuel)%nat ->
    circuitBreakerState m <> OPEN ->
    (failureCount m + n < circuitBreakerThreshold cfg)%nat ->
    exists m' e,
      executeWithErrorHandling fuel cfg env m ctx = (m', Thrown e) /\
      invocations m' = (invocations m + S n)%nat /\
      failureCount m' = (failureCount m + S n)%nat.
Proof.
  intros Hfails.
  induction n as [|n IH]; intros fuel m ctx Hattempt Hfuel Hne Hbelow;
    (destruct fuel as [|fuel]; [lia |]);
    destruct (Hfails (invocations m)) as (e & after & Hop & Hfast & Hclass);
    rewrite execute_unfold, (try_rejects cfg env m e after Hne Hop Hfast);
    unfold handleOperationFailure;
    set (m1 := recordFailure cfg e ctx _);
    destruct (dispatch_policy (executeWithErrorHandling fuel cfg env) cfg env e ctx m1)
      as [Hthrow Hretry]; rewrite Hclass in Hthrow, Hretry.
  - destruct Hthrow as (m' & e' & -> & Hw); [lia |].
    exists m', e'. split; [reflexivity |].
    destruct Hw as (_ & Hfc & _ & Hinv & _). rewrite Hinv, Hfc. subst m1.
    rewrite recordFailure_invocations, recordFailure_failureCount. cbn. lia.
  - destruct Hretry as (m' & t & -> & Hw); [lia |].
    destruct Hw as (Hstate & Hfc & _ & Hinv & _).
    assert (Hstate1 : circuitBreakerState m1 <> OPEN).
    { subst m1. rewrite recordFailure_breaker. cbn.
      destruct (Nat.leb_spec (circuitBreakerThreshold cfg) (S (failureCount m)));
        [lia | exact Hne]. }
    assert (Hfc1 : failureCount m1 = S (failureCount m)).
    { subst m1. rewrite recordFailure_failureCount. reflexivity. }
    assert (Hinv1 : invocations m1 = S (invocations m)).
    { subst m1. rewrite recordFailure_invocations. reflexivity. }
    destruct (IH fuel m' (mkContext (S (retryAttempt ctx)) t))
      as (m'' & e'' & Hrun & Hinv'' & Hfc'').
    + cbn. lia.
    + lia.
    + congruence.
    + lia.
    + exists m'', e''. split; [exact Hrun |]. lia.
Qed.

(** X4. The retry policy, category by category. An operation that
    rejects on every invocation with errors of one category, called with
    a fresh context while the breaker is not OPEN and stays closed during
    the run, is invoked once and then retried as many times as the
    category allows: [maxRetries] times for connection and network
    errors, 3 for timeouts and rate limits, 2 for resource errors, once
    for authentication errors, [floor(maxRetries / 2)] for unclassified
    errors, never for validation and data corruption errors. Then the
    call throws, and every invocation was counted as a failure. *)
Theorem retry_budget_is_exhausted cfg env ty m :
  alwaysFailsWith cfg env ty ->
  circuitBreakerState m <> OPEN ->
  (failureCount m + retryBudget cfg ty < circuitBreakerThreshold cfg)%nat ->
  exists m' e,
    execute cfg env m freshContext = (m', Thrown e) /\
    attemptsExactly cfg env m (S (retryBudget cfg ty)) /\
    failureCount m' = (failureCount m + S (retryBudget cfg ty))%nat.
Proof.
  intros Hfails Hne Hbelow.
  destruct (retries_from cfg env ty Hfails (retryBudget cfg ty)
              (enoughFuel cfg freshContext) m freshContext)
    as (m' & e & Hrun & Hinv & Hfc); try assumption; try reflexivity.
  { pose proof (budget_le_fuel cfg ty). unfold enoughFuel. cbn. lia. }
  fold (execute cfg env m freshContext) in Hrun.
  exists m', e. split; [exact Hrun |]. split; [| exact Hfc].
  unfold attemptsExactly. now rewrite Hrun.
Qed.

(** *** Failures that are not retried *)

Lemma validation_failure cfg env m ctx e after :
  circuitBreakerState m <> OPEN ->
  operation env (invocations m) = Rejects e after ->
  after < operationTimeout cfg ->
  classifyError (message e) = VALIDATION_ERROR ->
  execute cfg env m ctx
  = (recordFailure cfg e ctx
       (advance after (noteInvocation (operationTimeout cfg) m)),
     Thrown e).
Proof.
  intros Hne Hop Hfast Hclass. unfold execute, enoughFuel.
  rewrite execute_unfold, (try_rejects cfg env m e after Hne Hop Hfast).
  unfold handleOperationFailure, dispatchFailure. now rewrite Hclass.
Qed.

Lemma corruption_failure cfg env m ctx e after :
  circuitBreakerState m <> OPEN ->
  operation env (invocations m) = Rejects e after ->
  after < operationTimeout cfg ->
  classifyError (message e) = DATA_CORRUPTION_ERROR ->
  execute cfg env m ctx
  = (log (EvEmit "dataIntegrityIssue")
         (recordFailure cfg e ctx
            (advance after (noteInvocation (operationTimeout cfg) m))),
     Thrown (newError ("Data corruption detected: " +:+ message e))).
Proof.
  intros Hne Hop Hfast Hclass. unfold execute, enoughFuel.
  rewrite execute_unfold, (try_rejects cfg env m e after Hne Hop Hfast).
  unfold handleOperationFailure, dispatchFailure. now rewrite Hclass.
Qed.

Lemma recordFailure_sleeps cfg e ctx m :
  List.filter isSleep (events (recordFailure cfg e ctx m))
  = List.filter isSleep (events m).
Proof.
  unfold recordFailure.
  destruct (_ <=? _)%nat; cbn; rewrite !List.filter_app; cbn;
    now rewrite !app_nil_r.
Qed.

(** X5. A validation error is surfaced at once: the operation is invoked
    once, the error it rejected with is thrown unchanged, and no time is
    spent waiting; the failure is counted all the same. A data corruption
    error is surfaced at once too, as "Data corruption detected: ..."
    around the original message. *)
Theorem validation_and_corruption_are_not_retried cfg env m ctx e after :
  circuitBreakerState m <> OPEN ->
  operation env (invocations m) = Rejects e after ->
  after < operationTimeout cfg ->
  let r := execute cfg env m ctx in
  (classifyError (message e) = VALIDATION_ERROR -> snd r = Thrown e) /\
  (classifyError (message e) = DATA_CORRUPTION_ERROR ->
   snd r = Thrown (newError ("Data corruption detected: " +:+ message e))) /\
  (classifyError (message e) = VALIDATION_ERROR \/
   classifyError (message e) = DATA_CORRUPTION_ERROR ->
   invocations (fst r) = S (invocations m) /\
   failureCount (fst r) = S (failureCount m) /\
   clock (fst r) = clock m + Z.max 0 after /\
   lastFailureTime (fst r) = clock (fst r) /\
   List.filter isSleep (events (fst r)) = List.filter isSleep (events m)).
Proof.
  intros Hne Hop Hfast. cbn zeta.
  assert (Hbase : List.filter isSleep
                    (events (advance after (noteInvocation (operationTimeout cfg) m)))
                  = List.filter isSleep (events m)).
  { cbn. rewrite List.filter_app. cbn. now rewrite app_nil_r. }
  split; [| split].
  - intros Hclass. now rewrite (validation_failure cfg env m ctx e after).
  - intros Hclass. now rewrite (corruption_failure cfg env m ctx e after).
  - intros [Hclass | Hclass].
    + rewrite (validation_failure cfg env m ctx e after) by assumption. cbn [fst].
      rewrite recordFailure_invocations, recordFailure_failureCount,
        recordFailure_clock, recordFailure_lastFailureTime, recordFailure_sleeps,
        Hbase.
      cbn. repeat split; lia.
    + rewrite (corruption_failure cfg env m ctx e after) by assumption.
      cbn [fst log invocations failureCount clock lastFailureTime events].
      rewrite recordFailure_invocations, recordFailure_failureCount,
        recordFailure_clock, recordFailure_lastFailureTime.
      rewrite List.filter_app, recordFailure_sleeps, Hbase. cbn.
      rewrite app_nil_r. repeat split; lia.
Qed.

(** *** Consecutive failures *)

Lemma validation_series cfg env :
  alwaysFailsWith cfg env VALIDATION_ERROR ->
  forall calls m,
    circuitBreakerState m = CLOSED ->
    (failureCount m + length calls <= circuitBreakerThreshold cfg)%nat ->
    let r := executeAll cfg env calls m in
    invocations (fst r) = (invocations m + length calls)%nat /\
    failureCount (fst r) = (failureCount m + length calls)%nat /\
    ((failureCount m + length calls < circuitBreakerThreshold cfg)%nat ->
     circuitBreakerState (fst r) = CLOSED) /\
    (calls <> [] ->
     (failureCount m + length calls = circuitBreakerThreshold cfg)%nat ->
     circuitBreakerState (fst r) = OPEN /\
     lastFailureTime (fst r) = clock (fst r)) /\
    Forall (fun c => exists e, c = Thrown e /\
                               classifyError (message e) = VALIDATION_ERROR)
           (snd r).
Proof.
  intros Hfails.
  induction calls as [|[gap ctx] rest IH]; intros m Hclosed Hroom r; subst r.
  { cbn. repeat split; try lia; try assumption; try congruence. constructor. }
  cbn [executeAll length] in *.
  destruct (Hfails (invocations (advance gap m))) as (e & after & Hop & Hfast & Hclass).
  assert (Hne : circuitBreakerState (advance gap m) <> OPEN) by (cbn; congruence).
  rewrite (validation_failure cfg env (advance gap m) ctx e after Hne Hop Hfast Hclass).
  set (m1 := recordFailure cfg e ctx _).
  assert (Hinv1 : invocations m1 = S (invocations m))
    by (subst m1; rewrite recordFailure_invocations; reflexivity).
  assert (Hfc1 : failureCount m1 = S (failureCount m))
    by (subst m1; rewrite recordFailure_failureCount; reflexivity).
  assert (Hstate1 : circuitBreakerState m1
                    = if (circuitBreakerThreshold cfg <=? S (failureCount m))%nat
                      then OPEN else CLOSED).
  { subst m1. rewrite recordFailure_breaker. cbn. now rewrite Hclosed. }
  assert (Hlast1 : lastFailureTime m1 = clock m1).
  { subst m1. now rewrite recordFailure_lastFailureTime, recordFailure_clock. }
  destruct rest as [|next rest'].
  - cbn [executeAll fst snd length].
    rewrite Hinv1, Hfc1, Hstate1. split; [lia |]. split; [lia |]. split.
    + intros Hlt. destruct (Nat.leb_spec (circuitBreakerThreshold cfg)
                                         (S (failureCount m))); [lia | reflexivity].
    + split.
      * intros _ Heq. destruct (Nat.leb_spec (circuitBreakerThreshold cfg)
                                             (S (failureCount m))); [| lia].
        split; [reflexivity | exact Hlast1].
      * constructor; [| constructor]. now exists e.
  - assert (Hclosed1 : circuitBreakerState m1 = CLOSED).
    { rewrite Hstate1. cbn [length] in Hroom.
      destruct (Nat.leb_spec (circuitBreakerThreshold cfg) (S (failureCount m)));
        [lia | reflexivity]. }
    destruct (IH m1 Hclosed1) as (I1 & I2 & I3 & I4 & I5).
    { rewrite Hfc1. cbn [length] in *. lia. }
    destruct (executeAll cfg env (next :: rest') m1) as [m2 cs].
    cbn [fst snd] in *. rewrite Hinv1 in I1. rewrite Hfc1 in I2, I3, I4.
    split; [cbn [length] in *; lia |]. split; [cbn [length] in *; lia |].
    split; [intros Hlt; apply I3; cbn [length] in *; lia |]. split.
    + intros _ Heq. apply I4; [discriminate | cbn [length] in *; lia].
    + constructor; [now exists e | exact I5].
Qed.

(** X6. The breaker opens at the threshold. From a CLOSED breaker, calls
    that each fail once (with a validation error, which is not retried)
    leave the breaker CLOSED as long as the failure count stays below
    [circuitBreakerThreshold]; the call that brings the count to the
    threshold opens it. The operation was invoked once per call. While
    the retries arrive within the breaker timeout, the next call made no
    later than [circuitBreakerTimeout] afterwards throws the circuit-open
    error without invoking the operation. *)
Theorem breaker_opens_at_threshold cfg env m calls :
  alwaysFailsWith cfg env VALIDATION_ERROR ->
  circuitBreakerState m = CLOSED ->
  calls <> [] ->
  (failureCount m + length calls = circuitBreakerThreshold cfg)%nat ->
  let r := executeAll cfg env calls m in
  circuitBreakerState (fst r) = OPEN /\
  invocations (fst r) = (invocations m + length calls)%nat /\
  (forall fewer,
      (failureCount m + length fewer < circuitBreakerThreshold cfg)%nat ->
      circuitBreakerState (fst (executeAll cfg env fewer m)) = CLOSED) /\
  (retriesArriveWithinTimeout cfg env ->
   forall gap ctx,
     gap <= circuitBreakerTimeout cfg ->
     snd (execute cfg env (advance gap (fst r)) ctx) = Thrown circuitOpenError /\
     invocations (fst (execute cfg env (advance gap (fst r)) ctx))
     = invocations (fst r)).
Proof.
  intros Hfails Hclosed Hsome Hcount. cbn zeta.
  destruct (validation_series cfg env Hfails calls m Hclosed) as (H1 & H2 & H3 & H4 & H5);
    [lia |].
  destruct (H4 Hsome Hcount) as [Hopen Hlast].
  split; [exact Hopen |]. split; [exact H1 |]. split.
  - intros fewer Hfewer.
    destruct (validation_series cfg env Hfails fewer m Hclosed) as (_ & _ & F3 & _);
      [lia |].
    now apply F3.
  - intros Hwithin gap ctx Hgap.
    destruct (rejected_execute cfg env (advance gap (fst (executeAll cfg env calls m)))
                               ctx Hwithin)
      as (_ & Hinv & _ & _ & Hthrown).
    + exact Hopen.
    + cbn. rewrite Hlast. destruct Hwithin as [Hpos _]. lia.
    + split; [exact Hthrown | exact Hinv].
Qed.

(** *** Operations that do not settle in time *)

Lemma append_cons c (a b : string) : String c a +:+ b = String c (a +:+ b).
Proof. reflexivity. Qed.

Lemma append_nil (b : string) : EmptyString +:+ b = b.
Proof. reflexivity. Qed.

Lemma toLowerCase_app a b :
  toLowerCase (a +:+ b) = toLowerCase a +:+ toLowerCase b.
Proof.
  induction a as [|c a IH]; [reflexivity |].
  rewrite append_cons. cbn [toLowerCase]. now rewrite append_cons, IH.
Qed.

Lemma mentions_app c a b : mentions c (a +:+ b) = mentions c a || mentions c b.
Proof.
  induction a as [|c' a IH]; [reflexivity |].
  rewrite append_cons. cbn [mentions]. now rewrite IH, orb_assoc.
Qed.

Lemma prefix_needs_head c sub s :
  String.prefix (String c sub) s = true -> mentions c s = true.
Proof.
  destruct s as [|c' s]; cbn; [discriminate |].
  destruct (ascii_dec c c') as [-> | Hne]; [| discriminate].
  intros _. now rewrite Ascii.eqb_refl.
Qed.

Lemma includes_needs_head c sub s :
  mentions c s = false -> includes s (String c sub) = false.
Proof.
  induction s as [|c' s IH]; intros Hno.
  - reflexivity.
  - cbn [includes].
    destruct (String.prefix (String c sub) (String c' s)) eqn:Hprefix.
    + apply prefix_needs_head in Hprefix. congruence.
    + cbn [orb]. apply IH. cbn in Hno. now apply orb_false_elim in Hno.
Qed.

Lemma prefix_app sub s t :
  String.prefix sub s = true -> String.prefix sub (s +:+ t) = true.
Proof.
  revert s. induction sub as [|c sub IH]; intros s.
  { intros _. destruct (s +:+ t); reflexivity. }
  destruct s as [|c' s]; [discriminate |].
  rewrite append_cons. cbn [String.prefix].
  destruct (ascii_dec c c'); [apply IH | discriminate].
Qed.

Lemma includes_app_l s t sub :
  includes s sub = true -> includes (s +:+ t) sub = true.
Proof.
  induction s as [|c s IH]; intros Hin.
  - cbn in Hin. rewrite orb_false_r in Hin.
    destruct sub; [| discriminate]. rewrite append_nil. destruct t; reflexivity.
  - cbn [includes] in Hin. apply orb_true_iff in Hin.
    rewrite append_cons. cbn [includes].
    apply orb_true_iff. destruct Hin as [Hprefix | Hrest].
    + left. now apply (prefix_app sub (String c s) t).
    + right. now apply IH.
Qed.

Lemma digits_have_no_c d :
  mentions "c" (toLowerCase (NilEmpty.string_of_uint d)) = false.
Proof.
  induction d; cbn [NilEmpty.string_of_uint toLowerCase mentions];
    [reflexivity | rewrite IHd; reflexivity ..].
Qed.

Lemma number_has_no_c d :
  mentions "c" (toLowerCase (NilZero.string_of_uint d)) = false.
Proof. destruct d; try reflexivity; apply digits_have_no_c. Qed.

Lemma ofZ_has_no_c z : mentions "c" (toLowerCase (ofZ z)) = false.
Proof.
  unfold ofZ. destruct (Z.to_int z) as [d | d]; cbn.
  - apply number_has_no_c.
  - apply number_has_no_c.
Qed.

Lemma race_timer_is_a_timeout cfg :
  classifyError (message (timeoutError cfg)) = TIMEOUT_ERROR.
Proof.
  unfold timeoutError, newError, classifyError. cbn [message].
  rewrite !toLowerCase_app.
  set (number := toLowerCase (ofZ (operationTimeout cfg))).
  assert (Hno : mentions "c" (toLowerCase "Operation timeout after "
                              +:+ number +:+ toLowerCase "ms") = false).
  { rewrite !mentions_app. subst number. rewrite ofZ_has_no_c. reflexivity. }
  rewrite (includes_needs_head "c" "onnection" _ Hno).
  rewrite (includes_needs_head "c" "onnect" _ Hno).
  cbn [orb].
  rewrite (includes_app_l (toLowerCase "Operation timeout after ")
                          (number +:+ toLowerCase "ms") "timeout" eq_refl).
  reflexivity.
Qed.

Lemma try_times_out cfg env m :
  circuitBreakerState m <> OPEN ->
  neverInTime cfg env ->
  tryOperation cfg env m
  = (advance (operationTimeout cfg) (noteInvocation (operationTimeout cfg) m),
     inr (timeoutError cfg)).
Proof.
  intros Hne Hslow. unfold tryOperation.
  rewrite (check_not_open cfg m Hne). unfold raceOperation.
  specialize (Hslow (invocations m)).
  destruct (operation env (invocations m)) as [v after | e after |].
  - destruct (Z.ltb_spec after (operationTimeout cfg)); [lia | reflexivity].
  - destruct (Z.ltb_spec after (operationTimeout cfg)); [lia | reflexivity].
  - reflexivity.
Qed.

Lemma timeouts_from cfg env :
  neverInTime cfg env ->
  forall n fuel m ctx,
    (retryAttempt ctx + n = 3)%nat ->
    (n < fuel)%nat ->
    circuitBreakerState m <> OPEN ->
    (failureCount m + n < circuitBreakerThreshold cfg)%nat ->
    let r := executeWithErrorHandling fuel cfg env m ctx in
    snd r = Thrown (timeoutRetriesError cfg) /\
    invocations (fst r) = (invocations m + S n)%nat /\
    failureCount (fst r) = (failureCount m + S n)%nat /\
    circuitBreakerState (fst r)
    = (if (circuitBreakerThreshold cfg <=? failureCount m + S n)%nat
       then OPEN else circuitBreakerState m) /\
    clock (fst r)
    = clock m + Z.of_nat (S n) * Z.max 0 (operationTimeout cfg)
      + 1000 * (Z.of_nat n * Z.of_nat (retryAttempt ctx)
                + Z.of_nat (n * (n + 1) / 2)).
Proof.
  intros Hslow.
  induction n as [|n IH]; intros fuel m ctx Hattempt Hfuel Hne Hbelow r; subst r;
    (destruct fuel as [|fuel]; [lia |]);
    rewrite execute_unfold, (try_times_out cfg env m Hne Hslow);
    unfold handleOperationFailure;
    set (m1 := recordFailure cfg (timeoutError cfg) ctx _);
    assert (Hstate1 : circuitBreakerState m1
                      = if (circuitBreakerThreshold cfg <=? S (failureCount m))%nat
                        then OPEN else circuitBreakerState m)
      by (subst m1; rewrite recordFailure_breaker; reflexivity);
    assert (Hfc1 : failureCount m1 = S (failureCount m))
      by (subst m1; rewrite recordFailure_failureCount; reflexivity);
    assert (Hinv1 : invocations m1 = S (invocations m))
      by (subst m1; rewrite recordFailure_invocations; reflexivity);
    assert (Hclock1 : clock m1 = clock m + Z.max 0 (operationTimeout cfg))
      by (subst m1; rewrite recordFailure_clock; reflexivity);
    unfold dispatchFailure; rewrite race_timer_is_a_timeout;
    unfold handleTimeoutError.
  - assert (Hat : retryAttempt ctx = 3%nat) by lia. rewrite Hat.
    cbn [Nat.ltb Nat.leb fst snd]. rewrite Hinv1, Hfc1, Hstate1, Hclock1.
    replace (failureCount m + 1)%nat with (S (failureCount m)) by lia.
    repeat split; try lia. cbn. lia.
  - destruct (Nat.ltb_spec 3 (S (retryAttempt ctx))); [lia |].
    destruct (Nat.leb_spec (circuitBreakerThreshold cfg) (S (failureCount m)));
      [lia |].
    set (m2 := sleep _ m1). set (ctx2 := mkContext _ _).
    specialize (IH fuel m2 ctx2). cbn zeta in IH.
    destruct IH as (I1 & I2 & I3 & I4 & I5).
    + subst ctx2. cbn. lia.
    + lia.
    + subst m2. cbn. congruence.
    + subst m2. cbn. lia.
    + rewrite I1, I2, I3, I4, I5. subst m2 ctx2. cbn [sleep advance log
        invocations failureCount circuitBreakerState clock retryAttempt].
      rewrite Hinv1, Hfc1, Hstate1, Hclock1.
      replace (S (failureCount m) + S n)%nat with (failureCount m + S (S n))%nat
        by lia.
      repeat split; try lia.
      assert (Hsum : (S n * (S n + 1) / 2 = n * (n + 1) / 2 + S n)%nat).
      { replace (S n * (S n + 1))%nat with (n * (n + 1) + S n * 2)%nat by lia.
        now rewrite Nat.div_add by lia. }
      rewrite Hsum. lia.
Qed.

(** X7. An operation that does not settle before the race timer. When
    no invocation settles within [operationTimeout], a call made with a
    fresh context while the breaker is not OPEN and stays closed during
    the run races the operation exactly four times (the call and three
    retries), whatever [maxRetries] is: the error of the timer,
    "Operation timeout after <operationTimeout>ms", is classified as a
    timeout for every value of [operationTimeout]. The call throws
    "Timeout retries exceeded: ..." after four timers and waits of 1, 2
    and 3 seconds, and has counted four failures; the fourth opens the
    breaker when it reaches the threshold. *)
Theorem unsettled_operation_is_raced_four_times cfg env m :
  neverInTime cfg env ->
  circuitBreakerState m <> OPEN ->
  (failureCount m + 3 < circuitBreakerThreshold cfg)%nat ->
  let r := execute cfg env m freshContext in
  classifyError (message (timeoutError cfg)) = TIMEOUT_ERROR /\
  snd r = Thrown (timeoutRetriesError cfg) /\
  attemptsExactly cfg env m 4 /\
  failureCount (fst r) = (failureCount m + 4)%nat /\
  circuitBreakerState (fst r)
  = (if (circuitBreakerThreshold cfg <=? failureCount m + 4)%nat
     then OPEN else circuitBreakerState m) /\
  clock (fst r) = clock m + 4 * Z.max 0 (operationTimeout cfg) + 6000.
Proof.
  intros Hslow Hne Hbelow. cbn zeta.
  destruct (timeouts_from cfg env Hslow 3 (enoughFuel cfg freshContext) m freshContext)
    as (H1 & H2 & H3 & H4 & H5); try assumption; try reflexivity.
  { unfold enoughFuel. cbn. lia. }
  fold (execute cfg env m freshContext) in H1, H2, H3, H4, H5.
  split; [apply race_timer_is_a_timeout |].
  split; [exact H1 |]. split; [unfold attemptsExactly; rewrite H2; lia |].
  split; [exact H3 |]. split; [exact H4 |].
  rewrite H5. cbn. lia.
Qed.

(** *** Graceful degradation *)

(** X8. [executeWithGracefulDegradation] consults the fallback exactly
    when the primary call throws: a value of the primary call is
    returned without calling the fallback; after a throw the fallback
    is called, its value is returned when it resolves, and when it
    rejects the caller receives the error of the primary call, not the
    error of the fallback. In particular, a primary call that is
    admitted and whose operation resolves in time returns its value.
    While the circuit is open, and provided no backoff of a retry is
    longer than [circuitBreakerTimeout] (with a positive [retryDelay]:
    [circuitBreakerTimeout] is at least 30000 ms), the primary
    operation is not invoked and the fallback is called; its failure
    surfaces the circuit-open error. With a shorter breaker timeout
    the retry of the primary call may invoke the operation. *)
Theorem fallback_is_used_when_primary_fails cfg env m ctx fallback :
  let primary := execute cfg env m ctx in
  let r := executeWithGracefulDegradation cfg env fallback m ctx in
  snd primary <> OutOfFuel /\
  (forall v, snd primary = Returned v ->
             r = (fst primary, Some (Returned v), false)) /\
  (forall e, snd primary = Thrown e ->
             snd r = true /\
             snd (fst r) = match fallback with
                           | Resolves v _ => Some (Returned v)
                           | Rejects _ _ => Some (Thrown e)
                           | Pending => None
                           end) /\
  (forall v after,
      operation env (invocations m) = Resolves v after ->
      after < operationTimeout cfg ->
      circuitBreakerState m <> OPEN \/
      circuitBreakerTimeout cfg < clock m - lastFailureTime m ->
      r = (fst primary, Some (Returned v), false)) /\
  (retriesArriveWithinTimeout cfg env ->
   circuitBreakerState m = OPEN ->
   clock m - lastFailureTime m <= circuitBreakerTimeout cfg ->
   snd r = true /\
   invocations (fst (fst r)) = invocations m /\
   snd (fst r) = match fallback with
                 | Resolves v _ => Some (Returned v)
                 | Rejects _ _ => Some (Thrown circuitOpenError)
                 | Pending => None
                 end).
Proof.
  cbn zeta. unfold executeWithGracefulDegradation.
  split; [apply execute_completes |]. split; [| split; [| split]].
  - intros v Hret.
    destruct (execute cfg env m ctx) as [m1 c]. cbn [fst snd] in *. now subst c.
  - intros e Hthrown.
    destruct (execute cfg env m ctx) as [m1 c]. cbn [fst snd] in *. subst c.
    destruct fallback as [v after | e' after |]; now split.
  - intros v after Hop Hfast Hadmitted.
    destruct (admitted_call_succeeds cfg env m ctx v after Hop Hfast Hadmitted)
      as (Hret & _).
    destruct (execute cfg env m ctx) as [m1 c]. cbn [fst snd] in *. now subst c.
  - intros Hwithin Hopen Hrecent.
    destruct (rejected_execute cfg env m ctx Hwithin Hopen Hrecent)
      as (_ & Hinv & _ & _ & Hthrown).
    destruct (execute cfg env m ctx) as [m1 c]. cbn [fst snd] in *. subst c.
    destruct fallback as [v after | e after |]; cbn; repeat split; exact Hinv.
Qed.

(** *** The backoff of the generic and connection retries *)


End Generic.

(** *** Chunks of a bulk operation *)

Lemma nth_error_nil_none {A : Type} (n : nat) : nth_error (@nil A) n = None.
Proof. destruct n; reflexivity. Qed.

Lemma chunksFrom_lookup {A : Type} (chunkSize : nat) :
  (0 < chunkSize)%nat ->
  forall fuel (rest : list A) i j,
    (length rest <= fuel)%nat ->
    (j < chunkSize)%nat ->
    match nth_error (chunksFrom fuel rest chunkSize) i with
    | Some chunk => nth_error chunk j
    | None => None
    end = nth_error rest (globalIndex chunkSize i j).
Proof.
  intros Hpos. unfold globalIndex.
  induction fuel as [|fuel IH]; intros rest i j Hlen Hj.
  - destruct rest; [| cbn in Hlen; lia].
    cbn. now rewrite !nth_error_nil_none.
  - destruct rest as [|x rest].
    + cbn. now rewrite !nth_error_nil_none.
    + cbn [chunksFrom]. destruct i as [|i].
      * cbn [nth_error Nat.mul Nat.add]. rewrite List.nth_error_firstn.
        destruct (Nat.ltb_spec j chunkSize); [reflexivity | lia].
      * cbn [nth_error]. rewrite IH.
        -- rewrite List.nth_error_skipn. f_equal. lia.
        -- rewrite List.length_skipn. cbn [length] in *. lia.
        -- exact Hj.
Qed.

Lemma chunksFrom_shape {A : Type} (chunkSize : nat) :
  (0 < chunkSize)%nat ->
  forall fuel (rest : list A),
    (length rest <= fuel)%nat ->
    concat (chunksFrom fuel rest chunkSize) = rest /\
    Forall (fun chunk => (1 <= length chunk <= chunkSize)%nat)
           (chunksFrom fuel rest chunkSize).
Proof.
  intros Hpos.
  induction fuel as [|fuel IH]; intros rest Hlen.
  - destruct rest; [| cbn in Hlen; lia]. split; [reflexivity | constructor].
  - destruct rest as [|x rest]; [split; [reflexivity | constructor] |].
    cbn [chunksFrom concat].
    destruct (IH (skipn chunkSize (x :: rest))) as [Hconcat Hall].
    { rewrite List.length_skipn. cbn [length] in *. lia. }
    split.
    + rewrite Hconcat. apply List.firstn_skipn.
    + constructor; [| exact Hall].
      rewrite List.length_firstn. cbn [length]. lia.
Qed.

(** X10. The chunks of [executeBulkOperations]. For a chunk size of at
    least one, [chunkArray] returns chunks that are not empty, hold at
    most [chunkSize] elements each and, put end to end, give the array
    back. The element at position [localIndex] of the chunk at position
    [chunkIndex] is the element of the array at
    [chunkIndex * chunkSize + localIndex], the [globalIndex] under which
    its result is stored; positions outside the chunks are positions
    outside the array. With a chunk size of zero the loop only ends for
    an empty array. *)
Theorem chunks_keep_every_operation_at_its_index {A : Type}
        (array : list A) (chunkSize : nat) :
  (0 < chunkSize)%nat ->
  exists chunks,
    chunkArray array chunkSize = Some chunks /\
    concat chunks = array /\
    Forall (fun chunk => (1 <= length chunk <= chunkSize)%nat) chunks /\
    (forall chunkIndex localIndex,
        (localIndex < chunkSize)%nat ->
        match nth_error chunks chunkIndex with
        | Some chunk => nth_error chunk localIndex
        | None => None
        end = nth_error array (globalIndex chunkSize chunkIndex localIndex)) /\
    (chunkArray array 0 = None <-> array <> []).
Proof.
  intros Hpos. exists (chunksFrom (length array) array chunkSize).
  destruct (chunksFrom_shape chunkSize Hpos (length array) array (le_n _))
    as [Hconcat Hall].
  split; [destruct chunkSize; [lia | reflexivity] |].
  split; [exact Hconcat |]. split; [exact Hall |]. split.
  - intros i j Hj. now apply chunksFrom_lookup.
  - destruct array; cbn; split; congruence.
Qed.

(** *** Runs of the concrete handlers *)

Lemma breaker_settles_witness :
  settled defaultConfig openedHandler /\
  (forall calls,
      settled defaultConfig (fst (executeAll defaultConfig healthyEnv calls
                                             openedHandler))).
Proof.
  assert (Hsettled : settled defaultConfig openedHandler)
    by (right; split; [reflexivity | cbn; lia]).
  split; [exact Hsettled |].
  apply (breaker_settles_between_calls defaultConfig healthyEnv openedHandler
                                       Hsettled).
Defined.

Lemma successful_call_witness :
  let r := execute defaultConfig healthyEnv cooledHandler freshContext in
  snd r = Returned 7%nat /\
  circuitBreakerState (fst r) = CLOSED /\
  failureCount (fst r) = 0%nat.
Proof.
  assert (Hcooled : circuitBreakerState cooledHandler <> OPEN \/
                    circuitBreakerTimeout defaultConfig
                    < clock cooledHandler - lastFailureTime cooledHandler)
    by (right; cbn; lia).
  pose proof (successful_call_closes_breaker defaultConfig healthyEnv cooledHandler
                freshContext 7%nat 5 eq_refl ltac:(cbn; lia) Hcooled) as H.
  cbn zeta in H. destruct H as (Hret & Hstate & Hcount & _).
  cbn zeta. split; [exact Hret |]. split; [exact Hstate | exact Hcount].
Defined.

Lemma retry_budget_witness :
  exists m' e,
    execute patientConfig throttledEnv (newHandler 0) freshContext = (m', Thrown e) /\
    attemptsExactly patientConfig throttledEnv (newHandler 0) 4 /\
    failureCount m' = 4%nat.
Proof.
  apply (retry_budget_is_exhausted patientConfig throttledEnv RATE_LIMIT_ERROR
                                   (newHandler 0)).
  - intros k. exists (mkError "429 Too Many Requests" (Some 2)), 3.
    split; [reflexivity |]. split; [reflexivity |]. vm_compute. reflexivity.
  - discriminate.
  - cbn. lia.
Defined.

Lemma not_retried_witness :
  snd (execute defaultConfig invalidEnv bruisedHandler freshContext)
  = Thrown (newError "Invalid document: key is required") /\
  snd (execute defaultConfig corruptEnv bruisedHandler freshContext)
  = Thrown (newError "Data corruption detected: checksum mismatch in page 7").
Proof.
  split.
  - apply (validation_and_corruption_are_not_retried defaultConfig invalidEnv
             bruisedHandler freshContext
             (newError "Invalid document: key is required") 1);
      [discriminate | reflexivity | reflexivity | vm_compute; reflexivity].
  - apply (validation_and_corruption_are_not_retried defaultConfig corruptEnv
             bruisedHandler freshContext
             (newError "checksum mismatch in page 7") 1);
      [discriminate | reflexivity | reflexivity | vm_compute; reflexivity].
Defined.

Lemma breaker_opens_witness :
  let calls := [(0, freshContext); (10, freshContext); (10, freshContext)] in
  circuitBreakerState
    (fst (executeAll defaultConfig invalidEnv calls bruisedHandler)) = OPEN /\
  invocations (fst (executeAll defaultConfig invalidEnv calls bruisedHandler))
  = 3%nat.
Proof.
  cbn zeta.
  destruct (breaker_opens_at_threshold defaultConfig invalidEnv bruisedHandler
              [(0, freshContext); (10, freshContext); (10, freshContext)])
    as (Hopen & Hinv & _).
  - intros k. exists (newError "Invalid document: key is required"), 1.
    split; [reflexivity |]. split; [reflexivity |]. vm_compute. reflexivity.
  - reflexivity.
  - discriminate.
  - reflexivity.
  - split; [exact Hopen | exact Hinv].
Defined.

Lemma unsettled_operation_witness :
  snd (execute defaultConfig hangingEnv (newHandler 0) freshContext)
  = Thrown (timeoutRetriesError defaultConfig) /\
  attemptsExactly defaultConfig hangingEnv (newHandler 0) 4 /\
  clock (fst (execute defaultConfig hangingEnv (newHandler 0) freshContext))
  = 46000.
Proof.
  destruct (unsettled_operation_is_raced_four_times defaultConfig hangingEnv
              (newHandler 0))
    as (_ & Hthrown & Hattempts & _ & _ & Hclock).
  - intros k. exact I.
  - discriminate.
  - cbn. lia.
  - split; [exact Hthrown |]. split; [exact Hattempts | exact Hclock].
Defined.

Lemma fallback_witness :
  let r := executeWithGracefulDegradation defaultConfig healthyEnv
             (Resolves 0%nat 2) openedHandler freshContext in
  snd r = true /\
  invocations (fst (fst r)) = 0%nat /\
  snd (fst r) = Some (Returned 0%nat).
Proof.
  cbn zeta.
  destruct (fallback_is_used_when_primary_fails defaultConfig healthyEnv
              openedHandler freshContext (Resolves 0%nat 2))
    as (_ & _ & _ & _ & Hopen).
  apply Hopen.
  - apply cap_within. cbn. lia.
  - reflexivity.
  - cbn. lia.
Defined.


Lemma chunks_witness :
  exists chunks,
    chunkArray [1; 2; 3; 4; 5]%nat 2 = Some chunks /\
    concat chunks = [1; 2; 3; 4; 5]%nat.
Proof.
  destruct (chunks_keep_every_operation_at_its_index [1; 2; 3; 4; 5]%nat 2)
    as (chunks & Hsome & Hconcat & _).
  - lia.
  - exists chunks. split; [exact Hsome | exact Hconcat].
Defined.

End EdgeCaseHandlerExtras.

(** ** The cache *)
Module JsMapFacts.
Import JsMap.

Section WithValues.
Context {V : Type}.
Implicit Types (m : JsMap.t V) (k : string) (v : V).

Lemma get_set_eq k v m : get k (set k v m) = Some v.
Proof.
  induction m as [|[k' v'] rest IH]; cbn.
  - now rewrite String.eqb_refl.
  - destruct (String.eqb_spec k k') as [-> | Hne]; cbn.
    + now rewrite String.eqb_refl.
    + destruct (String.eqb_spec k k'); [contradiction | exact IH].
Qed.


Lemma get_delete_eq k m : get k (delete k m) = None.
Proof.
  induction m as [|[k' v'] rest IH]; cbn; [reflexivity |].
  destruct (String.eqb_spec k k') as [-> | Hne]; [exact IH |].
  cbn. destruct (String.eqb_spec k k'); [contradiction | exact IH].
Qed.

Lemma get_delete_ne k k' m : k <> k' -> get k' (delete k m) = get k' m.
Proof.
  intros Hne. induction m as [|[k0 v0] rest IH]; cbn; [reflexivity |].
  destruct (String.eqb_spec k k0) as [-> | Hne0]; cbn.
  - destruct (String.eqb_spec k' k0); [congruence | exact IH].
  - destruct (String.eqb_spec k' k0); [reflexivity | exact IH].
Qed.

Lemma has_get k m : has k m = true <-> exists v, get k m = Some v.
Proof.
  unfold has. destruct (get k m) as [v |].
  - split; [eauto | reflexivity].
  - split; [discriminate | intros [v Hv]; discriminate].
Qed.

Lemma get_none_not_in k m : get k m = None <-> ~ In k (keys m).
Proof.
  induction m as [|[k' v'] rest IH]; cbn.
  - tauto.
  - destruct (String.eqb_spec k k') as [-> | Hne].
    + split; [discriminate | intros H; exfalso; apply H; now left].
    + rewrite IH. split.
      * intros H [Heq | Hin]; [congruence | contradiction].
      * intros H Hin. apply H. now right.
Qed.

Lemma size_set_new k v m : get k m = None -> size (set k v m) = S (size m).
Proof.
  unfold size. induction m as [|[k' v'] rest IH]; cbn; [reflexivity |].
  destruct (String.eqb_spec k k'); [discriminate |].
  intros Hnone. cbn. now rewrite IH.
Qed.

Lemma size_set_old k v m :
  get k m <> None -> size (set k v m) = size m.
Proof.
  unfold size. induction m as [|[k' v'] rest IH]; cbn; [congruence |].
  destruct (String.eqb_spec k k'); [reflexivity |].
  intros Hsome. cbn. now rewrite IH.
Qed.

Lemma in_keys_get k m : In k (keys m) <-> get k m <> None.
Proof.
  pose proof (get_none_not_in k m) as H.
  destruct (get k m) as [v |].
  - split; [discriminate |]. intros _.
    destruct (in_dec string_dec k (keys m)) as [Hin | Hout]; [exact Hin |].
    apply H in Hout. discriminate.
  - split; [| congruence]. intros Hin. now apply H in Hin.
Qed.

Lemma keys_set k v m :
  keys (set k v m) = if has k m then keys m else keys m ++ [k].
Proof.
  unfold has, keys. induction m as [|[k' v'] rest IH]; cbn; [reflexivity |].
  destruct (String.eqb_spec k k') as [-> | Hne]; cbn; [reflexivity |].
  rewrite IH. now destruct (get k rest).
Qed.

Lemma keys_delete k m :
  keys (delete k m) = List.filter (fun k' => negb (String.eqb k k')) (keys m).
Proof.
  unfold keys. induction m as [|[k' v'] rest IH]; cbn; [reflexivity |].
  destruct (String.eqb_spec k k'); cbn; now rewrite IH.
Qed.

Lemma size_keys m : size m = length (keys m).
Proof. unfold size, keys. now rewrite length_map. Qed.

Lemma delete_absent k m : ~ In k (keys m) -> delete k m = m.
Proof.
  induction m as [|[k' v'] rest IH]; cbn; [reflexivity |].
  intros Hout. destruct (String.eqb_spec k k') as [-> | Hne].
  - exfalso. apply Hout. now left.
  - rewrite IH; [reflexivity |]. intros Hin. apply Hout. now right.
Qed.

Lemma size_delete_present k m :
  List.NoDup (keys m) -> In k (keys m) -> S (size (delete k m)) = size m.
Proof.
  unfold size. induction m as [|[k' v'] rest IH]; cbn; [contradiction |].
  intros Hnodup Hin. inversion Hnodup as [|x xs Hfresh Hrest]; subst.
  destruct (String.eqb_spec k k') as [-> | Hne].
  - now rewrite delete_absent.
  - destruct Hin as [Heq | Hin]; [congruence |]. cbn. now rewrite IH.
Qed.

End WithValues.
End JsMapFacts.

Module StreamCacheProofs.
Import JsTruthy JsMap JsMapFacts StreamCache.

Example scenario_keeps_a_and_c :
  cache scenarioCache = [("a", 1%nat); ("c", 3%nat)].
Proof. reflexivity. Qed.

Section WithValues.
Context {Value : Type}.
Implicit Types (c : Cache Value) (key : string) (now : Z).

(** C6. [getFromCache] returns [null] when the cache has no entry for
    the key; when the entry's [timestamp + ttl] is before [now] it
    returns [null] and removes the key from the cache and from the
    metadata; in every other case it returns the stored value and
    leaves the cached values as they are. This holds whatever the
    stored [ttl] is, so for every [ttl >= 0]; and an entry written by
    [updateCache] at time [written] is read back at time [now] unless
    [written + ttl * 1000 < now], where [ttl] is in seconds. *)
Theorem getFromCache_respects_ttl key now c :
  (get key (cache c) = None ->
   getFromCache key now c = (c, None)) /\
  (forall v metadata,
      get key (cache c) = Some v ->
      get key (cacheMetadata c) = Some metadata ->
      timestamp metadata + ttl metadata < now ->
      snd (getFromCache key now c) = None /\
      get key (cache (fst (getFromCache key now c))) = None /\
      get key (cacheMetadata (fst (getFromCache key now c))) = None) /\
  (forall v,
      get key (cache c) = Some v ->
      (forall metadata,
          get key (cacheMetadata c) = Some metadata ->
          ~ timestamp metadata + ttl metadata < now) ->
      snd (getFromCache key now c) = Some v /\
      cache (fst (getFromCache key now c)) = cache c) /\
  (forall cfg data ttlOption written evictNow,
      enableCache cfg = true ->
      snd (getFromCache key now
             (updateCache cfg key data ttlOption written evictNow c))
      = if written + orElse ttlOption (cacheTTL cfg) * 1000 <? now
        then None else Some data).
Proof.
  split; [| split; [| split]].
  - intros Hnone. unfold getFromCache, has. now rewrite Hnone.
  - intros v metadata Hv Hmeta Hexpired.
    unfold getFromCache, has. rewrite Hv, Hmeta. cbn [negb].
    destruct (Z.ltb_spec (timestamp metadata + ttl metadata) now); [| lia].
    cbn. now rewrite !get_delete_eq.
  - intros v Hv Hfresh. unfold getFromCache, has. rewrite Hv. cbn [negb].
    destruct (get key (cacheMetadata c)) as [metadata |] eqn:Hmeta.
    + specialize (Hfresh metadata eq_refl).
      destruct (Z.ltb_spec (timestamp metadata + ttl metadata) now); [lia |].
      cbn. split; reflexivity.
    + cbn. split; reflexivity.
  - intros cfg data ttlOption written evictNow Henabled.
    unfold updateCache. rewrite Henabled. cbn [negb].
    set (c1 := if (_ <=? _)%nat then _ else _).
    unfold getFromCache, has. cbn [cache cacheMetadata].
    rewrite !get_set_eq. cbn [negb timestamp ttl].
    destruct (_ <? _); reflexivity.
Qed.

End WithValues.

Lemma getFromCache_respects_ttl_witness :
  snd (getFromCache "a" 400000
         (updateCache tinyConfig "a" 1%nat None 10 10 emptyCache)) = None /\
  get "a" (cache (fst (getFromCache "a" 400000
         (updateCache tinyConfig "a" 1%nat None 10 10 emptyCache)))) = None /\
  snd (getFromCache "a" 30
         (updateCache tinyConfig "a" 1%nat None 10 10 emptyCache)) = Some 1%nat /\
  getFromCache "zz" 30 (@emptyCache nat) = (emptyCache, None).
Proof.
  pose (c := updateCache tinyConfig "a" 1%nat None 10 10 emptyCache).
  destruct (getFromCache_respects_ttl "a" 400000 c) as (_ & Hexpired & _ & _).
  destruct (Hexpired 1%nat (mkMetadata 10 300000 1 10) eq_refl eq_refl)
    as (Hnull & Hgone & _); [cbn; lia |].
  destruct (getFromCache_respects_ttl "a" 30 c) as (_ & _ & Hfresh & _).
  destruct (Hfresh 1%nat eq_refl) as (Hvalue & _).
  { intros metadata Hmeta. injection Hmeta as <-. cbn. lia. }
  destruct (getFromCache_respects_ttl "zz" 30 (@emptyCache nat)) as (Habsent & _).
  split; [exact Hnull |]. split; [exact Hgone |].
  split; [exact Hvalue |]. exact (Habsent eq_refl).
Defined.

(** *** Eviction *)

Section Eviction.
Context {Value : Type}.
Implicit Types (c : Cache Value) (meta : JsMap.t Metadata).

Lemma scan_none_from acc meta :
  Forall (fun entry => snd acc <= lastAccess (snd entry)) meta ->
  fold_left
    (fun (a : option string * Z) (entry : string * Metadata) =>
       if lastAccess (snd entry) <? snd a
       then (Some (fst entry), lastAccess (snd entry)) else a)
    meta acc = acc.
Proof.
  revert acc. induction meta as [|entry rest IH]; intros acc Hall; cbn;
    [reflexivity |].
  inversion Hall as [|e r Hhead Htail]; subst.
  destruct (Z.ltb_spec (lastAccess (snd entry)) (snd acc)); [lia |].
  now apply IH.
Qed.

(** When no entry was accessed before the reading [now] of the clock,
    the scan finds no key and nothing is evicted. *)
Lemma evict_nothing_when_all_recent now c :
  Forall (fun entry => now <= lastAccess (snd entry)) (cacheMetadata c) ->
  evictOldestCacheEntry now c = c.
Proof.
  intros Hall. unfold evictOldestCacheEntry, scanOldest.
  now rewrite scan_none_from.
Qed.

(** The scan keeps the first entry whose [lastAccess] is the smallest
    among those below the starting time. *)
Lemma scan_from meta :
  forall acc : option string * Z,
    let r := fold_left
               (fun (a : option string * Z) (entry : string * Metadata) =>
                  if lastAccess (snd entry) <? snd a
                  then (Some (fst entry), lastAccess (snd entry)) else a)
               meta acc in
    snd r <= snd acc /\
    Forall (fun entry => snd r <= lastAccess (snd entry)) meta /\
    (r = acc \/
     exists key metadata,
       In (key, metadata) meta /\ r = (Some key, lastAccess metadata) /\
       lastAccess metadata < snd acc).
Proof.
  induction meta as [|[k md] rest IH]; intros acc r; subst r; cbn [fold_left].
  { split; [lia |]. split; [constructor | now left]. }
  cbn [fst snd].
  destruct (Z.ltb_spec (lastAccess md) (snd acc)) as [Hlt | Hge].
  - destruct (IH (Some k, lastAccess md)) as (Hle & Hall & Hwhich).
    cbn [snd] in Hle. split; [lia |]. split.
    + constructor; [exact Hle | exact Hall].
    + right. destruct Hwhich as [-> | (k' & md' & Hin & -> & Hlt')].
      * exists k, md. split; [now left |]. split; [reflexivity | exact Hlt].
      * exists k', md'. split; [now right |]. split; [reflexivity |].
        cbn [snd] in Hlt'. lia.
  - destruct (IH acc) as (Hle & Hall & Hwhich).
    split; [exact Hle |]. split.
    + constructor; [cbn [snd]; lia | exact Hall].
    + destruct Hwhich as [-> | (k' & md' & Hin & -> & Hlt')]; [now left |].
      right. exists k', md'. split; [now right |]. split; [reflexivity | exact Hlt'].
Qed.

(** When some entry was accessed before the reading [now] of the clock
    and no key is the empty string, [evictOldestCacheEntry] deletes one
    key from both maps, and no entry was accessed earlier than the
    evicted one. *)
Lemma evict_least_recent now c :
  wellFormed c ->
  Exists (fun entry => lastAccess (snd entry) < now) (cacheMetadata c) ->
  exists key metadata,
    In (key, metadata) (cacheMetadata c) /\
    Forall (fun entry => lastAccess metadata <= lastAccess (snd entry))
           (cacheMetadata c) /\
    evictOldestCacheEntry now c
    = mkCache (delete key (cache c)) (delete key (cacheMetadata c)) /\
    S (size (cache (evictOldestCacheEntry now c))) = size (cache c).
Proof.
  intros (Hkeys & Hnodup & Hnonempty) Hsome.
  unfold evictOldestCacheEntry, scanOldest.
  destruct (scan_from (cacheMetadata c) (None, now)) as (Hle & Hall & Hwhich).
  cbn [snd] in Hle, Hwhich.
  destruct Hwhich as [Hnone | (key & metadata & Hin & Hfound & Hlt)].
  - exfalso. rewrite Hnone in Hall. cbn [snd] in Hall.
    apply List.Exists_exists in Hsome. destruct Hsome as (entry & Hentry & Hbefore).
    rewrite List.Forall_forall in Hall. specialize (Hall entry Hentry). lia.
  - rewrite Hfound in Hall |- *. cbn [fst snd] in Hall |- *.
    assert (Hkey : In key (keys (cache c))).
    { rewrite Hkeys. unfold keys. apply in_map_iff. now exists (key, metadata). }
    assert (Hne : key <> EmptyString).
    { rewrite List.Forall_forall in Hnonempty. now apply Hnonempty. }
    unfold truthyKey.
    destruct (String.eqb_spec key "") as [Hempty | _]; [contradiction |].
    exists key, metadata. split; [exact Hin |]. split; [exact Hall |].
    split; [reflexivity |]. cbn [cache]. now apply size_delete_present.
Qed.

Lemma keys_aligned_has key c :
  keys (cache c) = keys (cacheMetadata c) ->
  has key (cache c) = has key (cacheMetadata c).
Proof.
  intros Hkeys. unfold has.
  pose proof (in_keys_get key (cache c)) as Hc.
  pose proof (in_keys_get key (cacheMetadata c)) as Hm.
  rewrite Hkeys in Hc.
  destruct (get key (cache c)), (get key (cacheMetadata c)); try reflexivity.
  - exfalso. apply Hm; [apply Hc; discriminate | reflexivity].
  - exfalso. apply Hc; [apply Hm; discriminate | reflexivity].
Qed.

Lemma wellFormed_delete key c :
  wellFormed c ->
  wellFormed (mkCache (delete key (cache c)) (delete key (cacheMetadata c))).
Proof.
  intros (Hkeys & Hnodup & Hnonempty). unfold wellFormed. cbn [cache cacheMetadata].
  rewrite !keys_delete, Hkeys. split; [reflexivity |]. split.
  - rewrite <- Hkeys. now apply List.NoDup_filter.
  - rewrite <- Hkeys. rewrite List.Forall_forall in Hnonempty |- *.
    intros k Hk. apply List.filter_In in Hk. now apply Hnonempty.
Qed.

Lemma wellFormed_set key (data : Value) metadata c :
  key <> EmptyString ->
  wellFormed c ->
  wellFormed (mkCache (set key data (cache c)) (set key metadata (cacheMetadata c))).
Proof.
  intros Hne (Hkeys & Hnodup & Hnonempty). unfold wellFormed. cbn [cache cacheMetadata].
  rewrite !keys_set, <- (keys_aligned_has key c Hkeys), <- Hkeys.
  destruct (has key (cache c)) eqn:Hhas.
  - repeat split; assumption.
  - split; [reflexivity |]. split.
    + apply List.NoDup_app; [exact Hnodup | repeat constructor; intros [] |].
      intros k Hk [<- | []].
      apply in_keys_get in Hk. unfold has in Hhas.
      destruct (get key (cache c)); [discriminate | congruence].
    + apply List.Forall_app. split; [exact Hnonempty | now repeat constructor].
Qed.

Lemma size_set_le key (data : Value) (m : JsMap.t Value) :
  (size (set key data m) <= S (size m))%nat /\
  (has key m = true -> size (set key data m) = size m).
Proof.
  unfold has. destruct (get key m) as [v |] eqn:Hget.
  - rewrite size_set_old by congruence. split; [lia | reflexivity].
  - rewrite size_set_new by assumption. split; [lia | discriminate].
Qed.

Lemma accessedBy_delete t key c :
  accessedBy t c ->
  accessedBy t (mkCache (delete key (cache c)) (delete key (cacheMetadata c))).
Proof.
  unfold accessedBy. cbn [cacheMetadata].
  induction (cacheMetadata c) as [|[k md] rest IH]; intros Hall; cbn; [constructor |].
  inversion Hall as [|e r Hhead Htail]; subst.
  destruct (String.eqb key k); [now apply IH | constructor; [exact Hhead | now apply IH]].
Qed.

Lemma accessedBy_set t key (data : Value) metadata c :
  accessedBy t c -> lastAccess metadata <= t ->
  accessedBy t (mkCache (set key data (cache c)) (set key metadata (cacheMetadata c))).
Proof.
  unfold accessedBy. cbn [cacheMetadata]. intros Hall Hnew.
  induction (cacheMetadata c) as [|[k md] rest IH]; cbn.
  - now repeat constructor.
  - inversion Hall as [|e r Hhead Htail]; subst.
    destruct (String.eqb key k); constructor; try assumption.
    now apply IH.
Qed.

Lemma accessedBy_later t t' c : accessedBy t c -> t <= t' -> accessedBy t' c.
Proof.
  unfold accessedBy. intros Hall Hle.
  eapply List.Forall_impl; [| exact Hall]. cbn. intros entry. lia.
Qed.

(** One write that reads the clock after every earlier access keeps the
    maps well formed and the cache within [cacheSize]; a write that finds
    the cache full evicts one entry first. *)
Lemma updateCache_within_capacity cfg key (data : Value) ttlOption now evictNow t c :
  enableCache cfg = true ->
  (1 <= cacheSize cfg)%nat ->
  key <> EmptyString ->
  t < now -> now <= evictNow ->
  wellFormed c -> accessedBy t c ->
  (size (cache c) <= cacheSize cfg)%nat ->
  let c' := updateCache cfg key data ttlOption now evictNow c in
  wellFormed c' /\ accessedBy now c' /\ (size (cache c') <= cacheSize cfg)%nat.
Proof.
  intros Henabled Hpositive Hkey Hlater Hevict Hwf Haccess Hsize.
  unfold updateCache. rewrite Henabled. cbn [negb].
  destruct (Nat.leb_spec (cacheSize cfg) (size (cache c))) as [Hfull | Hroom].
  - assert (Hsome : Exists (fun entry => lastAccess (snd entry) < evictNow)
                           (cacheMetadata c)).
    { destruct Hwf as (Hkeys & _ & _).
      rewrite size_keys, Hkeys in Hfull. unfold accessedBy in Haccess.
      destruct (cacheMetadata c) as [|entry rest].
      - exfalso. cbn in Hfull. lia.
      - inversion Haccess as [|e r Hhead Htail]; subst.
        constructor. lia. }
    destruct (evict_least_recent evictNow c Hwf Hsome)
      as (victim & metadata & _ & _ & Hevicted & Hless).
    rewrite Hevicted in Hless |- *. cbn [cache] in Hless.
    pose proof (wellFormed_delete victim c Hwf) as Hwf1.
    pose proof (accessedBy_delete t victim c Haccess) as Haccess1.
    set (c1 := mkCache (delete victim (cache c)) (delete victim (cacheMetadata c))) in *.
    split; [now apply wellFormed_set |]. split.
    + apply accessedBy_set; [| cbn; lia]. apply (accessedBy_later t); [exact Haccess1 | lia].
    + cbn [cache]. destruct (size_set_le key data (cache c1)) as [Hle _].
      subst c1. cbn [cache] in Hle |- *. lia.
  - split; [now apply wellFormed_set |]. split.
    + apply accessedBy_set; [| cbn; lia]. apply (accessedBy_later t); [exact Haccess | lia].
    + cbn [cache]. destruct (size_set_le key data (cache c)) as [Hle _]. lia.
Qed.

(** While the clock moves on between the writes, any series of writes
    keeps the cache within [cacheSize]. *)
Lemma updateAll_within_capacity cfg (writes : list (string * Value * Z * Z)) :
  enableCache cfg = true ->
  (1 <= cacheSize cfg)%nat ->
  forall t c,
    clockAdvances t writes ->
    wellFormed c -> accessedBy t c ->
    (size (cache c) <= cacheSize cfg)%nat ->
    (size (cache (updateAll cfg writes c)) <= cacheSize cfg)%nat.
Proof.
  intros Henabled Hpositive.
  induction writes as [|[[[key data] now] evictNow] rest IH];
    intros t c Hclock Hwf Haccess Hsize; [exact Hsize |].
  destruct Hclock as (Hkey & Hlater & Hevict & Hrest).
  unfold updateAll. cbn [fold_left]. fold (updateAll cfg rest).
  destruct (updateCache_within_capacity cfg key data None now evictNow t c)
    as (Hwf1 & Haccess1 & Hsize1); try assumption.
  now apply (IH now).
Qed.

End Eviction.

(** C3, evaluated. With [cacheSize] = 100, the smallest value that
    [validateConfig] accepts, 101 writes to distinct keys that all fall
    in the same millisecond leave 101 entries in the cache: at the 101st
    write the cache is at capacity, [evictOldestCacheEntry] finds no
    entry with [lastAccess] strictly before [Date.now()], and nothing is
    evicted. *)
Theorem burst_exceeds_cacheSize :
  let before := updateAll smallConfig (burst 100 5000) emptyCache in
  let after := updateAll smallConfig (burst 101 5000) emptyCache in
  NoDup (List.map (fun w => fst (fst (fst w))) (burst 101 5000)) /\
  size (cache before) = cacheSize smallConfig /\
  evictOldestCacheEntry 5000 before = before /\
  size (cache after) = 101%nat /\
  (cacheSize smallConfig < size (cache after))%nat.
Proof.
  cbn zeta.
  split; [apply (bool_decide_unpack _); vm_compute; exact I |].
  split; [vm_compute; reflexivity |].
  split; [vm_compute; reflexivity |].
  split; [vm_compute; reflexivity |].
  vm_compute. lia.
Qed.

End StreamCacheProofs.

(** ** The cache: eviction, expiry and removal *)
Module StreamCacheExtras.
Import JsTruthy JsMap JsMapFacts StreamCache StreamCacheProofs.

Section Lookups.
Context {V : Type}.
Implicit Types (m : JsMap.t V) (k : string) (v : V).




(** Whether some entry of [m] with key [k] satisfies [test], for a
    map that holds each key once. *)
Lemma existsb_get (test : V -> bool) k m :
  List.NoDup (keys m) ->
  existsb (fun entry => String.eqb (fst entry) k && test (snd entry)) m
  = match get k m with Some v => test v | None => false end.
Proof.
  induction m as [|[k0 v0] rest IH]; cbn; [reflexivity |].
  intros Hnodup. inversion Hnodup as [|x l Hout Hrest]; subst.
  rewrite (IH Hrest). rewrite (String.eqb_sym k0 k).
  destruct (String.eqb_spec k k0) as [-> | Hne]; cbn [andb orb]; [| reflexivity].
  apply (get_none_not_in k0 rest) in Hout. rewrite Hout. apply orb_false_r.
Qed.

End Lookups.

Section WithValues.
Context {Value : Type}.
Implicit Types (c : Cache Value).

(** *** Eviction *)


(** X12. The capacity of the cache. While the clock moves on between
    the writes (each write reads a later millisecond than the accesses
    before it), any series of [updateCache] calls on a cache that holds
    at most [cacheSize] entries leaves at most [cacheSize] entries, for
    every [cacheSize] of at least one. *)
Theorem cache_stays_within_cacheSize cfg (writes : list (string * Value * Z * Z)) t c :
  enableCache cfg = true ->
  (1 <= cacheSize cfg)%nat ->
  clockAdvances t writes ->
  wellFormed c -> accessedBy t c ->
  (size (cache c) <= cacheSize cfg)%nat ->
  (size (cache (updateAll cfg writes c)) <= cacheSize cfg)%nat.
Proof.
  intros Henabled Hpositive Hclock Hwf Haccess Hsize.
  now apply (updateAll_within_capacity cfg writes Henabled Hpositive t c).
Qed.


(** *** Expiry *)

Lemma cleanup_from now (entries : list (string * Metadata)) :
  forall c key,
    let c' := fold_left
                (fun (acc : Cache Value) (entry : string * Metadata) =>
                   if timestamp (snd entry) + ttl (snd entry) <? now
                   then mkCache (delete (fst entry) (cache acc))
                                (delete (fst entry) (cacheMetadata acc))
                   else acc)
                entries c in
    let swept :=
      existsb (fun entry => String.eqb (fst entry) key
                            && (timestamp (snd entry) + ttl (snd entry) <? now))
              entries in
    get key (cache c') = (if swept then None else get key (cache c)) /\
    get key (cacheMetadata c')
    = (if swept then None else get key (cacheMetadata c)) /\
    (wellFormed c -> wellFormed c').
Proof.
  induction entries as [|[k md] rest IH]; intros c key; cbn zeta.
  { cbn. split; [reflexivity | split; [reflexivity | trivial]]. }
  cbn [fold_left existsb fst snd].
  destruct (timestamp md + ttl md <? now) eqn:Hexpired.
  - specialize (IH (mkCache (delete k (cache c)) (delete k (cacheMetadata c))) key).
    cbn zeta in IH. destruct IH as (Hcache & Hmeta & Hwf).
    rewrite Hcache, Hmeta. cbn [cache cacheMetadata].
    split; [| split].
    + destruct (String.eqb_spec k key) as [-> | Hne]; cbn [andb orb].
      * rewrite get_delete_eq. now destruct (existsb _ rest).
      * now rewrite get_delete_ne.
    + destruct (String.eqb_spec k key) as [-> | Hne]; cbn [andb orb].
      * rewrite get_delete_eq. now destruct (existsb _ rest).
      * now rewrite get_delete_ne.
    + intros Hc. apply Hwf. now apply wellFormed_delete.
  - rewrite andb_false_r. cbn [orb]. apply IH.
Qed.

(** X14. The sweep of [cleanupExpiredCache] removes the entries whose
    time to live has passed, from the data and from the metadata, and
    nothing else: every other key keeps its data and its metadata, and
    the two maps stay aligned. *)
Theorem cleanup_removes_exactly_the_expired_entries now c key :
  wellFormed c ->
  let c' := cleanupExpiredCache now c in
  let expired :=
    match get key (cacheMetadata c) with
    | Some metadata => timestamp metadata + ttl metadata <? now
    | None => false
    end in
  get key (cache c') = (if expired then None else get key (cache c)) /\
  get key (cacheMetadata c')
  = (if expired then None else get key (cacheMetadata c)) /\
  wellFormed c' /\
  (size (cache c') <= size (cache c))%nat.
Proof.
  intros Hwf. cbn zeta. unfold cleanupExpiredCache.
  destruct (cleanup_from now (cacheMetadata c) c key) as (Hcache & Hmeta & Hkeep).
  cbn zeta in Hcache, Hmeta, Hkeep.
  assert (Hnodup : List.NoDup (keys (cacheMetadata c))).
  { destruct Hwf as (Hkeys & Hnodup & _). now rewrite <- Hkeys. }
  rewrite (existsb_get (fun md => timestamp md + ttl md <? now) key
                       (cacheMetadata c) Hnodup) in Hcache, Hmeta.
  split; [exact Hcache |]. split; [exact Hmeta |]. split; [now apply Hkeep |].
  set (c' := fold_left _ _ c) in *.
  specialize (Hkeep Hwf). destruct Hkeep as (_ & Hnodup' & _).
  rewrite !size_keys. apply NoDup_incl_length.
  - exact Hnodup'.
  - intros k Hk. apply in_keys_get in Hk. apply in_keys_get.
    destruct (cleanup_from now (cacheMetadata c) c k) as (Hget & _).
    cbn zeta in Hget. fold c' in Hget. rewrite Hget in Hk.
    now destruct (existsb _ (cacheMetadata c)).
Qed.

(** *** Removal *)

(** X15. Two ways in which a key leaves the cache. [delete] removes the
    data and the metadata of the key, so the two maps stay aligned. A
    'deleted' change of a watched key handled by [handleKeyChange]
    removes the data only: the key is no longer served, but its metadata
    stays behind, and the metadata then has one entry more than the
    data. *)
Theorem deleted_change_leaves_metadata_behind cfg key now evictNow readAt c :
  wellFormed c ->
  get key (cache c) <> None ->
  let removed := deleteCached cfg key c in
  let changed := handleKeyChange cfg true key None true now evictNow c in
  (enableCache cfg = true ->
   get key (cache removed) = None /\
   get key (cacheMetadata removed) = None /\
   wellFormed removed) /\
  get key (cache changed) = None /\
  snd (getFromCache key readAt changed) = None /\
  cacheMetadata changed = cacheMetadata c /\
  (forall k, k <> key -> get k (cache changed) = get k (cache c)) /\
  size (cacheMetadata changed) = S (size (cache changed)) /\
  ~ wellFormed changed.
Proof.
  intros Hwf Hcached. cbn zeta.
  assert (Hchanged : handleKeyChange cfg true key None true now evictNow c
                     = mkCache (delete key (cache c)) (cacheMetadata c)).
  { unfold handleKeyChange. cbn [negb]. now destruct (enableCache cfg). }
  rewrite Hchanged. cbn [cache cacheMetadata].
  assert (Hsize : size (cacheMetadata c) = S (size (delete key (cache c)))).
  { destruct Hwf as (Hkeys & Hnodup & _).
    rewrite (size_delete_present key (cache c) Hnodup).
    - now rewrite !size_keys, Hkeys.
    - now apply in_keys_get. }
  split; [| split; [| split; [| split; [| split; [| split]]]]].
  - intros Henabled. unfold deleteCached. rewrite Henabled. cbn [cache cacheMetadata].
    rewrite !get_delete_eq.
    split; [reflexivity |]. split; [reflexivity |]. now apply wellFormed_delete.
  - apply get_delete_eq.
  - unfold getFromCache, has. cbn [cache]. now rewrite get_delete_eq.
  - reflexivity.
  - intros k Hk. now apply get_delete_ne.
  - exact Hsize.
  - intros (Hkeys' & _). cbn [cache cacheMetadata] in Hkeys'.
    apply (f_equal (@length string)) in Hkeys'.
    rewrite <- !size_keys in Hkeys'. lia.
Qed.

End WithValues.

(** *** The configuration *)

(** X16. A configuration that [validateConfig] accepts gives, with the
    defaults of [init], a [cacheSize] between 100 and 100000 (10000 when
    it is missing or zero) and a [maxConnections] between 1 and 1000 (50
    when it is missing or zero); its [dbType] is "mongodb" or "mysql" in
    any capitalisation. With such a configuration and the cache enabled,
    writes between which the clock moves on never take the cache, empty
    at first, above [cacheSize]. *)
Theorem accepted_config_bounds_the_cache (config : StreamInit.RawConfig) :
  StreamInit.validateConfig config = None ->
  let cfg := StreamInit.cacheConfig config in
  StreamInit.initConfig config = inr cfg /\
  100 <= Z.of_nat (cacheSize cfg) <= 100000 /\
  (StreamInit.outside 100 100000 (StreamInit.cacheSize config) = false) /\
  (StreamInit.cacheSize config = None \/ StreamInit.cacheSize config = Some 0 ->
   cacheSize cfg = Z.to_nat 10000) /\
  1 <= StreamInit.poolSize config <= 1000 /\
  (exists name, StreamInit.dbType config = Some name /\
                (JsString.toLowerCase name = "mongodb"
                 \/ JsString.toLowerCase name = "mysql")) /\
  (forall (writes : list (string * nat * Z * Z)) t,
      enableCache cfg = true ->
      clockAdvances t writes ->
      (size (cache (updateAll cfg writes emptyCache)) <= cacheSize cfg)%nat).
Proof.
  intros Hvalid. cbn zeta.
  assert (Hinit : StreamInit.initConfig config
                  = inr (StreamInit.cacheConfig config))
    by (unfold StreamInit.initConfig; now rewrite Hvalid).
  unfold StreamInit.validateConfig in Hvalid.
  destruct (StreamInit.knownDbType (StreamInit.dbType config)) eqn:Hdb;
    [| discriminate].
  cbn [negb] in Hvalid.
  destruct (_ || _ || _ || _); [discriminate |].
  destruct (StreamInit.outside 1 1000 (StreamInit.maxConnections config)) eqn:Hpool;
    [discriminate |].
  destruct (StreamInit.outside 100 100000 (StreamInit.cacheSize config)) eqn:Hcache;
    [discriminate |].
  assert (Hsize : 100 <= Z.of_nat (cacheSize (StreamInit.cacheConfig config))
                  <= 100000).
  { unfold StreamInit.cacheConfig, StreamInit.outside, orElse in *. cbn [cacheSize].
    destruct (StreamInit.cacheSize config) as [n |]; [| lia].
    destruct (Z.eqb_spec n 0); [lia |]. cbn [negb andb] in Hcache.
    apply orb_false_elim in Hcache. destruct Hcache as [Hlo Hhi].
    apply Z.ltb_ge in Hlo, Hhi. lia. }
  split; [exact Hinit |]. split; [exact Hsize |]. split; [reflexivity |].
  split; [| split; [| split]].
  - unfold StreamInit.cacheConfig, orElse. cbn [cacheSize].
    intros [-> | ->]; reflexivity.
  - unfold StreamInit.poolSize, StreamInit.outside, orElse in *.
    destruct (StreamInit.maxConnections config) as [n |]; [| lia].
    destruct (Z.eqb_spec n 0); [lia |]. cbn [negb andb] in Hpool.
    apply orb_false_elim in Hpool. destruct Hpool as [Hlo Hhi].
    apply Z.ltb_ge in Hlo, Hhi. lia.
  - unfold StreamInit.knownDbType, truthyKey in Hdb.
    destruct (StreamInit.dbType config) as [name |]; [| discriminate].
    exists name. split; [reflexivity |].
    destruct (String.eqb name ""); [discriminate |].
    apply orb_true_iff in Hdb. destruct Hdb as [H | H];
      apply String.eqb_eq in H; [now left | now right].
  - intros writes t Henabled Hclock.
    apply (updateAll_within_capacity _ writes Henabled ltac:(lia) t emptyCache);
      [exact Hclock | | constructor | cbn; lia].
    repeat split; constructor.
Qed.

(** *** Concrete caches *)

Lemma fullCache_wellFormed : wellFormed fullCache.
Proof.
  split; [reflexivity |]. split.
  - apply NoDup_ListNoDup, (bool_decide_unpack _). vm_compute. exact I.
  - repeat constructor; discriminate.
Qed.


Lemma cache_stays_within_witness :
  (size (cache (updateAll tinyConfig spacedWrites fullCache)) <= 2)%nat.
Proof.
  apply (cache_stays_within_cacheSize tinyConfig spacedWrites 20 fullCache).
  - reflexivity.
  - vm_compute. lia.
  - vm_compute. repeat split; try discriminate.
  - exact fullCache_wellFormed.
  - repeat constructor; vm_compute; discriminate.
  - vm_compute. lia.
Defined.


Lemma cleanup_witness :
  get "a" (cache (cleanupExpiredCache 300015 fullCache)) = None /\
  get "b" (cache (cleanupExpiredCache 300015 fullCache)) = Some 2%nat.
Proof.
  split.
  - destruct (cleanup_removes_exactly_the_expired_entries
                300015 fullCache "a" fullCache_wellFormed) as (H & _).
    exact H.
  - destruct (cleanup_removes_exactly_the_expired_entries
                300015 fullCache "b" fullCache_wellFormed) as (H & _).
    exact H.
Defined.

Lemma deleted_change_witness :
  get "a" (cache (handleKeyChange tinyConfig true "a" None true 50 50 fullCache))
  = None /\
  get "a" (cacheMetadata
             (handleKeyChange tinyConfig true "a" None true 50 50 fullCache))
  = Some (mkMetadata 10 300000 1 10).
Proof.
  destruct (deleted_change_leaves_metadata_behind
              tinyConfig "a" 50 50 60 fullCache fullCache_wellFormed)
    as (_ & Hgone & _ & Hmeta & _).
  - discriminate.
  - split; [exact Hgone |]. rewrite Hmeta. reflexivity.
Defined.

Lemma accepted_config_witness :
  StreamInit.initConfig StreamInit.minimalConfig = inr defaultConfig /\
  100 <= Z.of_nat (cacheSize (StreamInit.cacheConfig StreamInit.minimalConfig))
  <= 100000.
Proof.
  destruct (accepted_config_bounds_the_cache StreamInit.minimalConfig eq_refl)
    as (Hinit & Hsize & _).
  split; [exact Hinit | exact Hsize].
Defined.

End StreamCacheExtras.

(** ** The poller and the listener registry *)
Module HeartbeatSystemProofs.
Import JsTruthy HeartbeatSystem.

Section WithValues.
Context {Value : Type} (stringify : Value -> string).
Implicit Types (db : Db Value) (s : State Value) (key : string)
         (e : Effect Value).

(** *** The change detection of one key *)

Lemma hasDataChanged_same (doc : Snapshot Value) :
  hasDataChanged stringify (mkSnapshot (data doc) (lastModified doc)) doc = false.
Proof.
  unfold hasDataChanged. cbn.
  destruct (lastModified doc) as [t |].
  - rewrite Z.ltb_irrefl. now rewrite String.eqb_refl.
  - now rewrite String.eqb_refl.
Qed.

Lemma notify_at_most_one key payload changeType s :
  (length (notifyListeners key payload changeType s) <= 1)%nat.
Proof.
  unfold notifyListeners.
  destruct (listeners s !! key); [| cbn; lia].
  case_bool_decide; cbn; lia.
Qed.

(** After a check, the cache agrees with what was read. *)
Lemma cache_after_check db key s :
  let s1 := fst (checkKeyForChanges stringify db key s) in
  match readData db key with
  | ReadFails _ => True
  | ReadOk None => cache s1 !! key = None
  | ReadOk (Some current) =>
      exists cachedData,
        cache s1 !! key = Some cachedData /\
        hasDataChanged stringify cachedData current = false
  end.
Proof.
  cbn zeta. unfold checkKeyForChanges.
  destruct (readData db key) as [msg | [current |]]; [exact I | |].
  - destruct (cache s !! key) as [cachedData |] eqn:Hcached.
    + destruct (hasDataChanged stringify cachedData current) eqn:Hchanged.
      * cbn. rewrite lookup_insert_eq. eexists. split; [reflexivity |].
        apply hasDataChanged_same.
      * cbn. eauto.
    + cbn. rewrite lookup_insert_eq. eexists. split; [reflexivity |].
      apply hasDataChanged_same.
  - destruct (cache s !! key) as [cachedData |] eqn:Hcached.
    + cbn. apply lookup_delete_eq.
    + cbn. exact Hcached.
Qed.

(** A check that finds the cache in agreement with the read only reads. *)
Lemma check_when_in_agreement db key s :
  match readData db key with
  | ReadFails _ => True
  | ReadOk None => cache s !! key = None
  | ReadOk (Some current) =>
      exists cachedData,
        cache s !! key = Some cachedData /\
        hasDataChanged stringify cachedData current = false
  end ->
  checkKeyForChanges stringify db key s = (s, [ReadData key]).
Proof.
  unfold checkKeyForChanges.
  destruct (readData db key) as [msg | [current |]]; [reflexivity | |].
  - intros (cachedData & -> & ->). reflexivity.
  - intros ->. reflexivity.
Qed.

Lemma check_twice db key s :
  checkKeyForChanges stringify db key (fst (checkKeyForChanges stringify db key s))
  = (fst (checkKeyForChanges stringify db key s), [ReadData key]).
Proof. apply check_when_in_agreement, cache_after_check. Qed.

Lemma check_notifies_at_most_once db key s changeType :
  (length (List.filter (notifiesAs changeType)
             (snd (checkKeyForChanges stringify db key s))) <= 1)%nat.
Proof.
  unfold checkKeyForChanges.
  destruct (readData db key) as [msg | [current |]]; [cbn; lia | |];
    destruct (cache s !! key) as [cachedData |];
    try destruct (hasDataChanged stringify cachedData current);
    cbn [snd List.filter notifiesAs]; try (cbn; lia);
    (etransitivity; [apply List.filter_length_le | apply notify_at_most_one]).
Qed.

(** C4. Two consecutive reads of a key that return the same result:
    the second [checkKeyForChanges] notifies nobody (no created, no
    updated, no deleted event) and leaves the state, hence the cache
    entry, as the first one left it; over the two reads at most one
    created event is emitted. For a key with a callback and no cache
    entry, whose read returns a document, the two reads emit exactly
    one event in all, a created event carrying the document's data. *)
Theorem unchanged_read_is_silent db key s :
  let first := checkKeyForChanges stringify db key s in
  let second := checkKeyForChanges stringify db key (fst first) in
  fst second = fst first /\
  List.filter isNotify (snd second) = [] /\
  List.filter (notifiesAs updated) (snd second) = [] /\
  List.filter (notifiesAs created) (snd second) = [] /\
  (length (List.filter (notifiesAs created) (snd first ++ snd second)) <= 1)%nat /\
  (forall doc callbacks,
      readData db key = ReadOk (Some doc) ->
      cache s !! key = None ->
      listeners s !! key = Some callbacks ->
      callbacks <> ∅ ->
      List.filter isNotify (snd first ++ snd second)
      = [Notify key (Some (data doc)) created callbacks]).
Proof.
  cbn zeta. rewrite check_twice. cbn [fst snd].
  repeat split; try reflexivity.
  - rewrite List.filter_app. cbn [List.filter notifiesAs].
    rewrite app_nil_r. apply check_notifies_at_most_once.
  - intros doc callbacks Hdoc Hcached Hcallbacks Hnonempty.
    rewrite List.filter_app. cbn [List.filter isNotify]. rewrite app_nil_r.
    unfold checkKeyForChanges. rewrite Hdoc, Hcached. cbn.
    unfold notifyListeners. rewrite Hcallbacks.
    case_bool_decide as Hsize; [| reflexivity].
    apply size_empty_inv in Hsize. apply leibniz_equiv in Hsize.
    contradiction.
Qed.

(** C9. [setPollingInterval] with an interval below 100 throws
    "Polling interval must be a number >= 100ms", does nothing to the
    outside, and leaves the object as it was: the polling interval,
    the polling flag and its timer, the listeners and the cache. *)
Theorem setPollingInterval_rejects_short_interval db interval s :
  interval < 100 ->
  setPollingInterval stringify db interval s
  = (s, [], Some "Polling interval must be a number >= 100ms") /\
  let s' := fst (fst (setPollingInterval stringify db interval s)) in
  pollingInterval s' = pollingInterval s /\
  isPolling s' = isPolling s /\
  intervalId s' = intervalId s /\
  listeners s' = listeners s /\
  cache s' = cache s.
Proof.
  intros Hshort. unfold setPollingInterval.
  destruct (Z.ltb_spec interval 100); [| lia].
  cbn. repeat split.
Qed.

(** *** What the calls do to the listeners, and what they read *)

Lemma readKeys_app (e1 e2 : list (Effect Value)) :
  readKeys (e1 ++ e2) = readKeys e1 ++ readKeys e2.
Proof.
  induction e1 as [|e rest IH]; [reflexivity |].
  destruct e; cbn; now rewrite ?IH.
Qed.

Lemma readKeys_notify key payload changeType s :
  readKeys (notifyListeners key payload changeType s) = [].
Proof.
  unfold notifyListeners. destruct (listeners s !! key); [| reflexivity].
  now case_bool_decide.
Qed.

Lemma stopPolling_spec s :
  let r := stopPolling s in
  listeners (fst r) = listeners s /\ cache (fst r) = cache s /\
  pollingInterval (fst r) = pollingInterval s /\
  isPolling (fst r) = false /\
  (isPolling s = true -> intervalId (fst r) = None) /\
  readKeys (snd r) = [].
Proof.
  unfold stopPolling. destruct (isPolling s) eqn:Hpolling; cbn.
  - destruct (intervalId s); cbn; repeat split.
  - repeat split; try assumption. discriminate.
Qed.

Lemma check_spec db key s :
  let r := checkKeyForChanges stringify db key s in
  listeners (fst r) = listeners s /\ isPolling (fst r) = isPolling s /\
  intervalId (fst r) = intervalId s /\
  pollingInterval (fst r) = pollingInterval s /\
  readKeys (snd r) = [key].
Proof.
  unfold checkKeyForChanges.
  destruct (readData db key) as [msg | [current |]];
    [cbn; repeat split | |];
    destruct (cache s !! key) as [cachedData |];
    try destruct (hasDataChanged stringify cachedData current);
    cbn [fst snd setCache listeners isPolling intervalId pollingInterval readKeys];
    rewrite ?readKeys_notify; repeat split.
Qed.

Lemma checkKeys_spec db keysToCheck :
  forall s,
    let r := checkKeys stringify db keysToCheck s in
    listeners (fst r) = listeners s /\ isPolling (fst r) = isPolling s /\
    intervalId (fst r) = intervalId s /\
    pollingInterval (fst r) = pollingInterval s /\
    readKeys (snd r) = keysToCheck.
Proof.
  induction keysToCheck as [|key rest IH]; intros s; [cbn; repeat split |].
  cbn [checkKeys].
  destruct (check_spec db key s) as (H1 & H2 & H3 & H4 & H5).
  destruct (checkKeyForChanges stringify db key s) as [s1 e1].
  destruct (IH s1) as (I1 & I2 & I3 & I4 & I5).
  destruct (checkKeys stringify db rest s1) as [s2 e2].
  cbn [fst snd] in *. rewrite readKeys_app, H5, I5.
  repeat split; congruence.
Qed.

Lemma poll_spec db s :
  let r := poll stringify db s in
  listeners (fst r) = listeners s /\
  pollingInterval (fst r) = pollingInterval s /\
  readKeys (snd r) = (if isConnected db then watchedKeys s else []) /\
  (isConnected db = true -> watchedKeys s <> [] ->
   isPolling (fst r) = isPolling s /\ intervalId (fst r) = intervalId s) /\
  (isConnected db = false ->
   isPolling (fst r) = false /\ cache (fst r) = cache s /\
   (isPolling s = true -> intervalId (fst r) = None)).
Proof.
  unfold poll. destruct (isConnected db); cbn [negb].
  - set (s1 := mkState _ _ _ _ _ _).
    change (watchedKeys s1) with (watchedKeys s).
    destruct (watchedKeys s) as [|key rest] eqn:Hkeys.
    + destruct (stopPolling_spec s1) as (H1 & H2 & H3 & H4 & H5 & H6).
      cbn zeta in *. repeat split; try assumption; try congruence;
        try discriminate.
    + destruct (checkKeys_spec db (key :: rest) s1) as (H1 & H2 & H3 & H4 & H5).
      cbn zeta in *. repeat split; try assumption; try discriminate.
  - destruct (stopPolling_spec s) as (H1 & H2 & H3 & H4 & H5 & H6).
    cbn zeta in *. repeat split; try assumption; try discriminate.
Qed.

Lemma startPolling_spec db s :
  let r := fst (startPolling stringify db s) in
  listeners (fst r) = listeners s /\
  pollingInterval (fst r) = pollingInterval s /\
  readKeys (snd r)
  = (if isPolling s then [] else if isConnected db then watchedKeys s else []) /\
  (isPolling s = false -> isConnected db = true -> watchedKeys s <> [] ->
   isPolling (fst r) = true).
Proof.
  unfold startPolling. destruct (isPolling s) eqn:Hpolling.
  { cbn. repeat split. discriminate. }
  destruct (isConnected db) eqn:Hconnected; cbn [negb].
  2:{ cbn. repeat split. discriminate. }
  set (s1 := mkState _ _ _ _ _ _).
  destruct (poll_spec db s1) as (H1 & H2 & H3 & H4 & H5).
  destruct (poll stringify db s1) as [s2 e2].
  cbn [fst snd readKeys] in *. rewrite Hconnected in H3.
  repeat split; try assumption.
  intros _ _ Hkeys. now destruct (H4 Hconnected Hkeys) as [-> _].
Qed.

Lemma timerFires_spec db s :
  let r := timerFires stringify db s in
  listeners (fst r) = listeners s /\
  pollingInterval (fst r) = pollingInterval s /\
  (forall key, key ∈ readKeys (snd r) -> key ∈ watchedKeys s).
Proof.
  unfold timerFires. destruct (intervalId s).
  - destruct (poll_spec db s) as (H1 & H2 & H3 & _).
    cbn zeta in *. repeat split; try assumption.
    intros key. rewrite H3. destruct (isConnected db); [easy |].
    intros Hin. inversion Hin.
  - cbn. repeat split. intros key Hin. inversion Hin.
Qed.

Lemma removeListener_listeners key callback s :
  listeners (fst (removeListener key callback s))
  = listenersAfter (CallRemoveListener key callback) (listeners s) /\
  readKeys (snd (removeListener key callback s)) = [].
Proof.
  unfold removeListener. cbn [listenersAfter].
  set (s1 := match listeners s !! key with Some _ => _ | None => s end).
  assert (Hs1 : listeners s1 =
                match listeners s !! key with
                | Some callbacks =>
                    if bool_decide (size (callbacks ∖ {[callback]}) = 0%nat)
                    then delete key (listeners s)
                    else <[key := callbacks ∖ {[callback]}]> (listeners s)
                | None => listeners s
                end).
  { subst s1. destruct (listeners s !! key); [| reflexivity].
    now case_bool_decide. }
  destruct (stopPolling_spec s1) as (H1 & _ & _ & _ & _ & H6).
  case_bool_decide; cbn [fst snd readKeys]; split; congruence.
Qed.

Lemma removeAll_listeners (target : option string) s :
  listeners (fst (removeAllListeners target s))
  = listenersAfter (CallRemoveAllListeners target) (listeners s) /\
  readKeys (snd (removeAllListeners target s)) = [].
Proof.
  unfold removeAllListeners. cbn [listenersAfter].
  set (s1 := match truthyKey target with Some _ => _ | None => _ end).
  assert (Hs1 : listeners s1 =
                match truthyKey target with
                | Some k => delete k (listeners s)
                | None => ∅
                end).
  { subst s1. now destruct (truthyKey target). }
  destruct (stopPolling_spec s1) as (H1 & _ & _ & _ & _ & H6).
  case_bool_decide; cbn [fst snd readKeys]; split; congruence.
Qed.

Lemma step_listeners db call s :
  listeners (fst (step stringify db call s)) = listenersAfter call (listeners s).
Proof.
  destruct call as [key callback | key callback | key | interval | | | |];
    cbn [step listenersAfter].
  - unfold addListener.
    set (s1 := setListeners _ s).
    destruct (isPolling s1) eqn:Hpolling; cbn [negb]; [reflexivity |].
    now destruct (startPolling_spec db s1) as (-> & _).
  - apply removeListener_listeners.
  - apply removeAll_listeners.
  - unfold setPollingInterval. destruct (interval <? 100); [reflexivity |].
    set (s1 := mkState interval _ _ _ _ _).
    destruct (isPolling s1); [| reflexivity].
    destruct (stopPolling_spec s1) as (H1 & _).
    destruct (stopPolling s1) as [s2 e2].
    destruct (startPolling_spec db s2) as (H2 & _).
    destruct (startPolling stringify db s2) as [[s3 e3] thrown].
    cbn [fst snd] in *. now rewrite H2, H1.
  - now destruct (startPolling_spec db s) as (-> & _).
  - now destruct (stopPolling_spec s) as (-> & _).
  - unfold destroy.
    destruct (stopPolling_spec s) as (H1 & _).
    destruct (stopPolling s) as [s1 e1].
    destruct (removeAll_listeners None s1) as (H2 & _).
    destruct (removeAllListeners None s1) as [s2 e2].
    destruct (removeAll_listeners None s2) as (H3 & _).
    destruct (removeAllListeners None s2) as [s3 e3].
    cbn [fst snd listenersAfter truthyKey] in *. exact H3.
  - now destruct (timerFires_spec db s) as (-> & _).
Qed.

(** Whatever a call reads is a key that has a listener when the call
    returns. *)
Lemma step_reads_watched db call s key :
  key ∈ readKeys (snd (step stringify db call s)) ->
  key ∈ watchedKeys (fst (step stringify db call s)).
Proof.
  unfold watchedKeys. rewrite step_listeners.
  destruct call as [k callback | k callback | k | interval | | | |];
    cbn [step listenersAfter].
  - unfold addListener.
    set (s1 := setListeners _ s).
    destruct (isPolling s1) eqn:Hpolling; cbn [negb fst snd readKeys];
      [intros Hin; inversion Hin |].
    destruct (startPolling_spec db s1) as (_ & _ & -> & _).
    rewrite Hpolling.
    destruct (isConnected db); [easy | intros Hin; inversion Hin].
  - destruct (removeListener_listeners k callback s) as (_ & ->).
    intros Hin; inversion Hin.
  - destruct (removeAll_listeners k s) as (_ & ->).
    intros Hin; inversion Hin.
  - unfold setPollingInterval. destruct (interval <? 100);
      [intros Hin; inversion Hin |].
    set (s1 := mkState interval _ _ _ _ _).
    destruct (isPolling s1); [| intros Hin; inversion Hin].
    destruct (stopPolling_spec s1) as (H1 & _ & _ & H4 & _ & H6).
    destruct (stopPolling s1) as [s2 e2].
    destruct (startPolling_spec db s2) as (_ & _ & H3 & _).
    destruct (startPolling stringify db s2) as [[s3 e3] thrown].
    cbn [fst snd] in *. rewrite readKeys_app, H6, H3, H4. cbn [app].
    unfold watchedKeys. rewrite H1.
    destruct (isConnected db); [easy | intros Hin; inversion Hin].
  - destruct (startPolling_spec db s) as (_ & _ & -> & _).
    destruct (isPolling s); [intros Hin; inversion Hin |].
    destruct (isConnected db); [easy | intros Hin; inversion Hin].
  - destruct (stopPolling_spec s) as (_ & _ & _ & _ & _ & ->).
    intros Hin; inversion Hin.
  - unfold destroy.
    destruct (stopPolling_spec s) as (_ & _ & _ & _ & _ & H1).
    destruct (stopPolling s) as [s1 e1].
    destruct (removeAll_listeners None s1) as (_ & H2).
    destruct (removeAllListeners None s1) as [s2 e2].
    destruct (removeAll_listeners None s2) as (_ & H3).
    destruct (removeAllListeners None s2) as [s3 e3].
    cbn [fst snd] in *. rewrite !readKeys_app, H1, H2, H3.
    intros Hin; inversion Hin.
  - destruct (timerFires_spec db s) as (_ & _ & H). exact (H key).
Qed.

(** *** The registry *)

Lemma listenersAfter_callbacks call l :
  watchersHaveCallbacks l -> watchersHaveCallbacks (listenersAfter call l).
Proof.
  intros Hinv.
  destruct call as [key callback | key callback | target | interval | | | |];
    cbn [listenersAfter]; try exact Hinv.
  - intros k callbacks. rewrite lookup_insert. case_decide.
    + intros [= <-]. set_solver.
    + apply Hinv.
  - destruct (l !! key) as [existing |] eqn:Hexisting; [| exact Hinv].
    case_bool_decide as Hsize.
    + intros k callbacks. rewrite lookup_delete. case_decide; [discriminate |].
      apply Hinv.
    + intros k callbacks. rewrite lookup_insert. case_decide.
      * intros [= <-] Hempty. apply Hsize. rewrite Hempty. apply size_empty.
      * apply Hinv.
  - destruct (truthyKey target) as [k0 |].
    + intros k callbacks. rewrite lookup_delete. case_decide; [discriminate |].
      apply Hinv.
    + intros k callbacks. rewrite lookup_empty. discriminate.
  - intros k callbacks. rewrite lookup_empty. discriminate.
Qed.

Lemma run_callbacks history :
  forall s,
    watchersHaveCallbacks (listeners s) ->
    watchersHaveCallbacks (listeners (fst (run stringify history s))).
Proof.
  induction history as [|[db call] rest IH]; intros s Hinv; [exact Hinv |].
  cbn [run].
  pose proof (step_listeners db call s) as Hstep.
  destruct (step stringify db call s) as [s1 e1].
  specialize (IH s1).
  destruct (run stringify rest s1) as [s2 e2].
  cbn [fst] in *. apply IH. rewrite Hstep.
  now apply listenersAfter_callbacks.
Qed.

Lemma listenersAfter_unwatched key call l :
  l !! key = None -> ~ subscribesTo key call ->
  listenersAfter call l !! key = None.
Proof.
  intros Hnone Hcall.
  destruct call as [k callback | k callback | target | interval | | | |];
    cbn [listenersAfter subscribesTo] in *; try exact Hnone.
  - rewrite lookup_insert_ne; [exact Hnone | exact Hcall].
  - destruct (l !! k) as [existing |] eqn:Hexisting; [| exact Hnone].
    case_bool_decide.
    + rewrite lookup_delete. case_decide; [reflexivity | exact Hnone].
    + rewrite lookup_insert. case_decide; [congruence | exact Hnone].
  - destruct (truthyKey target) as [k0 |]; [| apply lookup_empty].
    rewrite lookup_delete. case_decide; [reflexivity | exact Hnone].
  - apply lookup_empty.
Qed.

(** A key without listeners is not read, and stays without listeners,
    until somebody subscribes to it. *)
Lemma run_unwatched key later :
  forall s,
    listeners s !! key = None ->
    Forall (fun c => ~ subscribesTo key (snd c)) later ->
    (key ∉ readKeys (snd (run stringify later s))) /\
    listeners (fst (run stringify later s)) !! key = None.
Proof.
  induction later as [|[db call] rest IH]; intros s Hnone Hcalls.
  { cbn. split; [apply not_elem_of_nil | exact Hnone]. }
  cbn [run].
  inversion Hcalls as [|c cs Hcall Hrest]; subst. cbn [snd] in Hcall.
  pose proof (step_listeners db call s) as Hstep.
  pose proof (step_reads_watched db call s key) as Hreads.
  destruct (step stringify db call s) as [s1 e1].
  cbn [fst snd] in Hstep, Hreads.
  assert (Hnone1 : listeners s1 !! key = None).
  { rewrite Hstep. now apply listenersAfter_unwatched. }
  destruct (IH s1 Hnone1 Hrest) as [Hlater Hfinal].
  destruct (run stringify rest s1) as [s2 e2]. cbn [fst snd] in *.
  split; [| exact Hfinal].
  rewrite readKeys_app. intros [Hin | Hin]%elem_of_app; [| contradiction].
  apply Hreads in Hin. unfold watchedKeys in Hin.
  apply elem_of_elements, elem_of_dom in Hin. rewrite Hnone1 in Hin.
  now destruct Hin.
Qed.

Lemma watched_iff_lookup s key :
  key ∈ statusWatchedKeys (getStatus s) <-> is_Some (listeners s !! key).
Proof.
  cbn. unfold watchedKeys. now rewrite elem_of_elements, elem_of_dom.
Qed.

(** C5. After any history of calls and timer firings on a new system, a
    key is among the watched keys that [getStatus] reports exactly when
    some callback is registered for it. When the last callback of a key
    is removed, by [removeListener] or by the function that
    [addListener] returned, the key leaves [this.listeners], its cache
    entry is deleted, [getStatus] no longer reports it, and whatever
    happens afterwards no read is issued for it until a new
    subscription to that key. *)
Theorem watcher_exists_iff_callback_registered
        (configured : option Z) (history : list (Db Value * Call)) :
  let s := fst (run stringify history (newSystem configured)) in
  (forall key,
      key ∈ statusWatchedKeys (getStatus s) <->
      exists callback, registered s key callback) /\
  (forall key callback,
      registered s key callback ->
      (forall other, registered s key other -> other = callback) ->
      let s' := fst (unsubscribe key callback s) in
      s' = fst (removeListener key callback s) /\
      listeners s' !! key = None /\
      cache s' !! key = None /\
      (key ∉ statusWatchedKeys (getStatus s')) /\
      (forall other, ~ registered s' key other) /\
      forall later,
        Forall (fun c => ~ subscribesTo key (snd c)) later ->
        (key ∉ readKeys (snd (run stringify later s'))) /\
        (key ∉ statusWatchedKeys (getStatus (fst (run stringify later s'))))).
Proof.
  cbn zeta.
  assert (Hinv : watchersHaveCallbacks
                   (listeners (fst (run stringify history (newSystem configured))))).
  { apply run_callbacks. intros key callbacks. cbn. rewrite lookup_empty.
    discriminate. }
  set (s := fst (run stringify history (newSystem configured))) in *.
  split.
  - intros key. rewrite watched_iff_lookup. split.
    + intros [callbacks Hlookup].
      destruct (set_choose_L callbacks (Hinv key callbacks Hlookup))
        as [callback Hin].
      exists callback, callbacks. split; assumption.
    + intros (callback & callbacks & Hlookup & _). now exists callbacks.
  - intros key callback (callbacks & Hlookup & Hin) Hlast.
    assert (Hremaining : callbacks ∖ {[callback]} = ∅).
    { apply set_eq. intros other. split; [| set_solver].
      intros [Hother Hne]%elem_of_difference. exfalso. apply Hne.
      apply elem_of_singleton, Hlast. now exists callbacks. }
    assert (Hafter : listeners (fst (removeListener key callback s)) !! key = None
                     /\ cache (fst (removeListener key callback s)) !! key = None).
    { unfold removeListener. rewrite Hlookup, Hremaining.
      rewrite size_empty, (bool_decide_eq_true_2 (0%nat = 0%nat) eq_refl).
      set (s1 := setCache _ _).
      destruct (stopPolling_spec s1) as (H1 & H2 & _).
      case_bool_decide; cbn [fst].
      - rewrite H1, H2. subst s1. cbn. now rewrite !lookup_delete_eq.
      - subst s1. cbn. now rewrite !lookup_delete_eq. }
    destruct Hafter as [Hlisteners Hcache]. unfold unsubscribe.
    split; [reflexivity |]. split; [exact Hlisteners |].
    split; [exact Hcache |]. split.
    { rewrite watched_iff_lookup, Hlisteners. now intros [x Hx]. }
    split.
    { intros other (cbs & Hcbs & _). congruence. }
    intros later Hlater.
    destruct (run_unwatched key later _ Hlisteners Hlater) as [Hreads Hfinal].
    split; [exact Hreads |].
    rewrite watched_iff_lookup, Hfinal. now intros [x Hx].
Qed.

(** *** Losing the connection *)

Lemma idle_timer s :
  intervalId s = None ->
  forall later,
    Forall (fun c : Db Value * Call => snd c = TimerFires) later ->
    run stringify later s = (s, []).
Proof.
  intros Hidle later. induction later as [|[db call] rest IH]; intros Hticks;
    [reflexivity |].
  inversion Hticks as [|c cs Hcall Hrest]; subst. cbn [snd] in Hcall. subst call.
  cbn [run step]. unfold timerFires. rewrite Hidle.
  now rewrite (IH Hrest).
Qed.

Lemma ticks_are_timer db n :
  Forall (fun c : Db Value * Call => snd c = TimerFires) (ticks db n).
Proof. unfold ticks. induction n; cbn; constructor; auto. Qed.

(** C8 (as amended). [poll] consults [isConnected()] first. A firing of
    the timer that finds the storage disconnected stops the polling: no
    key is read, [isPolling] becomes false, the interval is cleared,
    and the listeners and the cache are kept. From then on the timer
    does not fire, so nothing is read however the connection evolves:
    the polling does not resume by itself. It starts again at the next
    [addListener] made while the storage is connected, which reads the
    keys of all the listeners that were kept. *)
Theorem disconnected_tick_stops_polling db s period :
  isConnected db = false ->
  isPolling s = true ->
  intervalId s = Some period ->
  let s' := fst (timerFires stringify db s) in
  readKeys (snd (timerFires stringify db s)) = [] /\
  isPolling s' = false /\
  intervalId s' = None /\
  listeners s' = listeners s /\
  cache s' = cache s /\
  (forall later,
      Forall (fun c : Db Value * Call => snd c = TimerFires) later ->
      run stringify later s' = (s', [])) /\
  (forall db' key callback,
      isConnected db' = true ->
      let r := fst (addListener stringify db' key callback s') in
      isPolling (fst r) = true /\
      (key ∈ readKeys (snd r)) /\
      forall watched, watched ∈ watchedKeys s -> watched ∈ readKeys (snd r)).
Proof.
  intros Hdown Hpolling Hperiod. cbn zeta.
  unfold timerFires. rewrite Hperiod.
  destruct (poll_spec db s) as (H1 & H2 & H3 & _ & H5).
  destruct (H5 Hdown) as (Hstopped & Hcache & Hcleared).
  specialize (Hcleared Hpolling). rewrite Hdown in H3.
  set (s' := fst (poll stringify db s)) in *.
  split; [exact H3 |]. split; [exact Hstopped |]. split; [exact Hcleared |].
  split; [exact H1 |]. split; [exact Hcache |]. split.
  { now apply idle_timer. }
  intros db' key callback Hup. cbn zeta. unfold addListener.
  set (s1 := setListeners _ s').
  assert (Hidle : isPolling s1 = false) by exact Hstopped.
  rewrite Hidle. cbn [negb].
  assert (Hkey : key ∈ watchedKeys s1).
  { unfold watchedKeys. apply elem_of_elements, elem_of_dom.
    subst s1. cbn. rewrite lookup_insert_eq. eauto. }
  assert (Hkeys : watchedKeys s1 <> []).
  { intros Hnil. rewrite Hnil in Hkey. inversion Hkey. }
  destruct (startPolling_spec db' s1) as (_ & _ & Hreads & Hstarted).
  rewrite Hidle, Hup in Hreads. rewrite Hreads.
  split; [now apply Hstarted |]. split; [exact Hkey |].
  intros watched Hwatched. unfold watchedKeys in *.
  apply elem_of_elements, elem_of_dom in Hwatched.
  apply elem_of_elements, elem_of_dom. subst s1. cbn.
  rewrite H1. rewrite lookup_insert. case_decide; [eauto | exact Hwatched].
Qed.

End WithValues.

(** *** The concrete system *)

Example watching_state :
  isPolling watching = true /\ intervalId watching = Some 2000 /\
  listeners watching !! "orders" = Some {[1%nat]} /\
  cache watching !! "orders" = Some (mkSnapshot "new" (Some 1000)).
Proof. vm_compute. repeat split; reflexivity. Qed.

Example pending_state :
  isPolling pending = false /\
  listeners pending !! "orders" = Some {[1%nat]} /\
  cache pending !! "orders" = None.
Proof. vm_compute. repeat split; reflexivity. Qed.

Lemma unchanged_read_is_silent_witness :
  let first := checkKeyForChanges id ordersUp "orders" pending in
  let second := checkKeyForChanges id ordersUp "orders" (fst first) in
  fst second = fst first /\
  List.filter isNotify (snd first ++ snd second)
  = [Notify "orders" (Some "new") created {[1%nat]}].
Proof.
  destruct (unchanged_read_is_silent id ordersUp "orders" pending)
    as (Hsame & _ & _ & _ & _ & Hcreated).
  split; [exact Hsame |].
  apply (Hcreated (mkSnapshot "new" (Some 1000)) {[1%nat]}).
  - reflexivity.
  - vm_compute. reflexivity.
  - vm_compute. reflexivity.
  - intros Hempty. apply (not_elem_of_empty (C := gset nat) 1%nat).
    rewrite <- Hempty. now apply elem_of_singleton.
Defined.

Lemma setPollingInterval_rejects_short_interval_witness :
  setPollingInterval id ordersUp 50 watching
  = (watching, [], Some "Polling interval must be a number >= 100ms").
Proof.
  apply (setPollingInterval_rejects_short_interval id ordersUp 50 watching).
  lia.
Defined.

Lemma watcher_exists_iff_callback_registered_witness :
  listeners (fst (unsubscribe "orders" 1 watching)) !! "orders" = None /\
  cache (fst (unsubscribe "orders" 1 watching)) !! "orders" = None /\
  ("orders" ∉ readKeys (snd (run id (ticks ordersUp 3)
                                 (fst (unsubscribe "orders" 1 watching))))).
Proof.
  destruct (watcher_exists_iff_callback_registered id None
              [(ordersUp, CallAddListener "orders" 1)]) as [_ Hremove].
  change (fst (run id [(ordersUp, CallAddListener "orders" 1)] (newSystem None)))
    with watching in Hremove.
  destruct (Hremove "orders" 1%nat) as (_ & Hlisteners & Hcache & _ & _ & Hlater).
  - exists {[1%nat]}. split; [vm_compute; reflexivity | now apply elem_of_singleton].
  - intros other (callbacks & Hlookup & Hin).
    assert (Hset : callbacks = {[1%nat]}).
    { assert (H : listeners watching !! "orders" = Some {[1%nat]})
        by (vm_compute; reflexivity).
      congruence. }
    subst callbacks. now apply elem_of_singleton in Hin.
  - split; [exact Hlisteners |]. split; [exact Hcache |].
    apply Hlater. repeat constructor; cbn; tauto.
Defined.

Lemma disconnected_tick_stops_polling_witness :
  isPolling afterOutage = false /\
  intervalId afterOutage = None /\
  listeners afterOutage = listeners watching /\
  run id (ticks ordersUp 5) afterOutage = (afterOutage, []) /\
  isPolling (fst (fst (addListener id ordersUp "invoices" 2 afterOutage))) = true /\
  ("orders" ∈ readKeys (snd (fst (addListener id ordersUp "invoices" 2 afterOutage)))).
Proof.
  destruct (disconnected_tick_stops_polling id ordersDown watching 2000)
    as (_ & Hstopped & Hcleared & Hkept & _ & Hidle & Hrestart).
  - reflexivity.
  - vm_compute. reflexivity.
  - vm_compute. reflexivity.
  - split; [exact Hstopped |]. split; [exact Hcleared |].
    split; [exact Hkept |]. split; [apply Hidle, ticks_are_timer |].
    destruct (Hrestart ordersUp "invoices" 2%nat eq_refl) as (Hpolling & _ & Hreads).
    split; [exact Hpolling |]. apply Hreads.
    unfold watchedKeys. apply elem_of_elements, elem_of_dom.
    exists {[1%nat]}. vm_compute. reflexivity.
Defined.

(** C8 (as stated), refuted. Listener 1 watches "orders"; the timer
    fires once while the storage is disconnected. The listener is still
    registered and the storage is connected again, yet no later firing
    of the timer reads any key: the interval was cleared. *)
Lemma polling_does_not_resume_after_outage :
  registered afterOutage "orders" 1 /\
  isConnected ordersDown = false /\
  isConnected ordersUp = true /\
  readKeys (snd (timerFires id ordersUp watching)) = ["orders"] /\
  ~ resumesWhenReconnected id ordersUp afterOutage.
Proof.
  split.
  { exists {[1%nat]}. split; [vm_compute; reflexivity | now apply elem_of_singleton]. }
  split; [reflexivity |]. split; [reflexivity |].
  split; [vm_compute; reflexivity |].
  intros [n Hreads]. apply Hreads.
  rewrite (idle_timer id afterOutage); [reflexivity | | apply ticks_are_timer].
  vm_compute. reflexivity.
Qed.

End HeartbeatSystemProofs.

(** ** The poller: invariants, registration and restarts *)
Module HeartbeatSystemExtras.
Import JsTruthy HeartbeatSystem HeartbeatSystemProofs.

Section WithValues.
Context {Value : Type} (stringify : Value -> string).
Implicit Types (db : Db Value) (s : State Value) (key : string)
         (e : Effect Value).

(** *** The state between calls *)

Lemma watched_lookup s key :
  key ∈ watchedKeys s <-> is_Some (listeners s !! key).
Proof. unfold watchedKeys. now rewrite elem_of_elements, elem_of_dom. Qed.

Lemma watched_nil s : watchedKeys s = [] <-> listeners s = ∅.
Proof.
  unfold watchedKeys. rewrite elements_empty_iff.
  split; intros H.
  - apply dom_empty_inv_L. now apply leibniz_equiv.
  - rewrite H. now rewrite dom_empty_L.
Qed.

Lemma stopPolling_coherent s :
  intervalId s = (if isPolling s then Some (pollingInterval s) else None) ->
  (forall key, is_Some (cache s !! key) -> is_Some (listeners s !! key)) ->
  coherent (fst (stopPolling s)).
Proof.
  intros Htimer Hcache. unfold stopPolling.
  destruct (isPolling s) eqn:Hpolling; cbn [negb].
  - destruct (intervalId s); cbn; (split; [reflexivity |]);
      (split; [discriminate | exact Hcache]).
  - cbn [fst]. split; [now rewrite Hpolling |].
    split; [congruence | exact Hcache].
Qed.

Lemma check_cache_watched db key s :
  is_Some (listeners s !! key) ->
  (forall k, is_Some (cache s !! k) -> is_Some (listeners s !! k)) ->
  forall k,
    is_Some (cache (fst (checkKeyForChanges stringify db key s)) !! k) ->
    is_Some (listeners (fst (checkKeyForChanges stringify db key s)) !! k).
Proof.
  intros Hkey Hcache k.
  destruct (check_spec stringify db key s) as (-> & _).
  unfold checkKeyForChanges.
  destruct (readData db key) as [msg | [current |]]; [apply Hcache | |];
    destruct (cache s !! key) as [cachedData |] eqn:Hcached;
    try destruct (hasDataChanged stringify cachedData current);
    cbn [fst setCache cache]; try apply Hcache.
  - rewrite lookup_insert_is_Some. intros [<- | [_ H]]; [exact Hkey | now apply Hcache].
  - rewrite lookup_insert_is_Some. intros [<- | [_ H]]; [exact Hkey | now apply Hcache].
  - rewrite lookup_delete_is_Some. intros [_ H]. now apply Hcache.
Qed.

Lemma checkKeys_cache_watched db keysToCheck :
  forall s,
    Forall (fun key => is_Some (listeners s !! key)) keysToCheck ->
    (forall k, is_Some (cache s !! k) -> is_Some (listeners s !! k)) ->
    forall k,
      is_Some (cache (fst (checkKeys stringify db keysToCheck s)) !! k) ->
      is_Some (listeners s !! k).
Proof.
  induction keysToCheck as [|key rest IH]; intros s Hkeys Hcache k;
    [apply Hcache |].
  cbn [checkKeys].
  inversion Hkeys as [|x l Hkey Hrest]; subst.
  pose proof (check_cache_watched db key s Hkey Hcache) as Hcache1.
  destruct (check_spec stringify db key s) as (Hl & _).
  destruct (checkKeyForChanges stringify db key s) as [s1 e1].
  cbn [fst] in Hcache1, Hl.
  specialize (IH s1).
  destruct (checkKeys stringify db rest s1) as [s2 e2]. cbn [fst] in *.
  rewrite <- Hl. apply IH; [now rewrite Hl | exact Hcache1].
Qed.

Lemma poll_coherent db s :
  intervalId s = (if isPolling s then Some (pollingInterval s) else None) ->
  (forall key, is_Some (cache s !! key) -> is_Some (listeners s !! key)) ->
  coherent (fst (poll stringify db s)).
Proof.
  intros Htimer Hcache. unfold poll.
  destruct (isConnected db); cbn [negb]; [| now apply stopPolling_coherent].
  set (s1 := mkState _ _ _ _ _ _).
  change (watchedKeys s1) with (watchedKeys s).
  destruct (watchedKeys s) as [|key rest] eqn:Hkeys;
    [now apply stopPolling_coherent |].
  destruct (checkKeys_spec stringify db (key :: rest) s1) as (H1 & H2 & H3 & H4 & _).
  pose proof (checkKeys_cache_watched db (key :: rest) s1) as Hdom.
  cbn zeta in *.
  split; [| split].
  - rewrite H3, H2, H4. exact Htimer.
  - intros _. rewrite H1. cbn [s1 listeners]. intros Hempty.
    apply watched_nil in Hempty. congruence.
  - intros k Hk. rewrite H1. apply Hdom; [| exact Hcache | exact Hk].
    rewrite <- Hkeys. apply Forall_forall. intros k' Hk'.
    now apply (watched_lookup s k').
Qed.

Lemma startPolling_coherent db s :
  intervalId s = (if isPolling s then Some (pollingInterval s) else None) ->
  (isPolling s = true -> listeners s <> ∅) ->
  (forall key, is_Some (cache s !! key) -> is_Some (listeners s !! key)) ->
  coherent (fst (fst (startPolling stringify db s))).
Proof.
  intros Htimer Hsome Hcache. unfold startPolling.
  destruct (isPolling s) eqn:Hpolling.
  { cbn [fst]. split; [now rewrite Hpolling |]. split; [now rewrite Hpolling | exact Hcache]. }
  destruct (isConnected db); cbn [negb].
  - set (s1 := mkState _ true _ _ _ _).
    pose proof (poll_coherent db s1 eq_refl Hcache) as Hpoll.
    destruct (poll stringify db s1) as [s2 effects]. exact Hpoll.
  - cbn [fst]. split; [now rewrite Hpolling |].
    split; [congruence | exact Hcache].
Qed.

Lemma settle_coherent s :
  intervalId s = (if isPolling s then Some (pollingInterval s) else None) ->
  (forall key, is_Some (cache s !! key) -> is_Some (listeners s !! key)) ->
  coherent (fst (if bool_decide (size (listeners s) = 0%nat)
                 then stopPolling s else (s, []))).
Proof.
  intros Htimer Hcache. case_bool_decide as Hsize.
  - now apply stopPolling_coherent.
  - cbn [fst]. split; [exact Htimer |]. split; [| exact Hcache].
    intros _ Hempty. apply Hsize. rewrite Hempty. apply map_size_empty.
Qed.

Lemma step_coherent db call s :
  coherent s -> coherent (fst (step stringify db call s)).
Proof.
  intros (Htimer & Hsome & Hcache).
  destruct call as [key callback | key callback | target | interval | | | |];
    cbn [step].
  - unfold addListener. set (s1 := setListeners _ s).
    assert (Hcache1 : forall k, is_Some (cache s1 !! k) -> is_Some (listeners s1 !! k)).
    { intros k Hk. subst s1. cbn [setListeners listeners cache] in *.
      rewrite lookup_insert_is_Some.
      destruct (decide (key = k)); [now left | right; split; [assumption | now apply Hcache]]. }
    assert (Hsome1 : listeners s1 <> ∅)
      by (subst s1; cbn [setListeners listeners]; apply insert_non_empty).
    destruct (isPolling s1) eqn:Hpolling; cbn [negb fst].
    + split; [exact Htimer |]. split; [intros _; exact Hsome1 | exact Hcache1].
    + apply startPolling_coherent; [exact Htimer | intros _; exact Hsome1 | exact Hcache1].
  - unfold removeListener.
    set (s1 := match listeners s !! key with Some _ => _ | None => s end).
    apply settle_coherent.
    + subst s1. destruct (listeners s !! key); [| exact Htimer].
      case_bool_decide; exact Htimer.
    + subst s1. destruct (listeners s !! key) as [callbacks |] eqn:Hkey;
        [| exact Hcache].
      case_bool_decide; cbn [setCache setListeners cache listeners]; intros k.
      * rewrite !lookup_delete_is_Some. intros [Hne Hk]. split; [exact Hne | now apply Hcache].
      * intros Hk. rewrite lookup_insert_is_Some.
        destruct (decide (key = k)); [now left | right; split; [assumption | now apply Hcache]].
  - unfold removeAllListeners.
    set (s1 := match truthyKey target with Some _ => _ | None => _ end).
    apply settle_coherent.
    + subst s1. destruct (truthyKey target); exact Htimer.
    + subst s1. destruct (truthyKey target) as [k0 |];
        cbn [setCache setListeners cache listeners]; intros k.
      * rewrite !lookup_delete_is_Some. intros [Hne Hk]. split; [exact Hne | now apply Hcache].
      * rewrite lookup_empty. intros [x Hx]. discriminate.
  - unfold setPollingInterval. destruct (interval <? 100).
    { cbn [fst]. split; [exact Htimer |]. split; [exact Hsome | exact Hcache]. }
    set (s1 := mkState interval _ _ _ _ _).
    destruct (isPolling s1) eqn:Hpolling.
    + pose proof (stopPolling_spec s1) as (H1 & H2 & H3 & H4 & H5 & _).
      destruct (stopPolling s1) as [s2 e2]. cbn [fst] in *.
      pose proof (startPolling_coherent db s2) as Hstart.
      destruct (startPolling stringify db s2) as [[s3 e3] thrown]. cbn [fst] in *.
      apply Hstart.
      * rewrite H4. now apply H5.
      * rewrite H4. discriminate.
      * rewrite H1, H2. exact Hcache.
    + cbn [fst]. subst s1. cbn in Hpolling |- *. rewrite Hpolling in *.
      split; [exact Htimer |]. split; [discriminate | exact Hcache].
  - now apply startPolling_coherent.
  - now apply stopPolling_coherent.
  - unfold destroy.
    pose proof (stopPolling_coherent s Htimer Hcache) as (T1 & _ & C1).
    destruct (stopPolling s) as [s1 e1]. cbn [fst] in *.
    assert (Hall : forall s0,
               intervalId s0 = (if isPolling s0 then Some (pollingInterval s0) else None) ->
               (forall k, is_Some (cache s0 !! k) -> is_Some (listeners s0 !! k)) ->
               coherent (fst (removeAllListeners None s0))).
    { intros s0 T0 C0. unfold removeAllListeners. cbn [truthyKey].
      apply settle_coherent; [exact T0 |].
      cbn [setCache setListeners cache listeners]. intros k.
      rewrite lookup_empty. intros [x Hx]. discriminate. }
    pose proof (Hall s1 T1 C1) as (T2 & _ & C2).
    destruct (removeAllListeners None s1) as [s2 e2]. cbn [fst] in *.
    pose proof (Hall s2 T2 C2) as H3.
    destruct (removeAllListeners None s2) as [s3 e3]. exact H3.
  - unfold timerFires. destruct (intervalId s) eqn:Hid.
    + apply poll_coherent; [now rewrite Hid | exact Hcache].
    + cbn [fst]. split; [now rewrite Hid |]. split; [exact Hsome | exact Hcache].
Qed.

Lemma run_coherent history :
  forall s, coherent s -> coherent (fst (run stringify history s)).
Proof.
  induction history as [|[db call] rest IH]; intros s Hs; [exact Hs |].
  cbn [run].
  pose proof (step_coherent db call s Hs) as H1.
  destruct (step stringify db call s) as [s1 e1]. cbn [fst] in H1.
  specialize (IH s1 H1).
  destruct (run stringify rest s1) as [s2 e2]. exact IH.
Qed.

Lemma newSystem_coherent (configured : option Z) :
  coherent (newSystem (Value := Value) configured).
Proof.
  split; [reflexivity |]. split; [discriminate |].
  intros key. cbn. rewrite lookup_empty. intros [x Hx]. discriminate.
Qed.

(** *** Calls with reads in flight *)

Lemma step_is_stepWith db call s :
  step stringify db call s = stepWith (checkKeys stringify) db call s.
Proof. destruct call; reflexivity. Qed.

Lemma check_settles db key s :
  checkKeyForChanges stringify db key s
  = (fst (onReadSettled stringify (readData db key) key s),
     ReadData key :: snd (onReadSettled stringify (readData db key) key s)).
Proof.
  unfold checkKeyForChanges, onReadSettled.
  destruct (readData db key) as [msg | [current |]]; [reflexivity | |];
    destruct (cache s !! key) as [cachedData |];
    try destruct (hasDataChanged stringify cachedData current); reflexivity.
Qed.

Lemma onReadSettled_fields outcome key s :
  let r := onReadSettled stringify outcome key s in
  listeners (fst r) = listeners s /\ isPolling (fst r) = isPolling s /\
  intervalId (fst r) = intervalId s /\
  pollingInterval (fst r) = pollingInterval s /\
  readKeys (snd r) = [] /\
  (forall other, other <> key -> cache (fst r) !! other = cache s !! other).
Proof.
  unfold onReadSettled.
  destruct outcome as [msg | [current |]]; [cbn; repeat split | |];
    destruct (cache s !! key) as [cachedData |];
    try destruct (hasDataChanged stringify cachedData current);
    cbn [fst snd setCache listeners isPolling intervalId pollingInterval cache
         readKeys];
    rewrite ?readKeys_notify; repeat split;
    intros other Hother; now rewrite ?lookup_insert_ne, ?lookup_delete_ne.
Qed.

Lemma readKeys_issued (keysToCheck : list string) :
  readKeys (List.map (ReadData (Value := Value)) keysToCheck) = keysToCheck.
Proof. induction keysToCheck as [|key rest IH]; cbn; [reflexivity | now rewrite IH]. Qed.

Section AnyChecks.
Variable checks : Db Value -> list string -> State Value
                  -> State Value * list (Effect Value).
Hypothesis checks_keep : forall db keysToCheck s,
  listeners (fst (checks db keysToCheck s)) = listeners s /\
  isPolling (fst (checks db keysToCheck s)) = isPolling s /\
  intervalId (fst (checks db keysToCheck s)) = intervalId s /\
  pollingInterval (fst (checks db keysToCheck s)) = pollingInterval s.

Lemma stopPolling_timer s :
  intervalId s = (if isPolling s then Some (pollingInterval s) else None) ->
  timerCoherent (fst (stopPolling s)).
Proof.
  intros Htimer. unfold stopPolling.
  destruct (isPolling s) eqn:Hpolling; cbn [negb].
  - destruct (intervalId s); cbn; (split; [reflexivity | discriminate]).
  - cbn [fst]. split; [now rewrite Hpolling | congruence].
Qed.

Lemma pollWith_timer db s :
  intervalId s = (if isPolling s then Some (pollingInterval s) else None) ->
  timerCoherent (fst (pollWith checks db s)).
Proof.
  intros Htimer. unfold pollWith.
  destruct (isConnected db); cbn [negb]; [| now apply stopPolling_timer].
  set (s1 := mkState _ _ _ _ _ _).
  change (watchedKeys s1) with (watchedKeys s).
  destruct (watchedKeys s) as [|key rest] eqn:Hkeys;
    [now apply stopPolling_timer |].
  destruct (checks_keep db (key :: rest) s1) as (H1 & H2 & H3 & H4).
  split.
  - rewrite H3, H2, H4. exact Htimer.
  - intros _. rewrite H1. cbn [s1 listeners]. intros Hempty.
    apply watched_nil in Hempty. congruence.
Qed.

Lemma pollWith_listeners db s :
  listeners (fst (pollWith checks db s)) = listeners s.
Proof.
  unfold pollWith.
  destruct (isConnected db); cbn [negb];
    [| now destruct (stopPolling_spec s) as (-> & _)].
  set (s1 := mkState _ _ _ _ _ _).
  destruct (watchedKeys s1) as [|key rest].
  - now destruct (stopPolling_spec s1) as (-> & _).
  - now destruct (checks_keep db (key :: rest) s1) as (-> & _).
Qed.

Lemma startPollingWith_timer db s :
  intervalId s = (if isPolling s then Some (pollingInterval s) else None) ->
  (isPolling s = true -> listeners s <> ∅) ->
  timerCoherent (fst (fst (startPollingWith checks db s))).
Proof.
  intros Htimer Hsome. unfold startPollingWith.
  destruct (isPolling s) eqn:Hpolling.
  { cbn [fst]. split; [now rewrite Hpolling | now rewrite Hpolling]. }
  destruct (isConnected db); cbn [negb].
  - set (s1 := mkState _ true _ _ _ _).
    pose proof (pollWith_timer db s1 eq_refl) as Hpoll.
    destruct (pollWith checks db s1) as [s2 effects]. exact Hpoll.
  - cbn [fst]. split; [now rewrite Hpolling | congruence].
Qed.

Lemma startPollingWith_listeners db s :
  listeners (fst (fst (startPollingWith checks db s))) = listeners s.
Proof.
  unfold startPollingWith. destruct (isPolling s); [reflexivity |].
  destruct (isConnected db); cbn [negb]; [| reflexivity].
  set (s1 := mkState _ true _ _ _ _).
  pose proof (pollWith_listeners db s1) as Hpoll.
  destruct (pollWith checks db s1) as [s2 effects]. exact Hpoll.
Qed.

Lemma settled_timer s :
  intervalId s = (if isPolling s then Some (pollingInterval s) else None) ->
  timerCoherent (fst (if bool_decide (size (listeners s) = 0%nat)
                      then stopPolling s else (s, []))).
Proof.
  intros Htimer. case_bool_decide as Hsize.
  - now apply stopPolling_timer.
  - cbn [fst]. split; [exact Htimer |].
    intros _ Hempty. apply Hsize. rewrite Hempty. apply map_size_empty.
Qed.

Lemma stepWith_timer db call s :
  timerCoherent s -> timerCoherent (fst (stepWith checks db call s)).
Proof.
  intros (Htimer & Hsome).
  destruct call as [key callback | key callback | target | interval | | | |];
    cbn [stepWith].
  - unfold addListenerWith. set (s1 := setListeners _ s).
    assert (Hsome1 : listeners s1 <> ∅)
      by (subst s1; cbn [setListeners listeners]; apply insert_non_empty).
    destruct (isPolling s1) eqn:Hpolling; cbn [negb fst].
    + split; [exact Htimer | intros _; exact Hsome1].
    + apply startPollingWith_timer; [exact Htimer | intros _; exact Hsome1].
  - unfold removeListener.
    set (s1 := match listeners s !! key with Some _ => _ | None => s end).
    apply settled_timer.
    subst s1. destruct (listeners s !! key); [| exact Htimer].
    case_bool_decide; exact Htimer.
  - unfold removeAllListeners.
    set (s1 := match truthyKey target with Some _ => _ | None => _ end).
    apply settled_timer.
    subst s1. destruct (truthyKey target); exact Htimer.
  - unfold setPollingIntervalWith. destruct (interval <? 100).
    { cbn [fst]. split; [exact Htimer | exact Hsome]. }
    set (s1 := mkState interval _ _ _ _ _).
    destruct (isPolling s1) eqn:Hpolling.
    + pose proof (stopPolling_spec s1) as (H1 & H2 & H3 & H4 & H5 & _).
      destruct (stopPolling s1) as [s2 e2]. cbn [fst] in *.
      pose proof (startPollingWith_timer db s2) as Hstart.
      destruct (startPollingWith checks db s2) as [[s3 e3] thrown]. cbn [fst] in *.
      apply Hstart.
      * rewrite H4. now apply H5.
      * rewrite H4. discriminate.
    + cbn [fst]. subst s1. cbn in Hpolling |- *. rewrite Hpolling in *.
      split; [exact Htimer | discriminate].
  - now apply startPollingWith_timer.
  - now apply stopPolling_timer.
  - unfold destroy.
    pose proof (stopPolling_timer s Htimer) as (T1 & _).
    destruct (stopPolling s) as [s1 e1]. cbn [fst] in *.
    assert (Hall : forall s0,
               intervalId s0 = (if isPolling s0 then Some (pollingInterval s0) else None) ->
               timerCoherent (fst (removeAllListeners None s0))).
    { intros s0 T0. unfold removeAllListeners. cbn [truthyKey].
      apply settled_timer. exact T0. }
    pose proof (Hall s1 T1) as (T2 & _).
    destruct (removeAllListeners None s1) as [s2 e2]. cbn [fst] in *.
    pose proof (Hall s2 T2) as H3.
    destruct (removeAllListeners None s2) as [s3 e3]. exact H3.
  - unfold timerFiresWith. destruct (intervalId s) eqn:Hid.
    + apply pollWith_timer. now rewrite Hid.
    + cbn [fst]. split; [now rewrite Hid | exact Hsome].
Qed.

Lemma stepWith_listeners db call s :
  listeners (fst (stepWith checks db call s)) = listenersAfter call (listeners s).
Proof.
  destruct call as [key callback | key callback | key | interval | | | |];
    cbn [stepWith listenersAfter].
  - unfold addListenerWith.
    set (s1 := setListeners _ s).
    destruct (isPolling s1) eqn:Hpolling; cbn [negb]; [reflexivity |].
    now rewrite startPollingWith_listeners.
  - apply removeListener_listeners.
  - apply removeAll_listeners.
  - unfold setPollingIntervalWith. destruct (interval <? 100); [reflexivity |].
    set (s1 := mkState interval _ _ _ _ _).
    destruct (isPolling s1); [| reflexivity].
    destruct (stopPolling_spec s1) as (H1 & _).
    destruct (stopPolling s1) as [s2 e2].
    pose proof (startPollingWith_listeners db s2) as H2.
    destruct (startPollingWith checks db s2) as [[s3 e3] thrown].
    cbn [fst snd] in *. now rewrite H2, H1.
  - apply startPollingWith_listeners.
  - now destruct (stopPolling_spec s) as (-> & _).
  - exact (step_listeners stringify (mkDb true (fun _ => ReadOk None) 0) CallDestroy s).
  - unfold timerFiresWith. destruct (intervalId s); [| reflexivity].
    apply pollWith_listeners.
Qed.

End AnyChecks.

Lemma issueReads_keep (db : Db Value) (keysToCheck : list string) s :
  listeners (fst (issueReads db keysToCheck s)) = listeners s /\
  isPolling (fst (issueReads db keysToCheck s)) = isPolling s /\
  intervalId (fst (issueReads db keysToCheck s)) = intervalId s /\
  pollingInterval (fst (issueReads db keysToCheck s)) = pollingInterval s.
Proof. repeat split. Qed.

Lemma happens_timer (h : Happening Value) (w : World Value) :
  timerCoherent (system w) -> timerCoherent (system (fst (happens stringify h w))).
Proof.
  intros Hw. destruct h as [db call | key outcome]; cbn [happens].
  - pose proof (stepWith_timer issueReads issueReads_keep db call (system w) Hw)
      as Hstep.
    destruct (stepWith issueReads db call (system w)) as [s' effects]. exact Hstep.
  - case_bool_decide; [| exact Hw].
    destruct (onReadSettled_fields outcome key (system w))
      as (H1 & H2 & H3 & H4 & _).
    destruct (onReadSettled stringify outcome key (system w)) as [s' effects].
    cbn [fst snd system] in *. destruct Hw as [Htimer Hsome].
    split; [now rewrite H3, H2, H4 | now rewrite H2, H1].
Qed.

Lemma happens_listeners (h : Happening Value) (w : World Value) :
  listeners (system (fst (happens stringify h w)))
  = match h with
    | Called _ call => listenersAfter call (listeners (system w))
    | Settled _ _ => listeners (system w)
    end.
Proof.
  destruct h as [db call | key outcome]; cbn [happens].
  - pose proof (stepWith_listeners issueReads issueReads_keep db call (system w))
      as Hstep.
    destruct (stepWith issueReads db call (system w)) as [s' effects]. exact Hstep.
  - case_bool_decide; [| reflexivity].
    destruct (onReadSettled_fields outcome key (system w)) as (H1 & _).
    destruct (onReadSettled stringify outcome key (system w)) as [s' effects].
    exact H1.
Qed.

Lemma asyncRun_timer (history : list (Happening Value)) :
  forall w : World Value,
    timerCoherent (system w) ->
    timerCoherent (system (fst (asyncRun stringify history w))).
Proof.
  induction history as [|h rest IH]; intros w Hw; [exact Hw |].
  cbn [asyncRun].
  pose proof (happens_timer h w Hw) as H1.
  destruct (happens stringify h w) as [w1 e1]. cbn [fst] in H1.
  specialize (IH w1 H1).
  destruct (asyncRun stringify rest w1) as [w2 e2]. exact IH.
Qed.

(** The reads of a call that settle at once give the step of [step]. *)
Lemma settle_in_order db (keysToCheck : list string) :
  forall s,
    let r := asyncRun stringify
               (List.map (fun key => Settled key (readData db key)) keysToCheck)
               (mkWorld s keysToCheck) in
    system (fst r) = fst (checkKeys stringify db keysToCheck s) /\
    inFlight (fst r) = [].
Proof.
  induction keysToCheck as [|key rest IH]; intros s; [now split |].
  cbn [List.map asyncRun happens inFlight system checkKeys].
  rewrite bool_decide_eq_true_2 by constructor.
  rewrite check_settles.
  destruct (onReadSettled stringify (readData db key) key s) as [s1 e1].
  cbn [removeOne fst snd]. rewrite String.eqb_refl.
  specialize (IH s1). cbn zeta in IH.
  destruct (asyncRun stringify _ (mkWorld s1 rest)) as [w2 e2].
  destruct (checkKeys stringify db rest s1) as [s2 e2'].
  exact IH.
Qed.

Lemma pollWith_split db s :
  fst (pollWith (checkKeys stringify) db s)
  = fst (checkKeys stringify db (readKeys (snd (pollWith issueReads db s)))
                   (fst (pollWith issueReads db s))).
Proof.
  unfold pollWith. destruct (isConnected db); cbn [negb].
  - set (s1 := mkState _ _ _ _ _ _).
    destruct (watchedKeys s1) as [|key rest].
    + destruct (stopPolling_spec s1) as (_ & _ & _ & _ & _ & ->). reflexivity.
    + unfold issueReads. cbn [fst snd]. now rewrite readKeys_issued.
  - destruct (stopPolling_spec s) as (_ & _ & _ & _ & _ & ->). reflexivity.
Qed.

Lemma startPollingWith_split db s :
  fst (fst (startPollingWith (checkKeys stringify) db s))
  = fst (checkKeys stringify db
           (readKeys (snd (fst (startPollingWith issueReads db s))))
           (fst (fst (startPollingWith issueReads db s)))).
Proof.
  unfold startPollingWith. destruct (isPolling s); [reflexivity |].
  destruct (isConnected db); cbn [negb]; [| reflexivity].
  set (s1 := mkState _ true _ _ _ _).
  pose proof (pollWith_split db s1) as Hpoll.
  destruct (pollWith (checkKeys stringify) db s1) as [s2 e2].
  destruct (pollWith issueReads db s1) as [s2' e2'].
  exact Hpoll.
Qed.

Lemma stepWith_split db call s :
  fst (step stringify db call s)
  = fst (checkKeys stringify db (readKeys (snd (stepWith issueReads db call s)))
                   (fst (stepWith issueReads db call s))).
Proof.
  rewrite step_is_stepWith.
  destruct call as [key callback | key callback | key | interval | | | |];
    cbn [stepWith].
  - unfold addListenerWith. set (s1 := setListeners _ s).
    destruct (isPolling s1); cbn [negb]; [reflexivity |].
    apply startPollingWith_split.
  - now destruct (removeListener_listeners key callback s) as [_ ->].
  - now destruct (removeAll_listeners key s) as [_ ->].
  - unfold setPollingIntervalWith. destruct (interval <? 100); [reflexivity |].
    set (s1 := mkState interval _ _ _ _ _).
    destruct (isPolling s1); [| reflexivity].
    destruct (stopPolling_spec s1) as (_ & _ & _ & _ & _ & Hnone).
    destruct (stopPolling s1) as [s2 e2]. cbn [snd] in Hnone.
    pose proof (startPollingWith_split db s2) as Hstart.
    destruct (startPollingWith (checkKeys stringify) db s2) as [[s3 e3] thrown].
    destruct (startPollingWith issueReads db s2) as [[s3' e3'] thrown'].
    cbn [fst snd] in *. now rewrite readKeys_app, Hnone.
  - apply startPollingWith_split.
  - now destruct (stopPolling_spec s) as (_ & _ & _ & _ & _ & ->).
  - unfold destroy.
    destruct (stopPolling_spec s) as (_ & _ & _ & _ & _ & H1).
    destruct (stopPolling s) as [s1 e1].
    destruct (removeAll_listeners None s1) as (_ & H2).
    destruct (removeAllListeners None s1) as [s2 e2].
    destruct (removeAll_listeners None s2) as (_ & H3).
    destruct (removeAllListeners None s2) as [s3 e3].
    cbn [fst snd] in *. now rewrite !readKeys_app, H1, H2, H3.
  - unfold timerFiresWith. destruct (intervalId s); [| reflexivity].
    apply pollWith_split.
Qed.

Lemma settling_at_once_is_step db call s :
  let r := asyncRun stringify (settlingAtOnce db call s) (mkWorld s []) in
  system (fst r) = fst (step stringify db call s) /\ inFlight (fst r) = [].
Proof.
  unfold settlingAtOnce. cbn [asyncRun happens system inFlight app].
  rewrite stepWith_split.
  destruct (stepWith issueReads db call s) as [s1 e1]. cbn [fst snd].
  destruct (settle_in_order db (readKeys e1) s1) as [Hsystem Hnone].
  destruct (asyncRun stringify _ (mkWorld s1 (readKeys e1))) as [w2 e2].
  now split.
Qed.

(** A read that is in flight when the last listener of its key is
    removed writes the key back into the cache when it settles. *)
Lemma stale_read_is_written_back configured db key callback doc :
  isConnected db = true ->
  let w := fst (asyncRun stringify
                  [Called db (CallAddListener key callback);
                   Called db (CallRemoveListener key callback);
                   Settled key (ReadOk (Some doc))]
                  (mkWorld (newSystem configured) [])) in
  listeners (system w) = ∅ /\
  cache (system w) !! key = Some (mkSnapshot (data doc) (lastModified doc)) /\
  isPolling (system w) = false /\
  inFlight w = [].
Proof.
  intros Hup. cbn zeta.
  cbn [asyncRun happens system inFlight stepWith app].
  assert (Hadd : addListenerWith issueReads db key callback (newSystem configured)
                 = (mkState (orElse configured 2000) true
                            (Some (orElse configured 2000)) ∅
                            {[key := {[callback]}]} (Some (dateNow db)),
                    [SetInterval (orElse configured 2000); ReadData key], None)).
  { unfold addListenerWith, startPollingWith, pollWith, newSystem.
    cbn [setListeners listeners isPolling negb pollingInterval intervalId cache
         lastPollTime].
    rewrite Hup. cbn [negb]. rewrite lookup_empty. cbn [default].
    rewrite insert_empty, (left_id_L ∅ (∪)).
    unfold watchedKeys. cbn [listeners].
    rewrite dom_singleton_L, elements_singleton. reflexivity. }
  rewrite Hadd. cbn [fst snd readKeys app system inFlight].
  assert (Hremove : removeListener key callback
                      (mkState (Value := Value) (orElse configured 2000) true
                               (Some (orElse configured 2000)) ∅
                               {[key := {[callback]}]} (Some (dateNow db)))
                    = (mkState (orElse configured 2000) false None ∅ ∅
                               (Some (dateNow db)), [ClearInterval])).
  { unfold removeListener. cbn [listeners].
    rewrite lookup_singleton_eq.
    rewrite (bool_decide_eq_true_2 (size ({[callback]} ∖ {[callback]} : gset nat) = 0%nat))
      by (rewrite difference_diag_L; apply size_empty).
    cbn [setCache setListeners listeners cache pollingInterval isPolling
         intervalId lastPollTime].
    rewrite delete_singleton_eq, delete_empty.
    rewrite (bool_decide_eq_true_2 (size (∅ : gmap string (gset nat)) = 0%nat))
      by apply map_size_empty.
    reflexivity. }
  rewrite Hremove. cbn [fst snd readKeys app system inFlight].
  rewrite bool_decide_eq_true_2 by constructor.
  unfold onReadSettled, notifyListeners. cbn [cache listeners].
  rewrite !lookup_empty. cbn [fst snd setCache listeners cache isPolling system
                              inFlight removeOne].
  rewrite String.eqb_refl, lookup_insert_eq. repeat split.
Qed.

(** X17. Whatever calls are made, whenever the timer fires and whenever
    the reads that are in flight settle, the interval timer is armed
    exactly when [isPolling] is set, and then with the current
    [pollingInterval], and a system that polls has at least one watched
    key. The cache is not bound in this way. When the reads of every
    call settle before the next call is made, [this.cache] holds data
    for watched keys only. But a read that is still in flight when the
    last listener of its key is removed writes the key back when it
    settles: after [addListener], the unsubscribe function and the
    settling of the read, the cache holds the document of a key that
    nobody watches, and the system does not poll. *)
Theorem timer_is_armed_exactly_while_polling
        (configured : option Z) (history : list (Happening Value)) :
  let s := system (fst (asyncRun stringify history
                          (mkWorld (newSystem configured) []))) in
  (statusIsPolling (getStatus s) = true ->
   intervalId s = Some (statusPollingInterval (getStatus s)) /\
   statusWatchedKeys (getStatus s) <> []) /\
  (statusIsPolling (getStatus s) = false -> intervalId s = None) /\
  (forall (quiet : list (Db Value * Call)) key,
      let s' := fst (run stringify quiet (newSystem configured)) in
      key ∉ statusWatchedKeys (getStatus s') -> cache s' !! key = None) /\
  (forall db call s0,
      system (fst (asyncRun stringify (settlingAtOnce db call s0)
                            (mkWorld s0 [])))
      = fst (step stringify db call s0)) /\
  (forall db key callback doc,
      isConnected db = true ->
      let w := fst (asyncRun stringify
                      [Called db (CallAddListener key callback);
                       Called db (CallRemoveListener key callback);
                       Settled key (ReadOk (Some doc))]
                      (mkWorld (newSystem configured) [])) in
      statusWatchedKeys (getStatus (system w)) = [] /\
      cache (system w) !! key
      = Some (mkSnapshot (data doc) (lastModified doc)) /\
      statusIsPolling (getStatus (system w)) = false).
Proof.
  cbn zeta.
  assert (Hs : timerCoherent
                 (system (fst (asyncRun stringify history
                                 (mkWorld (newSystem configured) []))))).
  { apply asyncRun_timer. split; [reflexivity | discriminate]. }
  destruct Hs as (Htimer & Hsome).
  set (s := system (fst (asyncRun stringify history _))) in *.
  cbn [getStatus statusIsPolling statusPollingInterval statusWatchedKeys].
  split; [| split; [| split; [| split]]].
  - intros Hpolling. rewrite Hpolling in Htimer. split; [exact Htimer |].
    intros Hnil. apply watched_nil in Hnil. now apply Hsome.
  - intros Hpolling. now rewrite Hpolling in Htimer.
  - intros quiet key Hout.
    destruct (run_coherent quiet (newSystem configured)
                           (newSystem_coherent configured)) as (_ & _ & Hcache).
    destruct (cache _ !! key) eqn:Hcached; [| reflexivity].
    exfalso. apply Hout. apply watched_lookup. apply Hcache. now rewrite Hcached.
  - intros db call s0. now destruct (settling_at_once_is_step db call s0).
  - intros db key callback doc Hup.
    destruct (stale_read_is_written_back configured db key callback doc Hup)
      as (Hl & Hc & Hp & _).
    split; [| split; [exact Hc | exact Hp]].
    apply watched_nil. exact Hl.
Qed.

(** *** A poll, key by key *)

Lemma concerns_notify_other key other payload changeType s :
  other <> key ->
  List.filter (concerns key) (notifyListeners other payload changeType s) = [].
Proof.
  intros Hne. unfold notifyListeners.
  destruct (listeners s !! other); [| reflexivity].
  case_bool_decide; [reflexivity |]. cbn.
  now apply String.eqb_neq in Hne as ->.
Qed.

Lemma concerns_notify_self key payload changeType s :
  List.filter (concerns key) (notifyListeners key payload changeType s)
  = notifyListeners key payload changeType s.
Proof.
  unfold notifyListeners.
  destruct (listeners s !! key); [| reflexivity].
  case_bool_decide; [reflexivity |]. cbn. now rewrite String.eqb_refl.
Qed.

Lemma check_local db key s s' :
  cache s !! key = cache s' !! key ->
  listeners s !! key = listeners s' !! key ->
  snd (checkKeyForChanges stringify db key s)
  = snd (checkKeyForChanges stringify db key s') /\
  cache (fst (checkKeyForChanges stringify db key s)) !! key
  = cache (fst (checkKeyForChanges stringify db key s')) !! key.
Proof.
  intros Hc Hl. unfold checkKeyForChanges, notifyListeners.
  rewrite <- Hc, <- Hl.
  destruct (readData db key) as [msg | [current |]]; [now split | |];
    destruct (cache s !! key) as [cachedData |] eqn:Hcached;
    try destruct (hasDataChanged stringify cachedData current);
    cbn [fst snd setCache cache];
    rewrite ?lookup_insert_eq, ?lookup_delete_eq;
    (split; [reflexivity |]); first [reflexivity | now rewrite Hcached].
Qed.

Lemma check_other db key other s :
  other <> key ->
  cache (fst (checkKeyForChanges stringify db other s)) !! key = cache s !! key /\
  List.filter (concerns key) (snd (checkKeyForChanges stringify db other s)) = [].
Proof.
  intros Hne. unfold checkKeyForChanges.
  assert (Heqb : String.eqb other key = false) by now apply String.eqb_neq.
  destruct (readData db other) as [msg | [current |]];
    [cbn; now rewrite Heqb | |];
    destruct (cache s !! other) as [cachedData |];
    try destruct (hasDataChanged stringify cachedData current);
    cbn [fst snd setCache cache List.filter concerns];
    rewrite Heqb, ?concerns_notify_other by assumption;
    rewrite ?lookup_insert_ne, ?lookup_delete_ne by assumption; now split.
Qed.

Lemma check_self db key s :
  List.filter (concerns key) (snd (checkKeyForChanges stringify db key s))
  = snd (checkKeyForChanges stringify db key s).
Proof.
  unfold checkKeyForChanges.
  destruct (readData db key) as [msg | [current |]];
    [cbn; now rewrite String.eqb_refl | |];
    destruct (cache s !! key) as [cachedData |];
    try destruct (hasDataChanged stringify cachedData current);
    cbn [fst snd List.filter concerns];
    now rewrite String.eqb_refl, ?concerns_notify_self.
Qed.

Lemma checkKeys_skips db key keysToCheck :
  key ∉ keysToCheck ->
  forall s,
    cache (fst (checkKeys stringify db keysToCheck s)) !! key = cache s !! key /\
    List.filter (concerns key) (snd (checkKeys stringify db keysToCheck s)) = [].
Proof.
  induction keysToCheck as [|other rest IH]; intros Hout s; [now split |].
  apply not_elem_of_cons in Hout. destruct Hout as [Hne Hrest].
  cbn [checkKeys].
  destruct (check_other db key other s) as [Hc1 Hf1]; [congruence |].
  destruct (checkKeyForChanges stringify db other s) as [s1 e1].
  destruct (IH Hrest s1) as [Hc2 Hf2].
  destruct (checkKeys stringify db rest s1) as [s2 e2].
  cbn [fst snd] in *. rewrite List.filter_app, Hf1, Hf2.
  split; [congruence | reflexivity].
Qed.

Lemma checkKeys_key db key keysToCheck :
  NoDup keysToCheck ->
  key ∈ keysToCheck ->
  forall s,
    List.filter (concerns key) (snd (checkKeys stringify db keysToCheck s))
    = snd (checkKeyForChanges stringify db key s) /\
    cache (fst (checkKeys stringify db keysToCheck s)) !! key
    = cache (fst (checkKeyForChanges stringify db key s)) !! key.
Proof.
  induction keysToCheck as [|other rest IH]; intros Hnodup Hin s.
  { now apply elem_of_nil in Hin. }
  apply NoDup_cons in Hnodup. destruct Hnodup as [Hout Hnodup].
  cbn [checkKeys].
  destruct (decide (other = key)) as [-> | Hne].
  - pose proof (check_self db key s) as Hself.
    destruct (checkKeyForChanges stringify db key s) as [s1 e1].
    destruct (checkKeys_skips db key rest Hout s1) as [Hc Hf].
    destruct (checkKeys stringify db rest s1) as [s2 e2].
    cbn [fst snd] in *. rewrite List.filter_app, Hself, Hf, app_nil_r.
    now split.
  - apply elem_of_cons in Hin. destruct Hin as [-> | Hin]; [contradiction |].
    destruct (check_other db key other s Hne) as [Hc1 Hf1].
    destruct (check_spec stringify db other s) as (Hl1 & _).
    destruct (checkKeyForChanges stringify db other s) as [s1 e1].
    cbn [fst snd] in *.
    destruct (IH Hnodup Hin s1) as [Hf2 Hc2].
    destruct (check_local db key s1 s) as [He Hc]; [exact Hc1 | now rewrite Hl1 |].
    destruct (checkKeys stringify db rest s1) as [s2 e2].
    cbn [fst snd] in *. rewrite List.filter_app, Hf1, Hf2. cbn [app].
    split; congruence.
Qed.

(** X18. A poll on a connected storage treats every watched key on its
    own: the reads and notifications of the poll that concern a key,
    and what the cache holds for it afterwards, are those of
    [checkKeyForChanges] for that key alone; a failed or changed read of
    one key does not affect another. Keys that are not watched are
    neither read nor notified, and their cache entry is untouched. *)
Theorem poll_checks_each_watched_key_on_its_own db s key :
  isConnected db = true ->
  let r := poll stringify db s in
  let alone := checkKeyForChanges stringify db key s in
  (key ∈ watchedKeys s ->
   List.filter (concerns key) (snd r) = snd alone /\
   cache (fst r) !! key = cache (fst alone) !! key) /\
  (key ∉ watchedKeys s ->
   List.filter (concerns key) (snd r) = [] /\
   cache (fst r) !! key = cache s !! key).
Proof.
  intros Hconnected. cbn zeta. unfold poll. rewrite Hconnected. cbn [negb].
  set (s1 := mkState _ _ _ _ _ (Some (dateNow db))).
  change (watchedKeys s1) with (watchedKeys s).
  split.
  - intros Hin.
    destruct (watchedKeys s) as [|first rest] eqn:Hkeys;
      [now apply elem_of_nil in Hin |].
    destruct (checkKeys_key db key (first :: rest)) with (s := s1) as [Hf Hc].
    + rewrite <- Hkeys. unfold watchedKeys. apply NoDup_elements.
    + exact Hin.
    + destruct (check_local db key s1 s) as [He Hc']; [reflexivity .. |].
      rewrite Hf, Hc. now split.
  - intros Hout.
    destruct (watchedKeys s) as [|first rest] eqn:Hkeys.
    + destruct (stopPolling_spec s1) as (_ & Hcache & _).
      split; [| now rewrite Hcache].
      unfold stopPolling. destruct (isPolling s1); [| reflexivity].
      now destruct (intervalId s1).
    + destruct (checkKeys_skips db key (first :: rest) Hout s1) as [Hc Hf].
      now split.
Qed.

(** *** Subscriptions *)

Lemma addListener_listeners db key callback s :
  listeners (fst (fst (addListener stringify db key callback s)))
  = <[key := default ∅ (listeners s !! key) ∪ {[callback]}]> (listeners s).
Proof.
  exact (step_listeners stringify db (CallAddListener key callback) s).
Qed.

Lemma removeListener_unregisters key callback s :
  ~ registered (fst (removeListener key callback s)) key callback.
Proof.
  intros (callbacks & Hlookup & Hin).
  destruct (removeListener_listeners key callback s) as [Hl _].
  rewrite Hl in Hlookup. cbn [listenersAfter] in Hlookup.
  destruct (listeners s !! key) as [registeredNow |] eqn:Hkey.
  - case_bool_decide.
    + now rewrite lookup_delete_eq in Hlookup.
    + rewrite lookup_insert_eq in Hlookup. simplify_eq. set_solver.
  - congruence.
Qed.

(** X19. The callbacks of a key form a set. A callback that is added
    twice for a key is registered once: the second [addListener] leaves
    the registry as it was, and calling the unsubscribe function once
    removes the callback altogether. [listenerCount] in [getStatus]
    counts the watched keys, not the callbacks. *)
Theorem double_subscription_is_one_registration db db' key callback s :
  let once := fst (fst (addListener stringify db key callback s)) in
  let twice := fst (fst (addListener stringify db' key callback once)) in
  registered once key callback /\
  listeners twice = listeners once /\
  ~ registered (fst (unsubscribe key callback twice)) key callback /\
  listenerCount (getStatus twice) = length (statusWatchedKeys (getStatus twice)) /\
  (is_Some (listeners s !! key) ->
   listenerCount (getStatus once) = listenerCount (getStatus s)).
Proof.
  cbn zeta.
  pose proof (addListener_listeners db key callback s) as Honce.
  set (once := fst (fst (addListener stringify db key callback s))) in *.
  pose proof (addListener_listeners db' key callback once) as Htwice.
  set (twice := fst (fst (addListener stringify db' key callback once))) in *.
  split; [| split; [| split; [| split]]].
  - exists (default ∅ (listeners s !! key) ∪ {[callback]}).
    rewrite Honce, lookup_insert_eq. split; [reflexivity | set_solver].
  - rewrite Htwice, Honce, lookup_insert_eq. cbn [default].
    rewrite insert_insert_eq. f_equal. set_solver.
  - apply removeListener_unregisters.
  - cbn [getStatus listenerCount statusWatchedKeys]. unfold watchedKeys.
    rewrite <- size_dom. reflexivity.
  - intros [callbacks Hkey]. cbn [getStatus listenerCount].
    rewrite Honce. rewrite !map_size_insert, Hkey. reflexivity.
Qed.

(** X20. A subscription made while the storage is disconnected, on a
    system that does not poll: [addListener] throws "Database not
    connected", yet the callback is registered. No timer is armed and
    nothing is read, and the firings of a timer that is not armed do
    nothing; the next subscription made while the storage is connected
    starts the polling, and the key is read then. *)
Theorem subscription_during_outage_throws_but_registers db key callback s :
  isConnected db = false ->
  isPolling s = false ->
  let r := addListener stringify db key callback s in
  snd r = Some "Database not connected" /\
  snd (fst r) = [] /\
  registered (fst (fst r)) key callback /\
  isPolling (fst (fst r)) = false /\
  intervalId (fst (fst r)) = intervalId s /\
  (intervalId s = None ->
   forall later,
     Forall (fun c : Db Value * Call => snd c = TimerFires) later ->
     run stringify later (fst (fst r)) = (fst (fst r), [])) /\
  (forall db' key' callback',
      isConnected db' = true ->
      let r' := fst (addListener stringify db' key' callback' (fst (fst r))) in
      isPolling (fst r') = true /\ key ∈ readKeys (snd r')).
Proof.
  intros Hdown Hidle. cbn zeta.
  assert (Hadd : addListener stringify db key callback s
                 = (setListeners (<[key := default ∅ (listeners s !! key)
                                            ∪ {[callback]}]> (listeners s)) s,
                    [], Some "Database not connected")).
  { unfold addListener, startPolling. cbn [setListeners isPolling].
    rewrite Hidle, Hdown. reflexivity. }
  rewrite Hadd. cbn [fst snd].
  set (s1 := setListeners _ s).
  assert (Hreg : listeners s1 !! key
                 = Some (default ∅ (listeners s !! key) ∪ {[callback]}))
    by (subst s1; cbn [setListeners listeners]; apply lookup_insert_eq).
  split; [reflexivity |]. split; [reflexivity |]. split; [| split; [| split; [| split]]].
  - eexists. split; [exact Hreg | set_solver].
  - exact Hidle.
  - reflexivity.
  - intros Hnone later Hlater. now apply idle_timer.
  - intros db' key' callback' Hup.
    unfold addListener. set (s2 := setListeners _ s1).
    assert (Hidle2 : isPolling s2 = false) by exact Hidle.
    rewrite Hidle2. cbn [negb].
    assert (Hwatched : key ∈ watchedKeys s2).
    { apply watched_lookup. subst s2. cbn [setListeners listeners].
      apply lookup_insert_is_Some.
      destruct (decide (key' = key)); [now left | right].
      split; [assumption | now rewrite Hreg]. }
    destruct (startPolling_spec stringify db' s2) as (_ & _ & Hreads & Hpolls).
    rewrite Hidle2, Hup in Hreads. split.
    + apply Hpolls; [exact Hidle2 | exact Hup |].
      intros Hnil. rewrite Hnil in Hwatched. now apply elem_of_nil in Hwatched.
    + now rewrite Hreads.
Qed.

(** *** Restarts and shutdown *)

(** X21. [setPollingInterval] with an interval of at least 100 ms on a
    system that polls: the old timer is cleared and, when the storage is
    connected, a timer with the new period is armed and every watched
    key is read again at once. When the storage is disconnected the call
    throws "Database not connected" and leaves the system with its
    listeners but without a timer. On a system that does not poll only
    the period changes. *)
Theorem new_interval_restarts_the_timer db interval s :
  100 <= interval ->
  coherent s ->
  let r := setPollingInterval stringify db interval s in
  listeners (fst (fst r)) = listeners s /\
  pollingInterval (fst (fst r)) = interval /\
  (isPolling s = true -> isConnected db = true ->
   snd r = None /\
   isPolling (fst (fst r)) = true /\
   intervalId (fst (fst r)) = Some interval /\
   exists reads,
     snd (fst r) = ClearInterval :: SetInterval interval :: reads /\
     readKeys reads = watchedKeys s) /\
  (isPolling s = true -> isConnected db = false ->
   snd r = Some "Database not connected" /\
   snd (fst r) = [ClearInterval] /\
   isPolling (fst (fst r)) = false /\
   intervalId (fst (fst r)) = None) /\
  (isPolling s = false ->
   r = (mkState interval false None (cache s) (listeners s) (lastPollTime s),
        [], None)).
Proof.
  intros Hinterval (Htimer & Hsome & Hcache). cbn zeta.
  unfold setPollingInterval.
  destruct (Z.ltb_spec interval 100); [lia |].
  cbn [isPolling].
  destruct (isPolling s) eqn:Hpolling.
  - unfold stopPolling. cbn [isPolling intervalId negb]. rewrite Htimer.
    cbn [negb pollingInterval cache listeners lastPollTime].
    unfold startPolling.
    cbn [isPolling pollingInterval intervalId cache listeners lastPollTime].
    destruct (isConnected db) eqn:Hconnected; cbn [negb].
    + set (s3 := mkState interval true (Some interval) (cache s) (listeners s)
                         (lastPollTime s)).
      destruct (poll_spec stringify db s3) as (Hl & Hp & Hreads & Hkeep & _).
      rewrite Hconnected in Hreads.
      assert (Hkeys : watchedKeys s3 <> []).
      { intros Hnil. apply watched_nil in Hnil. now apply Hsome. }
      destruct (Hkeep Hconnected Hkeys) as [Hpoll Hid].
      destruct (poll stringify db s3) as [s4 effects]. cbn [fst snd] in *.
      split; [exact Hl |]. split; [exact Hp |].
      split; [| split; [discriminate | discriminate]].
      intros _ _. split; [reflexivity |]. split; [exact Hpoll |].
      split; [exact Hid |]. exists effects. split; [reflexivity | exact Hreads].
    + cbn [fst snd listeners pollingInterval isPolling intervalId].
      split; [reflexivity |]. split; [reflexivity |].
      split; [discriminate |]. split; [| discriminate].
      intros _ _. repeat split.
  - cbn [fst snd listeners pollingInterval].
    split; [reflexivity |]. split; [reflexivity |].
    split; [discriminate |]. split; [discriminate |].
    intros _. now rewrite Htimer.
Qed.

Lemma removeAll_idle (target : option string) s :
  isPolling s = false ->
  truthyKey target = None ->
  removeAllListeners target s = (setCache ∅ (setListeners ∅ s), []).
Proof.
  intros Hidle Htarget. unfold removeAllListeners. rewrite Htarget.
  case_bool_decide as Hsize.
  - unfold stopPolling. cbn [setCache setListeners isPolling].
    now rewrite Hidle.
  - exfalso. apply Hsize. cbn [setCache setListeners listeners].
    apply map_size_empty.
Qed.

(** X22. [removeAllListeners] with a key removes the listeners and the
    cached data of that key and leaves the other keys alone. The empty
    string counts as no key: [removeAllListeners('')] removes the
    listeners of every key, clears the cache and stops the polling, like
    [removeAllListeners()]. *)
Theorem removeAllListeners_of_empty_key_removes_everything s :
  removeAllListeners (Some EmptyString) s = removeAllListeners None s /\
  listeners (fst (removeAllListeners (Some EmptyString) s)) = ∅ /\
  cache (fst (removeAllListeners (Some EmptyString) s)) = ∅ /\
  isPolling (fst (removeAllListeners (Some EmptyString) s)) = false /\
  (forall key other,
      key <> EmptyString ->
      let s' := fst (removeAllListeners (Some key) s) in
      listeners s' !! key = None /\
      cache s' !! key = None /\
      (other <> key ->
       listeners s' !! other = listeners s !! other /\
       cache s' !! other = cache s !! other)).
Proof.
  split; [reflexivity |].
  assert (Hall : forall s1,
             listeners (fst (if bool_decide (size (listeners s1) = 0%nat)
                             then stopPolling s1 else (s1, []))) = listeners s1 /\
             cache (fst (if bool_decide (size (listeners s1) = 0%nat)
                         then stopPolling s1 else (s1, []))) = cache s1).
  { intros s1. case_bool_decide; [| now split].
    now destruct (stopPolling_spec s1) as (H1 & H2 & _). }
  split; [| split; [| split]].
  - unfold removeAllListeners. cbn [truthyKey String.eqb].
    now destruct (Hall (setCache ∅ (setListeners ∅ s))) as [-> _].
  - unfold removeAllListeners. cbn [truthyKey String.eqb].
    now destruct (Hall (setCache ∅ (setListeners ∅ s))) as [_ ->].
  - unfold removeAllListeners. cbn [truthyKey String.eqb].
    set (s1 := setCache ∅ (setListeners ∅ s)).
    case_bool_decide as Hsize.
    + now destruct (stopPolling_spec s1) as (_ & _ & _ & H4 & _).
    + exfalso. apply Hsize. subst s1. cbn [setCache setListeners listeners].
      apply map_size_empty.
  - intros key other Hne. cbn zeta. unfold removeAllListeners, truthyKey.
    destruct (String.eqb_spec key "") as [-> | _]; [contradiction |].
    set (s1 := setCache _ _).
    destruct (Hall s1) as [-> ->]. subst s1.
    cbn [setCache setListeners listeners cache].
    rewrite !lookup_delete_eq. split; [reflexivity |]. split; [reflexivity |].
    intros Hother. now rewrite !lookup_delete_ne by congruence.
Qed.

(** X23. [destroy] leaves nothing behind: no listener, no cached data,
    no timer. It clears the timer when the system was polling, a second
    [destroy] does nothing, and no firing of the timer is handled
    afterwards. *)
Theorem destroy_releases_everything s :
  coherent s ->
  let r := destroy s in
  listeners (fst r) = ∅ /\
  cache (fst r) = ∅ /\
  isPolling (fst r) = false /\
  intervalId (fst r) = None /\
  snd r = (if isPolling s then [ClearInterval] else []) /\
  destroy (fst r) = (fst r, []) /\
  (forall later,
      Forall (fun c : Db Value * Call => snd c = TimerFires) later ->
      run stringify later (fst r) = (fst r, [])).
Proof.
  intros (Htimer & _ & _). cbn zeta.
  assert (Hdestroy : destroy s
                     = (mkState (pollingInterval s) false None ∅ ∅ (lastPollTime s),
                        if isPolling s then [ClearInterval] else [])).
  { unfold destroy, stopPolling.
    destruct (isPolling s) eqn:Hpolling; cbn [negb].
    - rewrite Htimer.
      rewrite (removeAll_idle None) by reflexivity.
      rewrite (removeAll_idle None) by reflexivity. reflexivity.
    - rewrite (removeAll_idle None) by first [exact Hpolling | reflexivity].
      rewrite (removeAll_idle None) by first [exact Hpolling | reflexivity].
      unfold setCache, setListeners.
      cbn [pollingInterval isPolling intervalId lastPollTime cache listeners app].
      now rewrite Hpolling, Htimer. }
  rewrite Hdestroy. cbn [fst snd listeners cache isPolling intervalId].
  split; [reflexivity |]. split; [reflexivity |]. split; [reflexivity |].
  split; [reflexivity |]. split; [reflexivity |]. split.
  - unfold destroy, stopPolling. cbn [isPolling negb].
    rewrite (removeAll_idle None) by reflexivity.
    rewrite (removeAll_idle None) by reflexivity. reflexivity.
  - intros later Hlater. now apply idle_timer.
Qed.

End WithValues.

(** *** Runs of the concrete system *)

Lemma watching_coherent : coherent watching.
Proof.
  exact (step_coherent id ordersUp (CallAddListener "orders" 1) (newSystem None)
                       (newSystem_coherent None)).
Qed.

Lemma watchingTwo_coherent : coherent watchingTwo.
Proof.
  exact (step_coherent id ordersUp (CallAddListener "invoices" 3) _
           (step_coherent id ordersUp (CallAddListener "invoices" 2) watching
                          watching_coherent)).
Qed.

Lemma timer_is_armed_witness :
  let w := fst (asyncRun id
                  [Called ordersUp (CallAddListener "orders" 1);
                   Called ordersUp (CallRemoveListener "orders" 1);
                   Settled "orders" (ReadOk (Some (mkSnapshot "new" (Some 1000))))]
                  (mkWorld (newSystem None) [])) in
  statusWatchedKeys (getStatus (system w)) = [] /\
  cache (system w) !! "orders" = Some (mkSnapshot "new" (Some 1000)).
Proof.
  destruct (timer_is_armed_exactly_while_polling id None [])
    as (_ & _ & _ & _ & Hstale).
  destruct (Hstale ordersUp "orders" 1%nat (mkSnapshot "new" (Some 1000)) eq_refl)
    as (Hnone & Hcached & _).
  split; [exact Hnone | exact Hcached].
Defined.

Lemma poll_checks_each_key_witness :
  List.filter (concerns "orders") (snd (poll id ordersUp pending))
  = [ReadData "orders"; Notify "orders" (Some "new") created {[1%nat]}].
Proof.
  destruct (poll_checks_each_watched_key_on_its_own id ordersUp pending "orders"
              eq_refl) as [Hwatched _].
  destruct Hwatched as [Hconcerned _].
  - apply (watched_lookup pending "orders"). vm_compute. eexists. reflexivity.
  - rewrite Hconcerned. vm_compute. reflexivity.
Defined.

Lemma subscription_during_outage_witness :
  snd (addListener id ordersDown "orders" 1 (newSystem None))
  = Some "Database not connected" /\
  registered (fst (fst (addListener id ordersDown "orders" 1 (newSystem None))))
             "orders" 1.
Proof.
  destruct (subscription_during_outage_throws_but_registers
              id ordersDown "orders" 1 (newSystem None) eq_refl eq_refl)
    as (Hthrown & _ & Hregistered & _).
  split; [exact Hthrown | exact Hregistered].
Defined.

Lemma new_interval_witness :
  intervalId (fst (fst (setPollingInterval id ordersUp 500 watchingTwo)))
  = Some 500 /\
  listeners (fst (fst (setPollingInterval id ordersUp 500 watchingTwo)))
  = listeners watchingTwo.
Proof.
  destruct (new_interval_restarts_the_timer id ordersUp 500 watchingTwo)
    as (Hlisteners & _ & Hup & _).
  - lia.
  - exact watchingTwo_coherent.
  - destruct (Hup eq_refl eq_refl) as (_ & _ & Htimer & _).
    split; [exact Htimer | exact Hlisteners].
Defined.

Lemma destroy_witness :
  listeners (fst (destroy watchingTwo)) = ∅ /\
  cache (fst (destroy watchingTwo)) = ∅ /\
  snd (destroy watchingTwo) = [ClearInterval].
Proof.
  destruct (destroy_releases_everything id watchingTwo watchingTwo_coherent)
    as (Hlisteners & Hcache & _ & _ & Heffects & _).
  split; [exact Hlisteners |]. split; [exact Hcache | exact Heffects].
Defined.

End HeartbeatSystemExtras.

(** ** The package around the poller *)
Module RealtimeStreamPackageProofs.
Import JsTruthy HeartbeatSystem HeartbeatSystemProofs HeartbeatSystemExtras.
Import RealtimeStreamPackage.

Section WithValues.
Context {Value : Type} (stringify : Value -> string).
Implicit Types (db : Db Value) (s : State Value) (pkg : Package (Value := Value)).

Lemma truthyKey_nonempty (key : option string) k :
  truthyKey key = Some k -> key = Some k /\ k <> EmptyString.
Proof.
  unfold truthyKey. destruct key as [k0 |]; [| discriminate].
  destruct (String.eqb_spec k0 ""); [discriminate |].
  intros [= <-]. now split.
Qed.

Lemma step_reaches_poller db (call : Call) s :
  fst (fst (step stringify db call (Some s)))
  = match call with
    | CallInit _ _ => Some s
    | CallDestroy => None
    | _ =>
        match pollerCall call with
        | Some c => Some (fst (HeartbeatSystem.step stringify db c s))
        | None => Some s
        end
    end.
Proof.
  destruct call as [config connectError | key callback | key callback | key
                   | interval | |]; cbn [step pollerCall HeartbeatSystem.step].
  - reflexivity.
  - unfold on. destruct (truthyKey key) as [k |]; [| reflexivity].
    destruct callback as [f |]; [| reflexivity]. cbn [HeartbeatSystem.step].
    now destruct (addListener stringify db k f s) as [[s' effects] thrown].
  - unfold off. destruct (truthyKey key) as [k |]; [| reflexivity].
    cbn [HeartbeatSystem.step].
    now destruct (removeListener k callback s) as [s' effects].
  - unfold RealtimeStreamPackage.removeAllListeners.
    now destruct (HeartbeatSystem.removeAllListeners key s) as [s' effects].
  - unfold RealtimeStreamPackage.setPollingInterval.
    now destruct (HeartbeatSystem.setPollingInterval stringify db interval s)
      as [[s' effects] thrown].
  - unfold RealtimeStreamPackage.destroy. now destruct (HeartbeatSystem.destroy s).
  - now destruct (timerFires stringify db s) as [s' effects].
Qed.

Lemma pollerCall_subscribes (call : Call) c key :
  pollerCall call = Some c -> subscribesTo key c -> key <> EmptyString.
Proof.
  destruct call as [config connectError | k callback | k callback | k
                   | interval | |]; cbn [pollerCall].
  - discriminate.
  - destruct (truthyKey k) as [k' |] eqn:Hkey; [| discriminate].
    destruct callback as [f |]; [| discriminate].
    intros [= <-]. cbn. intros <-. now apply truthyKey_nonempty in Hkey.
  - destruct (truthyKey k); [| discriminate]. intros [= <-] [].
  - intros [= <-] [].
  - intros [= <-] [].
  - discriminate.
  - intros [= <-] [].
Qed.

Lemma happens_kept (h : HeartbeatSystem.Happening Value) w :
  wellKept (Some w) ->
  (forall db c key, h = HeartbeatSystem.Called db c -> subscribesTo key c ->
                    key <> EmptyString) ->
  wellKept (Some (fst (happens stringify h w))).
Proof.
  intros [Htimer Hkeys] Hcall. split; [now apply happens_timer |].
  intros key Hkey. rewrite happens_listeners in Hkey.
  destruct h as [db c | k outcome]; [| now apply Hkeys].
  destruct (listeners (system w) !! key) as [callbacks |] eqn:Hold.
  - apply Hkeys. now rewrite Hold.
  - assert (Hsub : subscribesTo key c \/ ~ subscribesTo key c).
    { destruct c; cbn; try (now right).
      destruct (decide (key0 = key)); [now left | now right]. }
    destruct Hsub as [Hsub | Hsub]; [now apply (Hcall db c) |].
    rewrite (listenersAfter_unwatched key c _ Hold Hsub) in Hkey.
    destruct Hkey as [x Hx]. discriminate.
Qed.

Lemma occurs_wellKept (event : Event) client :
  wellKept client -> wellKept (occurs stringify event client).
Proof.
  intros Hkept. destruct event as [db call | key outcome]; cbn [occurs].
  - destruct client as [w |].
    + destruct call as [config connectError | k callback | k callback | k
                       | interval | |];
        try exact Hkept; try exact I;
        (destruct (pollerCall _) as [c |] eqn:Hcall; [| exact Hkept]);
        (apply happens_kept; [exact Hkept |]);
        intros db' c' key' [= _ <-] Hsub;
        now apply (pollerCall_subscribes _ _ _ Hcall).
    + destruct call as [config connectError | k callback | k callback | k
                       | interval | |]; try exact I.
      unfold init. destruct config as [config |]; [| exact I].
      destruct (_ || _ || _ || _ || _); [exact I |].
      destruct (negb _); [exact I |].
      destruct connectError; [exact I |]. cbn [fst option_map wellKept system].
      split; [split; [reflexivity | discriminate] |].
      intros key. cbn. rewrite lookup_empty. intros [x Hx]. discriminate.
  - destruct client as [w |]; [| exact I]. cbn [option_map].
    apply happens_kept; [exact Hkept |]. intros db c key' Heq. discriminate.
Qed.

Lemma packageRun_wellKept history :
  forall client, wellKept client -> wellKept (packageRun stringify history client).
Proof.
  induction history as [|event rest IH]; intros client Hkept; [exact Hkept |].
  cbn [packageRun]. apply IH. now apply occurs_wellKept.
Qed.

(** X24. Through the methods of the package no empty key is ever
    watched: [on] rejects a key that is empty or not a string before
    anything is registered. So after any history of calls on a new
    instance, with the reads of the poller settling at any time in
    between, every watched key is a non-empty string, and the timer of
    the poller is armed exactly while it polls, with its current
    period. A call of the package that passes its checks does to the
    poller what the call [pollerCall] of the poller does. *)
Theorem package_watches_only_nonempty_keys
        (history : list Event) (w : HeartbeatSystem.World Value) :
  packageRun stringify history None = Some w ->
  let s := system w in
  (forall key, key ∈ statusWatchedKeys (HeartbeatSystem.getStatus s) ->
               key <> EmptyString) /\
  (statusIsPolling (HeartbeatSystem.getStatus s) = true ->
   intervalId s = Some (statusPollingInterval (HeartbeatSystem.getStatus s))) /\
  (statusIsPolling (HeartbeatSystem.getStatus s) = false -> intervalId s = None) /\
  (forall db callback,
      on stringify db (Some EmptyString) callback (Some s)
      = (Some s, [], Some InvalidKey)) /\
  (forall db callback,
      on stringify db None callback (Some s) = (Some s, [], Some InvalidKey)) /\
  (forall db call c,
      pollerCall call = Some c ->
      fst (fst (step stringify db call (Some s)))
      = Some (fst (HeartbeatSystem.step stringify db c s))).
Proof.
  intros Hrun.
  pose proof (packageRun_wellKept history None I) as Hkept.
  rewrite Hrun in Hkept. destruct Hkept as [[Htimer _] Hkeys].
  cbn zeta.
  cbn [HeartbeatSystem.getStatus statusIsPolling statusPollingInterval
       statusWatchedKeys].
  split; [| split; [| split; [| split; [| split]]]].
  - intros key Hkey. apply Hkeys. now apply watched_lookup.
  - intros Hpolling. now rewrite Hpolling in Htimer.
  - intros Hpolling. now rewrite Hpolling in Htimer.
  - reflexivity.
  - reflexivity.
  - intros db call c Hcall. rewrite step_reaches_poller, Hcall.
    destruct call; try reflexivity; discriminate.
Qed.

(** X25. [init] passes [pollingInterval] on as it is (2000 when it is
    missing or zero): the minimum of 100 ms that [setPollingInterval]
    enforces is not applied. After [init] with an interval [p] below
    100, the poller has period [p], the first [on] arms the timer with
    it, and [setPollingInterval(p)] itself is rejected. *)
Theorem init_does_not_enforce_minimum_interval
        (config : InitConfig) (connectError : option string) s p :
  fst (init (Some config) connectError None) = Some s ->
  RealtimeStreamPackage.pollingInterval config = Some p ->
  p <> 0 ->
  s = newSystem (Some p) /\
  HeartbeatSystem.pollingInterval s = p /\
  (p < 100 ->
   forall db,
     RealtimeStreamPackage.setPollingInterval stringify db p (Some s)
     = (Some s, [], Some (PassedOn "Polling interval must be a number >= 100ms"))) /\
  (forall db key callback,
      isConnected db = true ->
      key <> EmptyString ->
      exists s' effects,
        on stringify db (Some key) (Some callback) (Some s)
        = (Some s', SetInterval p :: effects, None) /\
        intervalId s' = Some p).
Proof.
  intros Hinit Hperiod Hnonzero.
  assert (Hs : s = newSystem (Some p)).
  { unfold init in Hinit.
    destruct (_ || _ || _ || _ || _); [discriminate |].
    destruct (negb _); [discriminate |].
    destruct connectError; [discriminate |].
    cbn [fst] in Hinit. injection Hinit as <-.
    rewrite Hperiod. unfold orElse.
    now destruct (Z.eqb_spec p 0). }
  assert (Hp : HeartbeatSystem.pollingInterval s = p).
  { subst s. cbn. unfold orElse. now destruct (Z.eqb_spec p 0). }
  split; [exact Hs |]. split; [exact Hp |]. split.
  - intros Hshort db.
    unfold RealtimeStreamPackage.setPollingInterval,
      HeartbeatSystem.setPollingInterval.
    destruct (Z.ltb_spec p 100); [reflexivity | lia].
  - intros db key callback Hup Hkey.
    unfold on, truthyKey.
    destruct (String.eqb_spec key "") as [-> | _]; [contradiction |].
    unfold addListener.
    set (s1 := setListeners _ s).
    assert (Hidle : isPolling s1 = false) by (subst s1 s; reflexivity).
    rewrite Hidle. cbn [negb]. unfold startPolling. rewrite Hidle, Hup.
    cbn [negb].
    set (s2 := mkState _ true _ _ _ _).
    assert (Hperiod2 : HeartbeatSystem.pollingInterval s1 = p) by exact Hp.
    destruct (poll_spec stringify db s2) as (_ & _ & _ & Hkeep & _).
    assert (Hwatched : watchedKeys s2 <> []).
    { intros Hnil. apply watched_nil in Hnil.
      subst s2 s1. cbn [listeners setListeners] in Hnil.
      now apply insert_non_empty in Hnil. }
    destruct (Hkeep Hup Hwatched) as [_ Hid].
    destruct (poll stringify db s2) as [s3 effects]. cbn [fst] in Hid.
    exists s3, effects. rewrite Hperiod2. split; [reflexivity |].
    rewrite Hid. subst s2. cbn [intervalId]. now rewrite Hperiod2.
Qed.

(** X26. [on] while the storage is disconnected, on a package whose
    poller does not poll: the call throws "Database not connected", so
    the caller receives no unsubscribe function, yet the callback is
    registered; [off] with the same key and callback removes it. *)
Theorem on_during_outage_registers_without_handle db key callback s :
  isConnected db = false ->
  isPolling s = false ->
  key <> EmptyString ->
  exists s',
    on stringify db (Some key) (Some callback) (Some s)
    = (Some s', [], Some (PassedOn "Database not connected")) /\
    registered s' key callback /\
    isPolling s' = false /\
    exists s'' effects,
      off (Some key) callback (Some s') = (Some s'', effects, None) /\
      ~ registered s'' key callback.
Proof.
  intros Hdown Hidle Hkey.
  unfold on, off, truthyKey.
  destruct (String.eqb_spec key "") as [-> | _]; [contradiction |].
  assert (Hadd : addListener stringify db key callback s
                 = (setListeners (<[key := default ∅ (listeners s !! key)
                                            ∪ {[callback]}]> (listeners s)) s,
                    [], Some "Database not connected")).
  { unfold addListener, startPolling. cbn [setListeners isPolling].
    rewrite Hidle, Hdown. reflexivity. }
  rewrite Hadd. set (s1 := setListeners _ s).
  exists s1. split; [reflexivity |]. split; [| split; [exact Hidle |]].
  - eexists. split; [subst s1; cbn [setListeners listeners]; apply lookup_insert_eq |].
    set_solver.
  - pose proof (removeListener_unregisters key callback s1) as Hgone.
    destruct (removeListener key callback s1) as [s2 effects].
    exists s2, effects. split; [reflexivity | exact Hgone].
Qed.

End WithValues.

(** *** Runs of a concrete package *)

Lemma package_watches_witness :
  exists w,
    packageRun id hastyHistory None = Some w /\
    inFlight w = ["orders"] /\
    forall key, key ∈ statusWatchedKeys (HeartbeatSystem.getStatus (system w)) ->
                key <> EmptyString.
Proof.
  eexists. split; [reflexivity |]. split; [vm_compute; reflexivity |].
  now destruct (package_watches_only_nonempty_keys id hastyHistory _ eq_refl).
Defined.

Lemma init_interval_witness :
  fst (init (Some hastyConfig) None (None : Package (Value := string)))
  = Some (newSystem (Some 50)) /\
  HeartbeatSystem.pollingInterval (newSystem (Value := string) (Some 50)) = 50.
Proof.
  destruct (init_does_not_enforce_minimum_interval
              id hastyConfig None (newSystem (Some 50)) 50 eq_refl eq_refl)
    as (_ & Hperiod & _).
  - discriminate.
  - split; [reflexivity | exact Hperiod].
Defined.

Lemma on_during_outage_witness :
  exists s',
    on id ordersDown (Some "orders") (Some 1%nat) (Some (newSystem None))
    = (Some s', [], Some (PassedOn "Database not connected")) /\
    registered s' "orders" 1.
Proof.
  destruct (on_during_outage_registers_without_handle
              id ordersDown "orders" 1%nat (newSystem None) eq_refl eq_refl)
    as (s' & Hon & Hregistered & _).
  - discriminate.
  - exists s'. split; [exact Hon | exact Hregistered].
Defined.

End RealtimeStreamPackageProofs.
